(** * FIFO cost-basis calculator (src/src/calculator.ts): embedding and properties

    The calculator turns a list of trades into Form 8949 entries by FIFO lot
    matching, writes off worthless open positions and aggregates summaries.
    The embedding below follows calculator.ts function by function.

    Numbers.  TypeScript's [number] is IEEE 754 binary64.  The code is written
    once, over an interface [Number] of the arithmetic it uses, and run on
    [binary64], Rocq's primitive floats, the arithmetic the program really
    executes; what holds of the control flow alone is stated for every
    instance of the interface.  Where a statement speaks of the number a
    float stands for, it is the rational [Js.valueOf] of it.  Timestamps and
    the tax year are integer seconds / integer years and are modelled in [Z].

    Scope.  A [Date] is UTC shifted by an offset [tz] of the host, the same
    for all the timestamps of a run: a host that changes its offset within
    the run (daylight saving time) is not modelled, and where a statement
    rests on the range of a [Date] (8640000000000 seconds either way of the
    epoch) the range is a hypothesis of it.  Strings are sequences of bytes:
    on ASCII text they are the strings of the program, a character being one
    UTF-16 unit and [toUpperCase] and [trim] acting on ASCII alone; a
    statement that rests on this takes its text in ASCII ([Str.isAscii]).

    Effects.  The inventory [Map] and the [entries] / [warnings] arrays that
    [generateTaxReport] mutates are threaded as a state [Engine]; the
    while-loop of [matchSellToBuys] is a recursion on a pass counter that is
    shown never to run out.  The awaited [fetchMarketsBatch] is a variable of
    the development: the market lookup it resolves to.

    Layout.  The embedding of calculator.ts; the vocabulary the properties
    are stated in and the example inputs; the code around the calculator
    (the wallet input, the market and history requests of api.ts, the forms
    and statements of pdf.ts); facts about the embedding; the properties C1
    to C10, in order; then further properties, numbered from X1.

    Around the calculator.  The answers of the network are variables: what
    [fetchMarket] resolves an id to, and the response to the request of a
    page of the history.  What is asked of pdf-lib is a list of calls or of
    lines drawn, and [toFixed(2)] is a variable where only its text
    matters. *)

From Stdlib Require Import ZArith List String Ascii Bool Lia.
From Stdlib Require Import Floats QArith Qcanon.
From Stdlib Require Import Permutation Sorted DecimalString.
Import ListNotations.

#[local] Set Warnings "-inexact-float".
#[local] Open Scope Z_scope.

(* ===================================================================== *)
(** ** The arithmetic interface of a JavaScript number *)
(* ===================================================================== *)

Declare Scope num_scope.
Delimit Scope num_scope with num.

(** What calculator.ts does with a [number] that is not a timestamp:
    the literals [0], [1.0], [100] ([Math.pow(10, 2)]) and [0.0001]; the
    operators [+ - * /], unary minus and [<] ([a > b] is [b < a]);
    [Math.min], [Math.round]; and truthiness, as tested by [x || y]. *)
Class Number (num : Type) : Type := {
  nzero : num;
  none : num;
  nhundred : num;
  epsilon : num;
  nadd : num -> num -> num;
  nsub : num -> num -> num;
  nmul : num -> num -> num;
  ndiv : num -> num -> num;
  nopp : num -> num;
  nltb : num -> num -> bool;
  Math_min : num -> num -> num;
  Math_round : num -> num;
  falsy : num -> bool
}.

Infix "+" := nadd : num_scope.
Infix "-" := nsub : num_scope.
Infix "*" := nmul : num_scope.
Infix "/" := ndiv : num_scope.
Notation "- x" := (nopp x) : num_scope.
Infix "<?" := nltb : num_scope.
Notation "a >? b" := (nltb b a) : num_scope.

(** [x || y] on numbers: [y] when [x] is [0], [-0] or [NaN]. *)
Definition orElse {num} `{Number num} (x y : num) : num :=
  if falsy x then y else x.

(* --------------------------------------------------------------------- *)
(** *** binary64: the arithmetic the program runs *)

Module Js.

(** [Math.round]: the integer closest to [x], a tie going to the integer
    closer to plus infinity; [NaN], the infinities and the zeros are returned
    as they are, and a negative [x] of magnitude at most one half gives [-0].
    A finite [x] is [(-1)^s * m * 2^e] exactly, so the result is computed in
    [Z] as [floor ((2 x + 1) / 2)]. *)
Definition round_to_integer (x : float) : float :=
  match Prim2SF x with
  | S754_finite s m e =>
      if 0 <=? e then x
      else
        let k := - e in
        let sm := if s then Z.neg m else Z.pos m in
        match Z.shiftr (sm + Z.shiftl 1 (k - 1)) k with
        | Z0 => if s then neg_zero else zero
        | Z.pos p => of_uint63 (Uint63.of_Z (Z.pos p))
        | Z.neg p => PrimFloat.opp (of_uint63 (Uint63.of_Z (Z.pos p)))
        end
  | _ => x
  end.

(** [Math.min]: [NaN] when an argument is [NaN]; [-0] is below [+0]. *)
Definition min (a b : float) : float :=
  if is_nan a || is_nan b then nan
  else if PrimFloat.ltb a b then a
  else if PrimFloat.ltb b a then b
  else if get_sign a then a else b.

(** ToBoolean of a number is false on [+0], [-0] and [NaN]. *)
Definition is_falsy (x : float) : bool := is_zero x || is_nan x.


(** The same number: equal, or both a zero, of either sign. *)
Definition sameNumber (a b : float) : Prop :=
  a = b \/ (is_zero a = true /\ is_zero b = true).

End Js.

#[export] Instance binary64 : Number float := {|
  nzero := 0%float;
  none := 1%float;
  nhundred := 100%float;
  epsilon := 0.0001%float;
  nadd := PrimFloat.add;
  nsub := PrimFloat.sub;
  nmul := PrimFloat.mul;
  ndiv := PrimFloat.div;
  nopp := PrimFloat.opp;
  nltb := PrimFloat.ltb;
  Math_min := Js.min;
  Math_round := Js.round_to_integer;
  falsy := Js.is_falsy
|}.

(* ===================================================================== *)
(** ** Strings: the library calls of calculator.ts on ASCII text *)
(* ===================================================================== *)

Module Str.

Definition upper_ascii (c : ascii) : ascii :=
  let n := nat_of_ascii c in
  if (Nat.leb 97 n && Nat.leb n 122)%bool then ascii_of_nat (n - 32) else c.

(** [s.toUpperCase()] on ASCII text: the letters a to z.  The library also
    maps letters outside ASCII, some of them to more than one character. *)
Fixpoint toUpperCase (s : string) : string :=
  match s with
  | EmptyString => EmptyString
  | String c r => String (upper_ascii c) (toUpperCase r)
  end.

(** [s.split(sep)] for a one-character separator: never an empty array. *)
Fixpoint split (sep : ascii) (s : string) : list string :=
  match s with
  | EmptyString => [EmptyString]
  | String c r =>
      if Ascii.eqb c sep then EmptyString :: split sep r
      else match split sep r with
           | [] => [String c EmptyString]
           | h :: t => String c h :: t
           end
  end.

(** [parts.join(sep)] *)
Definition join (sep : string) (parts : list string) : string :=
  String.concat sep parts.

(** [s.lastIndexOf(c)], scanning from index [i]; [-1] when [c] is absent. *)
Fixpoint lastIndexOf_from (c : ascii) (s : string) (i : Z) : Z :=
  match s with
  | EmptyString => -1
  | String a r =>
      let later := lastIndexOf_from c r (i + 1) in
      if 0 <=? later then later else if Ascii.eqb a c then i else -1
  end.

Definition lastIndexOf (c : ascii) (s : string) : Z := lastIndexOf_from c s 0.

Definition is_space (c : ascii) : bool :=
  let n := nat_of_ascii c in
  (Nat.eqb n 32 || (Nat.leb 9 n && Nat.leb n 13))%bool.

Fixpoint trimStart (s : string) : string :=
  match s with
  | EmptyString => EmptyString
  | String c r => if is_space c then trimStart r else s
  end.

Fixpoint trimEnd (s : string) : string :=
  match s with
  | EmptyString => EmptyString
  | String c r =>
      match trimEnd r with
      | EmptyString => if is_space c then EmptyString else String c EmptyString
      | r' => String c r'
      end
  end.

(** [s.trim()] on ASCII text: the space and the characters 9 to 13.  The
    library also trims the white space outside ASCII. *)
Definition trim (s : string) : string := trimEnd (trimStart s).

(** [s.includes(c)] *)
Fixpoint includes (c : ascii) (s : string) : bool :=
  match s with
  | EmptyString => false
  | String a r => (Ascii.eqb a c || includes c r)%bool
  end.

(** [String(n)] for an integer [n] *)
Definition ofZ (n : Z) : string := NilZero.string_of_int (Z.to_int n).

(** [s.padStart(2, '0')] *)
Definition padStart2 (s : string) : string :=
  match String.length s with
  | O => ("00" ++ s)%string
  | S O => ("0" ++ s)%string
  | _ => s
  end.

(** Text in ASCII: there a character is one UTF-16 unit, [length] counts
    characters, and the functions above are the library's. *)
Fixpoint isAscii (s : string) : bool :=
  match s with
  | EmptyString => true
  | String c r => (Nat.ltb (nat_of_ascii c) 128 && isAscii r)%bool
  end.

End Str.

(* ===================================================================== *)
(** ** Dates: [Date] in a host whose local time is UTC plus a fixed offset *)
(* ===================================================================== *)

Module JsDate.

(** Days since 1970-01-01 of a proleptic Gregorian date; [m] counts from 1. *)
Definition days_from_civil (y m d : Z) : Z :=
  let y := if m <=? 2 then y - 1 else y in
  let era := y / 400 in
  let yoe := y - era * 400 in
  let mp := if 2 <? m then m - 3 else m + 9 in
  let doy := (153 * mp + 2) / 5 + d - 1 in
  let doe := yoe * 365 + yoe / 4 - yoe / 100 + doy in
  era * 146097 + doe - 719468.

(** The Gregorian (year, month from 1, day) of a day number. *)
Definition civil_from_days (z : Z) : Z * Z * Z :=
  let z := z + 719468 in
  let era := z / 146097 in
  let doe := z - era * 146097 in
  let yoe := (doe - doe / 1460 + doe / 36524 - doe / 146096) / 365 in
  let doy := doe - (365 * yoe + yoe / 4 - yoe / 100) in
  let mp := (5 * doy + 2) / 153 in
  let d := doy - (153 * mp + 2) / 5 + 1 in
  let m := if mp <? 10 then mp + 3 else mp - 9 in
  ((if m <=? 2 then yoe + era * 400 + 1 else yoe + era * 400), m, d).

(** [new Date(year, monthIndex, day, h, mi, s).getTime() / 1000]: epoch seconds
    of a local wall-clock time; [tz] is the host's offset east of UTC in
    seconds; a year in 0..99 means 1900 + year; [monthIndex] counts from 0
    (only month indices within the year are used). *)
Definition localTime (tz year monthIndex day h mi s : Z) : Z :=
  let year := if (0 <=? year) && (year <=? 99) then 1900 + year else year in
  days_from_civil year (monthIndex + 1) day * 86400 + h * 3600 + mi * 60 + s - tz.

(** [getFullYear()], [getMonth()], [getDate()] of [new Date(timestamp * 1000)] *)
Definition localFields (tz timestamp : Z) : Z * Z * Z :=
  let '(y, m, d) := civil_from_days ((timestamp + tz) / 86400) in
  (y, m - 1, d).

End JsDate.

(* ===================================================================== *)
(** ** The data model (src/src/types.ts) *)
(* ===================================================================== *)

Inductive TradeType : Set := TRADE | REDEEM.
Inductive Side : Set := BUY | SELL.

Module Trade.
Record t (num : Type) : Type := mk {
  timestamp : Z;
  type : TradeType;
  side : Side;
  conditionId : string;
  outcome : string;
  size : num;
  usdcSize : num;
  price : num;
  transactionHash : string;
  title : string
}.
Arguments mk {num}.
Arguments timestamp {num}.
Arguments type {num}.
Arguments side {num}.
Arguments conditionId {num}.
Arguments outcome {num}.
Arguments size {num}.
Arguments usdcSize {num}.
Arguments price {num}.
Arguments transactionHash {num}.
Arguments title {num}.
End Trade.
Abbreviation PolymarketTrade := Trade.t.

Module Token.
Record t (num : Type) : Type := mk {
  outcome : string;
  winner : bool;
  price : num
}.
Arguments mk {num}.
Arguments outcome {num}.
Arguments winner {num}.
Arguments price {num}.
End Token.

Module Market.
Record t (num : Type) : Type := mk {
  question : string;
  closed : bool;
  condition_id : string;
  tokens : list (Token.t num)
}.
Arguments mk {num}.
Arguments question {num}.
Arguments closed {num}.
Arguments condition_id {num}.
Arguments tokens {num}.
End Market.
Abbreviation MarketData := Market.t.

Module Entry.
Record t (num : Type) : Type := mk {
  description : string;
  dateAcquired : string;
  dateSold : string;
  proceeds : num;
  costBasis : num;
  gainLoss : num;
  isLongTerm : bool;
  holdingDays : Z
}.
Arguments mk {num}.
Arguments description {num}.
Arguments dateAcquired {num}.
Arguments dateSold {num}.
Arguments proceeds {num}.
Arguments costBasis {num}.
Arguments gainLoss {num}.
Arguments isLongTerm {num}.
Arguments holdingDays {num}.
End Entry.
Abbreviation Form8949Entry := Entry.t.

Module Lot.
Record t (num : Type) : Type := mk {
  acquisitionDate : Z;
  quantity : num;
  costBasisPerToken : num;
  totalCostBasis : num;
  marketTitle : string;
  transactionHash : string;
  outcome : string
}.
Arguments mk {num}.
Arguments acquisitionDate {num}.
Arguments quantity {num}.
Arguments costBasisPerToken {num}.
Arguments totalCostBasis {num}.
Arguments marketTitle {num}.
Arguments transactionHash {num}.
Arguments outcome {num}.

(** [lot.quantity = q]: the one field the engine ever writes. *)
Definition set_quantity {num} (q : num) (lot : t num) : t num :=
  mk (acquisitionDate lot) q (costBasisPerToken lot) (totalCostBasis lot)
     (marketTitle lot) (transactionHash lot) (outcome lot).
End Lot.
Abbreviation InventoryLot := Lot.t.

Module Position.
Record t (num : Type) : Type := mk {
  positionKey : string;
  conditionId : string;
  outcome : string;
  quantity : num;
  costBasis : num;
  lots : list (Lot.t num);
  title : string
}.
Arguments mk {num}.
Arguments positionKey {num}.
Arguments conditionId {num}.
Arguments outcome {num}.
Arguments quantity {num}.
Arguments costBasis {num}.
Arguments lots {num}.
Arguments title {num}.
End Position.
Abbreviation OpenPosition := Position.t.

Module Summary.
Record t (num : Type) : Type := mk {
  count : nat;
  totalProceeds : num;
  totalCostBasis : num;
  totalGainLoss : num
}.
Arguments mk {num}.
Arguments count {num}.
Arguments totalProceeds {num}.
Arguments totalCostBasis {num}.
Arguments totalGainLoss {num}.
End Summary.

(** A warning is the template literal
    [`Sold ${remaining} more shares than owned for ${key}`], kept as its two
    holes (the oversold quantity and the position key). *)
Inductive Warning (num : Type) : Type :=
  SoldMoreThanOwned (remaining : num) (key : string).
Arguments SoldMoreThanOwned {num}.

Module Report.
Record t (num : Type) : Type := mk {
  shortTerm : list (Entry.t num);
  longTerm : list (Entry.t num);
  shortTermSummary : Summary.t num;
  longTermSummary : Summary.t num;
  totalTransactions : nat;
  totalGainLoss : num;
  warnings : list (Warning num);
  openPositions : list (Position.t num)
}.
Arguments mk {num}.
Arguments shortTerm {num}.
Arguments longTerm {num}.
Arguments shortTermSummary {num}.
Arguments longTermSummary {num}.
Arguments totalTransactions {num}.
Arguments totalGainLoss {num}.
Arguments warnings {num}.
Arguments openPositions {num}.
End Report.
Abbreviation TaxReport := Report.t.

(** [Map<string, InventoryLot[]>]: a JavaScript [Map] iterates in insertion
    order and [set] on a present key keeps its place, so the inventory is an
    association list with unique keys. *)
Module Inv.
Section Inv.
Context {V : Type}.

Fixpoint get (key : string) (m : list (string * V)) : option V :=
  match m with
  | [] => None
  | (k, v) :: r => if String.eqb k key then Some v else get key r
  end.

Fixpoint set (key : string) (v : V) (m : list (string * V)) : list (string * V) :=
  match m with
  | [] => [(key, v)]
  | (k, w) :: r => if String.eqb k key then (k, v) :: r else (k, w) :: set key v r
  end.

End Inv.
End Inv.

(* ===================================================================== *)
(** ** The calculator (src/src/calculator.ts) *)
(* ===================================================================== *)

Definition LONG_TERM_DAYS : Z := 365.

Section Calculator.

Context {num : Type} {N : Number num}.

(** The host: its time zone (offset east of UTC, seconds), and what
    [await fetchMarketsBatch(conditionIds)] of api.ts resolves to, read
    through [marketMap.get]. *)
Variable tz : Z.
Variable fetchMarketsBatch : list string -> string -> option (MarketData num).

#[local] Open Scope num_scope.

(* ---- utilities ---- *)

Definition round (x : num) : num := Math_round (x * nhundred) / nhundred.

Definition sumBy {A : Type} (arr : list A) (key : A -> num) : num :=
  fold_left (fun sum item => sum + orElse (key item) nzero) arr nzero.

Definition formatDate (timestamp : Z) : string :=
  let '(year, monthIndex, day) := JsDate.localFields tz timestamp in
  (Str.padStart2 (Str.ofZ (monthIndex + 1)%Z) ++ "/" ++
   Str.padStart2 (Str.ofZ day) ++ "/" ++ Str.ofZ year)%string.

Definition truncate (str : string) (maxLen : nat) : string :=
  if (String.eqb str "" || Nat.leb (String.length str) maxLen)%bool then str
  else
    let cutPoint := (maxLen - 3)%nat in
    let lastSpace := Str.lastIndexOf " "%char (String.substring 0 cutPoint str) in
    let cutPoint :=
      if (Z.of_nat maxLen <? 2 * lastSpace)%Z then Z.to_nat lastSpace else cutPoint in
    (Str.trim (String.substring 0 cutPoint str) ++ "...")%string.

(* ---- normalization ---- *)

Definition normalizeTrade (trade : PolymarketTrade num) : option (PolymarketTrade num) :=
  if (String.eqb (Trade.conditionId trade) "" || String.eqb (Trade.outcome trade) "")%bool
  then None
  else
    match Trade.type trade with
    | REDEEM =>
        Some (Trade.mk (Trade.timestamp trade) (Trade.type trade) SELL
                (Trade.conditionId trade) (Trade.outcome trade) (Trade.size trade)
                (Trade.size trade * none) none
                (Trade.transactionHash trade) (Trade.title trade))
    | TRADE =>
        Some (Trade.mk (Trade.timestamp trade) (Trade.type trade) (Trade.side trade)
                (Trade.conditionId trade) (Trade.outcome trade) (Trade.size trade)
                (Trade.usdcSize trade)
                (orElse (Trade.price trade) (Trade.usdcSize trade / Trade.size trade))
                (Trade.transactionHash trade) (Trade.title trade))
    end.

(** [trades.map(normalizeTrade).filter(Boolean)] *)
Fixpoint normalizeAll (trades : list (PolymarketTrade num)) : list (PolymarketTrade num) :=
  match trades with
  | [] => []
  | t :: r =>
      match normalizeTrade t with
      | Some t' => t' :: normalizeAll r
      | None => normalizeAll r
      end
  end.

(** [normalized.sort((a, b) => a.timestamp - b.timestamp)]: [Array.prototype.sort]
    is stable, so a trade goes before the already placed trades of the same or
    a later timestamp and after those of an earlier one. *)
Fixpoint insertByTimestamp (t : PolymarketTrade num) (sorted : list (PolymarketTrade num))
  : list (PolymarketTrade num) :=
  match sorted with
  | [] => [t]
  | u :: r =>
      if (Trade.timestamp t <=? Trade.timestamp u)%Z then t :: u :: r
      else u :: insertByTimestamp t r
  end.

Fixpoint sortByTimestamp (trades : list (PolymarketTrade num)) : list (PolymarketTrade num) :=
  match trades with
  | [] => []
  | t :: r => insertByTimestamp t (sortByTimestamp r)
  end.

(* ---- the FIFO matching engine ---- *)

Definition Inventory : Type := list (string * list (InventoryLot num)).

(** [`${trade.conditionId}-${trade.outcome}`] *)
Definition positionKeyOf (trade : PolymarketTrade num) : string :=
  (Trade.conditionId trade ++ "-" ++ Trade.outcome trade)%string.

Definition newLot (trade : PolymarketTrade num) : InventoryLot num :=
  Lot.mk (Trade.timestamp trade) (Trade.size trade)
         (Trade.usdcSize trade / Trade.size trade) (Trade.usdcSize trade)
         (Trade.title trade) (Trade.transactionHash trade) (Trade.outcome trade).

Definition addToInventory (inventory : Inventory) (key : string)
  (trade : PolymarketTrade num) : Inventory :=
  match Inv.get key inventory with
  | None => Inv.set key [newLot trade] inventory
  | Some queue => Inv.set key (queue ++ [newLot trade]) inventory
  end.

Definition descriptionOf (outcome title : string) : string :=
  (Str.toUpperCase outcome ++ " token - " ++ truncate title 55)%string.

(** The entry pushed by one pass of the matching loop. *)
Definition matchEntry (trade : PolymarketTrade num) (proceedsPerToken : num)
  (lot : InventoryLot num) (qty : num) : Form8949Entry num :=
  let proceeds := qty * proceedsPerToken in
  let costBasis := qty * Lot.costBasisPerToken lot in
  let gainLoss := proceeds - costBasis in
  let holdingDays := ((Trade.timestamp trade - Lot.acquisitionDate lot) / 86400)%Z in
  Entry.mk (descriptionOf (Trade.outcome trade) (Trade.title trade))
           (formatDate (Lot.acquisitionDate lot))
           (formatDate (Trade.timestamp trade))
           (round proceeds) (round costBasis) (round gainLoss)
           (LONG_TERM_DAYS <=? holdingDays)%Z holdingDays.

(** The [while (remaining > 0.0001 && queue.length > 0)] loop: the entries it
    pushes, and [remaining] and [queue] when it exits.  [fuel] bounds the
    number of passes; a run that uses it up stops where it is. *)
Fixpoint matchLoop (fuel : nat) (trade : PolymarketTrade num) (proceedsPerToken : num)
  (remaining : num) (queue : list (InventoryLot num))
  : list (Form8949Entry num) * num * list (InventoryLot num) :=
  match fuel with
  | O => ([], remaining, queue)
  | S fuel' =>
      if remaining >? epsilon then
        match queue with
        | [] => ([], remaining, queue)
        | lot :: rest =>
            let qty := Math_min remaining (Lot.quantity lot) in
            let entry := matchEntry trade proceedsPerToken lot qty in
            let lot' := Lot.set_quantity (Lot.quantity lot - qty) lot in
            let remaining' := remaining - qty in
            let queue' := if Lot.quantity lot' <? epsilon then rest else lot' :: rest in
            let '(entries, r, q) := matchLoop fuel' trade proceedsPerToken remaining' queue' in
            (entry :: entries, r, q)
        end
      else ([], remaining, queue)
  end.

(** Passes the loop can take on a queue: one per lot it pops, and at most two
    more (see [matchLoop_fuel]). *)
Definition passes (queue : list (InventoryLot num)) : nat := S (S (List.length queue)).

(** The entry of the "Handle overselling" branch. *)
Definition oversellEntry (trade : PolymarketTrade num) (proceedsPerToken remaining : num)
  : Form8949Entry num :=
  let proceeds := remaining * proceedsPerToken in
  Entry.mk (descriptionOf (Trade.outcome trade) (Trade.title trade))
           "VARIOUS"
           (formatDate (Trade.timestamp trade))
           (round proceeds) nzero (round proceeds) false 0%Z.

(** Returns the inventory as the call leaves it ([queue] is mutated in place
    when the key is present; a missing key stays missing), [newEntries] and
    [warning]. *)
Definition matchSellToBuys (inventory : Inventory) (key : string)
  (trade : PolymarketTrade num)
  : Inventory * list (Form8949Entry num) * option (Warning num) :=
  let queue := match Inv.get key inventory with Some q => q | None => [] end in
  let proceedsPerToken := Trade.usdcSize trade / Trade.size trade in
  let '(entries, remaining, queue') :=
    matchLoop (passes queue) trade proceedsPerToken (Trade.size trade) queue in
  let inventory' :=
    match Inv.get key inventory with
    | Some _ => Inv.set key queue' inventory
    | None => inventory
    end in
  if remaining >? epsilon then
    (inventory', entries ++ [oversellEntry trade proceedsPerToken remaining],
     Some (SoldMoreThanOwned remaining key))
  else (inventory', entries, None).

(** The state of the "Process trades using FIFO" loop of [generateTaxReport]. *)
Record Engine : Type := mkEngine {
  inventory : Inventory;
  entries : list (Form8949Entry num);
  warnings : list (Warning num)
}.

Definition processTrade (st : Engine) (trade : PolymarketTrade num) : Engine :=
  let key := positionKeyOf trade in
  match Trade.side trade with
  | BUY => mkEngine (addToInventory (inventory st) key trade) (entries st) (warnings st)
  | SELL =>
      let '(inventory', newEntries, warning) := matchSellToBuys (inventory st) key trade in
      mkEngine inventory' (entries st ++ newEntries)
               (match warning with
                | Some w => warnings st ++ [w]
                | None => warnings st
                end)
  end.

Definition processTrades (normalized : list (PolymarketTrade num)) : Engine :=
  fold_left processTrade normalized (mkEngine [] [] []).

(* ---- open positions and worthless write-offs ---- *)

Definition openPosition (key : string) (lots : list (InventoryLot num)) : OpenPosition num :=
  let parts := Str.split "-"%char key in
  Position.mk key (hd ""%string parts) (Str.join "-" (tl parts))
              (sumBy lots Lot.quantity) (sumBy lots Lot.totalCostBasis)
              lots
              (match lots with lot :: _ => Lot.marketTitle lot | [] => ""%string end).

Fixpoint collectOpenPositions (inventory : Inventory) : list (OpenPosition num) :=
  match inventory with
  | [] => []
  | (key, lots) :: r =>
      match lots with
      | [] => collectOpenPositions r
      | _ :: _ => openPosition key lots :: collectOpenPositions r
      end
  end.

Definition worthlessEntry (position : OpenPosition num) (taxYearEnd : Z)
  (lot : InventoryLot num) : Form8949Entry num :=
  let holdingDays := ((taxYearEnd - Lot.acquisitionDate lot) / 86400)%Z in
  Entry.mk (descriptionOf (Position.outcome position) (Position.title position))
           (formatDate (Lot.acquisitionDate lot))
           (formatDate taxYearEnd)
           nzero
           (round (Lot.quantity lot * Lot.costBasisPerToken lot))
           (- round (Lot.quantity lot * Lot.costBasisPerToken lot))
           (LONG_TERM_DAYS <=? holdingDays)%Z holdingDays.

(** [position.outcome.toUpperCase() !== winner.outcome.toUpperCase()] for the
    first token flagged as winner of a closed market; [false] when the market
    is absent from the map, not closed, or has no winner. *)
Definition isWorthless (marketMap : string -> option (MarketData num))
  (position : OpenPosition num) : bool :=
  match marketMap (Position.conditionId position) with
  | None => false
  | Some market =>
      if Market.closed market then
        match find (fun t => Token.winner t) (Market.tokens market) with
        | None => false
        | Some winner =>
            negb (String.eqb (Str.toUpperCase (Position.outcome position))
                             (Str.toUpperCase (Token.outcome winner)))
        end
      else false
  end.

Definition processWorthlessPositions (positions : list (OpenPosition num))
  (taxYearEnd : Z) : list (Form8949Entry num) :=
  let conditionIds := map Position.conditionId positions in
  let marketMap := fetchMarketsBatch conditionIds in
  flat_map (fun position =>
              if isWorthless marketMap position
              then map (worthlessEntry position taxYearEnd) (Position.lots position)
              else [])
           positions.

(* ---- summaries and the report ---- *)

Definition calculateSummary (entries : list (Form8949Entry num)) : Summary.t num :=
  Summary.mk (List.length entries)
             (round (sumBy entries Entry.proceeds))
             (round (sumBy entries Entry.costBasis))
             (round (sumBy entries Entry.gainLoss)).

(** [new Date(taxYear, 11, 31, 23, 59, 59).getTime() / 1000] *)
Definition taxYearEndOf (taxYear : Z) : Z := JsDate.localTime tz taxYear 11 31 23 59 59.

Definition generateTaxReport (trades : list (PolymarketTrade num)) (taxYear : Z)
  : TaxReport num :=
  let taxYearEnd := taxYearEndOf taxYear in
  let normalized := sortByTimestamp (normalizeAll trades) in
  let st := processTrades normalized in
  let openPositions := collectOpenPositions (inventory st) in
  let worthlessEntries :=
    match openPositions with
    | [] => []
    | _ :: _ => processWorthlessPositions openPositions taxYearEnd
    end in
  let entries := entries st ++ worthlessEntries in
  let shortTerm := filter (fun e => negb (Entry.isLongTerm e)) entries in
  let longTerm := filter (fun e => Entry.isLongTerm e) entries in
  Report.mk shortTerm longTerm
            (calculateSummary shortTerm) (calculateSummary longTerm)
            (List.length entries)
            (round (sumBy entries Entry.gainLoss))
            (warnings st)
            openPositions.

End Calculator.

(** What the termination of the matching loop rests on, for a predicate [nan]
    picking out the not-a-number values: [Math.min] returns one of its
    arguments or a nan; a nan operand makes [Math.min] and [-] return a nan;
    a nan is not above epsilon; and [a - a] is never above epsilon, and is
    below it unless it is a nan. *)
Class LoopLaws {num : Type} (N : Number num) (nan : num -> Prop) : Prop := {
  min_cases : forall a b,
    Math_min a b = a \/ Math_min a b = b \/ nan (Math_min a b);
  min_nan_r : forall a b, nan b -> nan (Math_min a b);
  sub_nan_r : forall a b, nan b -> nan (a - b)%num;
  nan_not_above : forall a, nan a -> (a >? epsilon)%num = false;
  sub_diag_not_above : forall a, ((a - a) >? epsilon)%num = false;
  sub_diag_below : forall a, ((a - a) <? epsilon)%num = true \/ nan (a - a)%num
}.

(* ===================================================================== *)
(** ** The vocabulary of the properties *)
(* ===================================================================== *)

(** The amounts of an entry, the date sold and the holding period. *)
Definition disposal {num : Type} (e : Form8949Entry num)
  : num * num * num * string * Z * bool :=
  (Entry.proceeds e, Entry.costBasis e, Entry.gainLoss e, Entry.dateSold e,
   Entry.holdingDays e, Entry.isLongTerm e).


(** The three amounts of an entry. *)
Definition amounts {num : Type} (e : Form8949Entry num) : num * num * num :=
  (Entry.proceeds e, Entry.costBasis e, Entry.gainLoss e).

Definition queueOf {num : Type} (inventory : list (string * list (InventoryLot num)))
  (key : string) : list (InventoryLot num) :=
  match Inv.get key inventory with Some q => q | None => [] end.

Section Vocabulary.

Context {num : Type} {N : Number num}.
Variable tz : Z.
Variable fetchMarketsBatch : list string -> string -> option (MarketData num).

#[local] Open Scope num_scope.

(** The state after one pass on [lot :: rest] with [remaining = r]. *)
Definition qtyOf (r : num) (lot : InventoryLot num) : num :=
  Math_min r (Lot.quantity lot).

Definition lotAfter (r : num) (lot : InventoryLot num) : InventoryLot num :=
  Lot.set_quantity (Lot.quantity lot - qtyOf r lot) lot.

Definition queueAfter (r : num) (lot : InventoryLot num)
  (rest : list (InventoryLot num)) : list (InventoryLot num) :=
  if Lot.quantity (lotAfter r lot) <? epsilon then rest else lotAfter r lot :: rest.

(** The loop as [matchSellToBuys] runs it. *)
Definition runLoop (trade : PolymarketTrade num) (ppt r : num)
  (q : list (InventoryLot num)) :=
  matchLoop tz (passes q) trade ppt r q.

(** How an entry's amounts were computed: by a FIFO match of [qty] units sold
    at [ppt] against a lot of unit cost [cpt]; by the oversell branch for [r]
    unmatched units; or by the write-off of a lot with [q] units left. *)
Inductive EntryKind (e : Form8949Entry num) : Prop :=
| Matched (qty ppt cpt : num) :
    Entry.proceeds e = round (qty * ppt) ->
    Entry.costBasis e = round (qty * cpt) ->
    Entry.gainLoss e = round (qty * ppt - qty * cpt) ->
    EntryKind e
| Oversold (r ppt : num) :
    Entry.proceeds e = round (r * ppt) ->
    Entry.costBasis e = nzero ->
    Entry.gainLoss e = round (r * ppt) ->
    EntryKind e
| WrittenOff (q cpt : num) :
    Entry.proceeds e = nzero ->
    Entry.costBasis e = round (q * cpt) ->
    Entry.gainLoss e = - round (q * cpt) ->
    EntryKind e.

(** All entries of a report, in the order they were pushed. *)
Definition allEntries (trades : list (PolymarketTrade num)) (taxYear : Z)
  : list (Form8949Entry num) :=
  let st := processTrades tz (sortByTimestamp (normalizeAll trades)) in
  entries st ++
  processWorthlessPositions tz fetchMarketsBatch
    (collectOpenPositions (inventory st)) (taxYearEndOf tz taxYear).

Definition earlier (a b : PolymarketTrade num) : Prop :=
  Trade.timestamp a <= Trade.timestamp b.

(** The trades of one timestamp, in the order of the list. *)
Definition atTime (t : Z) (l : list (PolymarketTrade num)) : list (PolymarketTrade num) :=
  filter (fun x => Trade.timestamp x =? t) l.

(** Plain sum of a list of numbers. *)
Definition total (l : list num) : num := fold_right nadd nzero l.







(** The quantity open under [key]. *)
Definition openOn (key : string) (st : Engine) : num :=
  total (map Lot.quantity (queueOf (inventory st) key)).

End Vocabulary.

(** *** Sums on binary64 *)

(** The sum, from left to right, of the numbers of a list: what is [NaN] is
    left out. *)
Definition sumOfNumbers (l : list float) : float :=
  fold_left PrimFloat.add (filter (fun x => negb (is_nan x)) l) 0%float.

(** *** The runs the properties are tried on *)

Module Examples.

Definition noMarkets : list string -> string -> option (MarketData float) :=
  fun _ _ => None.

Definition buy (timestamp : Z) (conditionId outcome : string) (size usdcSize : float)
  : PolymarketTrade float :=
  Trade.mk timestamp TRADE BUY conditionId outcome size usdcSize 0%float
           "0xb" "Will it rain tomorrow?".

Definition sell (timestamp : Z) (conditionId outcome : string) (size usdcSize : float)
  : PolymarketTrade float :=
  Trade.mk timestamp TRADE SELL conditionId outcome size usdcSize 0%float
           "0xs" "Will it rain tomorrow?".

(** B1 (10 units at 1.0), B2 (10 units at 2.0), then a sell of 12 at 3.0. *)
Definition fifoTrades : list (PolymarketTrade float) :=
  [ buy 1700000000 "0xc1" "Yes" 10 10;
    buy 1700086400 "0xc1" "Yes" 10 20;
    sell 1700172800 "0xc1" "Yes" 12 36 ].

(** The inventory after B1 and B2. *)
Definition fifoInventory : list (string * list (InventoryLot float)) :=
  [("0xc1-Yes"%string,
    [newLot (buy 1700000000 "0xc1" "Yes" 10 10);
     newLot (buy 1700086400 "0xc1" "Yes" 10 20)])].

(** A long-term gain of 0.20 and a short-term gain of 0.10. *)
Definition twoGains : list (PolymarketTrade float) :=
  [ buy 1600000000 "0xc1" "Yes" 1 1; sell 1634560000 "0xc1" "Yes" 1 1.2;
    buy 1634560001 "0xc2" "No" 1 1; sell 1634646401 "0xc2" "No" 1 1.1 ].

(** Market 0xc1 is closed and "No" won; nothing is known of other markets. *)
Definition resolved : list string -> string -> option (MarketData float) :=
  fun _ conditionId =>
    if String.eqb conditionId "0xc1"
    then Some (Market.mk "Will it rain tomorrow?" true "0xc1"
                 [Token.mk "Yes" false 0%float; Token.mk "No" true 1%float])
    else None.

(** Three open positions of 1 unit bought for 0.125: the losing side and the
    winning side of 0xc1, and one in the unresolved market 0xc2. *)
Definition threePositions : list (PolymarketTrade float) :=
  [ buy 1600000000 "0xc1" "yes" 1 0.125;
    buy 1600000000 "0xc1" "NO" 1 0.125;
    buy 1600000000 "0xc2" "NO" 1 0.125 ].

(** Two buys of one timestamp at different prices, then a sell. *)
Definition cheapFirst : list (PolymarketTrade float) :=
  [ buy 1700000000 "0xc1" "Yes" 10 10;
    buy 1700000000 "0xc1" "Yes" 10 20;
    sell 1700172800 "0xc1" "Yes" 12 36 ].

Definition dearFirst : list (PolymarketTrade float) :=
  [ buy 1700000000 "0xc1" "Yes" 10 20;
    buy 1700000000 "0xc1" "Yes" 10 10;
    sell 1700172800 "0xc1" "Yes" 12 36 ].


(** A BUY of no units for nothing, then a SELL of 1 unit for 1. *)
Definition zeroThenSell : list (PolymarketTrade float) :=
  [ buy 1600000000 "0xc1" "Yes" 0 0; sell 1600000001 "0xc1" "Yes" 1 1 ].

(** 1 unit bought for 41587329086265.055 and sold for nothing. *)
Definition hugeLoss : list (PolymarketTrade float) :=
  [ buy 1600000000 "0xc1" "Yes" 1 41587329086265.055;
    sell 1600000001 "0xc1" "Yes" 1 0 ].


(** Two positions with one key: ("a-b", "c") and ("a", "b-c"). *)
Definition collidingBuys : list (PolymarketTrade float) :=
  [ buy 1600000000 "a-b" "c" 1 1; buy 1600000001 "a" "b-c" 2 1 ].

End Examples.

(* ===================================================================== *)
(** ** More vocabulary of the calculator *)
(* ===================================================================== *)

(** The entries whose acquisition date is the "VARIOUS" sentinel. *)
Definition isVarious {num : Type} (e : Form8949Entry num) : bool :=
  String.eqb (Entry.dateAcquired e) "VARIOUS".

(** Lots in acquisition order, oldest first. *)
Definition oldestFirst {num : Type} (queue : list (InventoryLot num)) : Prop :=
  StronglySorted (fun a b => Lot.acquisitionDate a <= Lot.acquisitionDate b) queue.

(** The trades on one position key. *)
Definition onKey {num : Type} (key : string) (trade : PolymarketTrade num) : bool :=
  String.eqb (positionKeyOf trade) key.

Section EngineVocabulary.

Context {num : Type} {N : Number num}.
Variable tz : Z.

#[local] Open Scope num_scope.

(** The queue of a key after one trade, from the queue before it. *)
Definition queueStep (q : list (InventoryLot num)) (trade : PolymarketTrade num)
  : list (InventoryLot num) :=
  match Trade.side trade with
  | BUY => q ++ [newLot trade]
  | SELL => snd (runLoop tz trade (Trade.usdcSize trade / Trade.size trade)
                   (Trade.size trade) q)
  end.

(** The invariant of a run on trades in time order whose timestamps are at
    most [B]: all lots were acquired by [B] and by the trades still to come,
    every queue is oldest first, and no entry has a negative holding period. *)
Definition inOrder (B : Z) (st : @Engine num) (rest : list (PolymarketTrade num)) : Prop :=
  (forall key, Forall (fun lot => Lot.acquisitionDate lot <= B /\
                                  Forall (fun t => Lot.acquisitionDate lot <= Trade.timestamp t) rest)
                      (queueOf (inventory st) key)) /\
  (forall key, oldestFirst (queueOf (inventory st) key)) /\
  Forall (fun e => 0 <= Entry.holdingDays e) (entries st).

End EngineVocabulary.

(** Two trades that differ at most in [price] and, for a REDEEM, in [side]
    and [usdcSize]. *)
Definition sameButUnread {num : Type} (a b : PolymarketTrade num) : Prop :=
  Trade.timestamp a = Trade.timestamp b /\
  Trade.type a = Trade.type b /\
  Trade.conditionId a = Trade.conditionId b /\
  Trade.outcome a = Trade.outcome b /\
  Trade.size a = Trade.size b /\
  Trade.transactionHash a = Trade.transactionHash b /\
  Trade.title a = Trade.title b /\
  (Trade.type a = TRADE ->
   Trade.side a = Trade.side b /\ Trade.usdcSize a = Trade.usdcSize b).

(** A trade with its [price] blanked. *)
Definition withoutPrice {num : Type} {N : Number num} (t : PolymarketTrade num)
  : PolymarketTrade num :=
  Trade.mk (Trade.timestamp t) (Trade.type t) (Trade.side t) (Trade.conditionId t)
           (Trade.outcome t) (Trade.size t) (Trade.usdcSize t) nzero
           (Trade.transactionHash t) (Trade.title t).

(** A decimal digit, and a text of digits. *)
Definition isDigit (c : ascii) : bool :=
  let n := nat_of_ascii c in (Nat.leb 48 n && Nat.leb n 57)%bool.

Fixpoint allDigits (s : string) : bool :=
  match s with
  | EmptyString => true
  | String c r => (isDigit c && allDigits r)%bool
  end.

(* ===================================================================== *)
(** ** The wallet address (api.ts, compiled as api.js in src/dist/pdf.d.ts) *)
(* ===================================================================== *)

Module Wallet.

Definition lower_ascii (c : ascii) : ascii :=
  let n := nat_of_ascii c in
  if (Nat.leb 65 n && Nat.leb n 90)%bool then ascii_of_nat (n + 32) else c.

(** [s.toLowerCase()] *)
Fixpoint toLowerCase (s : string) : string :=
  match s with
  | EmptyString => EmptyString
  | String c r => String (lower_ascii c) (toLowerCase r)
  end.

(** The class [[a-fA-F0-9]] *)
Definition isHex (c : ascii) : bool :=
  let n := nat_of_ascii c in
  ((Nat.leb 48 n && Nat.leb n 57) || (Nat.leb 97 n && Nat.leb n 102)
   || (Nat.leb 65 n && Nat.leb n 70))%bool.

Fixpoint allHex (s : string) : bool :=
  match s with
  | EmptyString => true
  | String c r => (isHex c && allHex r)%bool
  end.

(** [/^0x[a-fA-F0-9]{40}$/.test(address.trim())] *)
Definition isValidWalletAddress (address : string) : bool :=
  match Str.trim address with
  | String "0" (String "x" digits) =>
      (Nat.eqb (String.length digits) 40 && allHex digits)%bool
  | _ => false
  end.

(** A literal matched without regard to case at the head of [s]: what
    follows it. *)
Fixpoint afterLiteral (literal s : string) : option string :=
  match literal, s with
  | EmptyString, _ => Some s
  | String a l, String b r =>
      if Ascii.eqb (Str.upper_ascii a) (Str.upper_ascii b) then afterLiteral l r else None
  | String _ _, EmptyString => None
  end.

(** [/polymarket\.com\/profile\/(0x[a-fA-F0-9]{40})/i] tried at the head of
    [s]: the text of group 1 when it matches there. *)
Definition profileAt (s : string) : option string :=
  match afterLiteral "polymarket.com/profile/0x" s with
  | Some rest =>
      let digits := substring 0 40 rest in
      if (Nat.eqb (String.length digits) 40 && allHex digits)%bool
      then Some (substring 23 42 s)
      else None
  | None => None
  end.

(** [s.match(...)]: the leftmost position where the pattern matches. *)
Fixpoint matchProfile (s : string) : option string :=
  match profileAt s with
  | Some group => Some group
  | None =>
      match s with
      | EmptyString => None
      | String _ r => matchProfile r
      end
  end.

Definition extractWalletAddress (input : string) : option string :=
  let trimmed := Str.trim input in
  if isValidWalletAddress trimmed then Some (toLowerCase trimmed)
  else
    match matchProfile trimmed with
    | Some group =>
        if isValidWalletAddress group then Some (toLowerCase group) else None
    | None => None
    end.

(** "0x" and forty of [0-9a-f]. *)
Definition isLowerHex (c : ascii) : bool :=
  let n := nat_of_ascii c in
  ((Nat.leb 48 n && Nat.leb n 57) || (Nat.leb 97 n && Nat.leb n 102))%bool.

Fixpoint allLowerHex (s : string) : bool :=
  match s with
  | EmptyString => true
  | String c r => (isLowerHex c && allLowerHex r)%bool
  end.

Definition isLowerAddress (w : string) : Prop :=
  exists digits, w = String "0" (String "x" digits) /\
                 String.length digits = 40%nat /\ allLowerHex digits = true.

End Wallet.

(* ===================================================================== *)
(** ** Market data (api.ts, compiled as api.js in src/dist/pdf.d.ts) *)
(* ===================================================================== *)

Module Api.

(** [array.slice(start, stop)] for indices within [0, 2^53) *)
Definition slice {A : Type} (start stop : nat) (l : list A) : list A :=
  firstn (stop - start) (skipn start l).

(** [[...new Set(ids)]]: the distinct ids, in the order of first occurrence. *)
Fixpoint uniqueOf (seen ids : list string) : list string :=
  match ids with
  | [] => []
  | id :: r =>
      if existsb (String.eqb id) seen then uniqueOf seen r
      else id :: uniqueOf (id :: seen) r
  end.

Definition unique (ids : list string) : list string := uniqueOf [] ids.

(** What the loop of [fetchMarketsBatch] does besides filling the map:
    one [Promise.all] of [fetchMarket] calls per batch, and the sleeps. *)
Inductive Event : Type :=
| Fetched (batch : list string)
| Slept (ms : Z).

Section Markets.

Context {num : Type}.

(** What [await fetchMarket(conditionId)] resolves to: the market, or [null]
    when the response is not ok or the request fails. *)
Variable fetchMarket : string -> option (MarketData num).

Definition batchSize : nat := 5.

(** [batch.forEach((id, idx) => { if (results[idx]) marketMap.set(id, results[idx]) })] *)
Definition storeResults (marketMap : list (string * MarketData num))
  (batch : list string) (results : list (option (MarketData num)))
  : list (string * MarketData num) :=
  fold_left (fun m (r : string * option (MarketData num)) =>
               match snd r with
               | Some market => Inv.set (fst r) market m
               | None => m
               end)
            (combine batch results) marketMap.

(** [for (let i = 0; i < unique.length; i += batchSize) { ... }]; [fuel]
    bounds the number of passes. *)
Fixpoint batchLoop (fuel i : nat) (unique : list string)
  (marketMap : list (string * MarketData num)) (log : list Event)
  : list (string * MarketData num) * list Event :=
  match fuel with
  | O => (marketMap, log)
  | S fuel' =>
      if Nat.ltb i (List.length unique) then
        let batch := slice i (i + batchSize) unique in
        let results := map fetchMarket batch in
        let marketMap' := storeResults marketMap batch results in
        let log' := log ++ [Fetched batch] in
        let log'' :=
          if Nat.ltb (i + batchSize) (List.length unique) then log' ++ [Slept 500] else log' in
        batchLoop fuel' (i + batchSize) unique marketMap' log''
      else (marketMap, log)
  end.

(** The map [fetchMarketsBatch] resolves to, and what it did on the way. *)
Definition fetchMarketsBatch (conditionIds : list string)
  : list (string * MarketData num) * list Event :=
  let unique := unique conditionIds in
  batchLoop (S (List.length unique)) 0 unique [] [].

(** [marketMap.get(conditionId)] on the map [fetchMarketsBatch] resolves to. *)
Definition marketsOf (conditionIds : list string) (conditionId : string)
  : option (MarketData num) :=
  Inv.get conditionId (fst (fetchMarketsBatch conditionIds)).

(** [t.type === 'REDEEM' && !t.outcome] *)
Definition lacksOutcome (t : PolymarketTrade num) : bool :=
  match Trade.type t with
  | REDEEM => String.eqb (Trade.outcome t) ""
  | TRADE => false
  end.

(** [trade.outcome = outcome] *)
Definition set_outcome (outcome : string) (t : PolymarketTrade num) : PolymarketTrade num :=
  Trade.mk (Trade.timestamp t) (Trade.type t) (Trade.side t) (Trade.conditionId t)
           outcome (Trade.size t) (Trade.usdcSize t) (Trade.price t)
           (Trade.transactionHash t) (Trade.title t).

(** The body of the loop of [enrichRedeemOutcomes], for a map read through
    [marketMap]. *)
Definition enrichTrade (marketMap : string -> option (MarketData num))
  (trade : PolymarketTrade num) : PolymarketTrade num :=
  if lacksOutcome trade then
    match marketMap (Trade.conditionId trade) with
    | Some market =>
        match find (fun t => Token.winner t) (Market.tokens market) with
        | Some winner => set_outcome (Token.outcome winner) trade
        | None => trade
        end
    | None => trade
    end
  else trade.

Definition enrichRedeemOutcomes (trades : list (PolymarketTrade num))
  : list (PolymarketTrade num) :=
  let redeems := filter lacksOutcome trades in
  match redeems with
  | [] => trades
  | _ :: _ =>
      let conditionIds := unique (map Trade.conditionId redeems) in
      let marketMap := fst (fetchMarketsBatch conditionIds) in
      map (enrichTrade (fun conditionId => Inv.get conditionId marketMap)) trades
  end.

End Markets.

(** The batches of a log, and a log with a sleep between its batches. *)
Definition batchesOf (log : list Event) : list (list string) :=
  flat_map (fun e => match e with Fetched batch => [batch] | Slept _ => [] end) log.

Fixpoint sleepBetween (batches : list (list string)) : list Event :=
  match batches with
  | [] => []
  | [batch] => [Fetched batch]
  | batch :: rest => Fetched batch :: Slept 500 :: sleepBetween rest
  end.

End Api.

(* ===================================================================== *)
(** ** The trading history (api.ts, compiled as api.js in src/dist/pdf.d.ts) *)
(* ===================================================================== *)

Module History.

(** What one request resolves to: a response that is not ok, with its
    status, or the array found in the body (the body itself, its
    [activities], its [data], or the empty array).  A request that is
    rejected, or a body that is not JSON, ends the function with that
    exception and is left out. *)
Inductive Response (A : Type) : Type :=
| NotOk (status : Z)
| Json (batch : list A).
Arguments NotOk {A}.
Arguments Json {A}.

(** How the loop of [fetchTradingHistory] ends. *)
Inductive Outcome (A : Type) : Type :=
| Threw (status : Z)
| Collected (allTrades : list A)
| Running.
Arguments Threw {A}.
Arguments Collected {A}.
Arguments Running {A}.

Section Pages.

Context {A : Type}.

(** [item.type] *)
Variable typeOf : A -> string.

(** The response to the request with the given [offset]; the other
    parameters are the same in every request. *)
Variable fetch : Z -> Response A.

Definition limit : Z := 500.

(** [item.type === 'TRADE' || item.type === 'REDEEM'] *)
Definition isTradeOrRedeem (item : A) : bool :=
  (String.eqb (typeOf item) "TRADE" || String.eqb (typeOf item) "REDEEM")%bool.

(** [while (true) { ... }]: the outcome and the offsets asked for, in order;
    [fuel] bounds the number of passes. *)
Fixpoint pageLoop (fuel : nat) (offset : Z) (allTrades : list A) (asked : list Z)
  : Outcome A * list Z :=
  match fuel with
  | O => (Running, asked)
  | S fuel' =>
      let asked' := asked ++ [offset] in
      match fetch offset with
      | NotOk status => (Threw status, asked')
      | Json batch =>
          let allTrades' := allTrades ++ filter isTradeOrRedeem batch in
          if Z.of_nat (List.length batch) <? limit then (Collected allTrades', asked')
          else
            let offset' := offset + limit in
            if 50000 <? offset' then (Collected allTrades', asked')
            else pageLoop fuel' offset' allTrades' asked'
      end
  end.

(** The trades collected before [enrichRedeemOutcomes] is called. *)
Definition collectTrades : Outcome A * list Z := pageLoop 101 0 [] [].

(** The array of a response, empty for one that is not ok. *)
Definition batchOf (r : Response A) : list A :=
  match r with
  | Json batch => batch
  | NotOk _ => []
  end.

(** The offset of the page [k], counted from 0. *)
Definition offsetOf (k : nat) : Z := limit * Z.of_nat k.

(** A response with a full page. *)
Definition isFull (r : Response A) : Prop :=
  match r with
  | Json batch => limit <= Z.of_nat (List.length batch)
  | NotOk _ => False
  end.

End Pages.

End History.

(* ===================================================================== *)
(** ** The forms (src/src/pdf.ts) *)
(* ===================================================================== *)

Module Pdf.

(** IRS Form 8949 holds 14 transactions per page. *)
Definition TRANSACTIONS_PER_PAGE : nat := 14.

(** [num.toString().padStart(2, '0')] *)
Definition pad (n : Z) : string := Str.padStart2 (Str.ofZ n).

(** The [truncate] of pdf.ts: a plain cut, three characters short of
    [maxLen], and an ellipsis. *)
Definition truncate (str : string) (maxLen : nat) : string :=
  if (String.eqb str "" || Nat.leb (String.length str) maxLen)%bool then str
  else (substring 0 (maxLen - 3) str ++ "...")%string.

(** [Math.ceil(n / TRANSACTIONS_PER_PAGE)] *)
Definition pageCount (n : nat) : nat :=
  ((n + (TRANSACTIONS_PER_PAGE - 1)) / TRANSACTIONS_PER_PAGE)%nat.

(** [entries.slice(start, end)] of page [pageIdx] *)
Definition pageEntries {A : Type} (entries : list A) (pageIdx : nat) : list A :=
  let start := (pageIdx * TRANSACTIONS_PER_PAGE)%nat in
  let stop := Nat.min (start + TRANSACTIONS_PER_PAGE) (List.length entries) in
  Api.slice start stop entries.

(** What is asked of the pdf-lib form and document, in order; a template
    that has every field asked for. *)
Inductive Call : Type :=
| Check (field : string)
| SetText (field text : string)
| CopyPage (pageNum : nat).

(** One [page.drawText(text, { x, y, size, font })] on page [page] of the
    statement. *)
Record Draw : Type := mkDraw {
  page : nat;
  text : string;
  x : Z;
  y : Z;
  size : Z
}.

Section Forms.

Context {num : Type}.

(** [value.toFixed(2)] *)
Variable toFixed2 : num -> string.

Definition formatCurrency (value : num) : string := toFixed2 value.

Definition ofNat (n : nat) : string := Str.ofZ (Z.of_nat n).

(** The six fields of row [i + 1]. *)
Definition rowCalls (pageNum : nat) (partName fieldPrefix : string) (i : nat)
  (entry : Form8949Entry num) : list Call :=
  let row := (i + 1)%nat in
  let baseIdx := (Z.of_nat row - 1) * 8 + 3 in
  let field (idx : Z) : string :=
    ("topmostSubform[0].Page" ++ ofNat (pageNum + 1) ++ "[0].Table_Line1_" ++ partName
     ++ "[0].Row" ++ ofNat row ++ "[0]." ++ fieldPrefix ++ "_" ++ pad idx ++ "[0]")%string in
  [ SetText (field baseIdx) (truncate (Entry.description entry) 100);
    SetText (field (baseIdx + 1)) (Entry.dateAcquired entry);
    SetText (field (baseIdx + 2)) (Entry.dateSold entry);
    SetText (field (baseIdx + 3)) (formatCurrency (Entry.proceeds entry));
    SetText (field (baseIdx + 4)) (formatCurrency (Entry.costBasis entry));
    SetText (field (baseIdx + 7)) (formatCurrency (Entry.gainLoss entry)) ].

(** [for (let i = 0; i < pageEntries.length; i++)] *)
Fixpoint rowsFrom (pageNum : nat) (partName fieldPrefix : string) (i : nat)
  (pageEntries : list (Form8949Entry num)) : list Call :=
  match pageEntries with
  | [] => []
  | entry :: rest =>
      rowCalls pageNum partName fieldPrefix i entry
      ++ rowsFrom pageNum partName fieldPrefix (S i) rest
  end.

Definition totalCalls (pageNum : nat) (fieldPrefix : string) (summary : Summary.t num)
  : list Call :=
  let field (idx : string) : string :=
    ("topmostSubform[0].Page" ++ ofNat (pageNum + 1) ++ "[0]." ++ fieldPrefix ++ "_" ++ idx
     ++ "[0]")%string in
  [ SetText (field "91"%string) (formatCurrency (Summary.totalProceeds summary));
    SetText (field "92"%string) (formatCurrency (Summary.totalCostBasis summary));
    SetText (field "94"%string) (formatCurrency (Summary.totalGainLoss summary)) ].

(** One pass of the loop over the pages of [fillDetailedPart]. *)
Definition pageCalls (entries : list (Form8949Entry num)) (summary : Summary.t num)
  (partName fieldPrefix checkboxName : string) (pageNum pages pageIdx : nat) : list Call :=
  (if Nat.eqb pageIdx 0
   then [Check ("topmostSubform[0].Page" ++ ofNat (pageNum + 1) ++ "[0]." ++ checkboxName
                ++ "[0]")%string]
   else [])
  ++ rowsFrom pageNum partName fieldPrefix 0 (pageEntries entries pageIdx)
  ++ (if Nat.eqb pageIdx (pages - 1) then totalCalls pageNum fieldPrefix summary else [])
  ++ (if Nat.ltb pageIdx (pages - 1) then [CopyPage pageNum] else []).

(** The calls of [fillDetailedPart], page by page. *)
Definition fillDetailedPart (entries : list (Form8949Entry num)) (summary : Summary.t num)
  (partName fieldPrefix checkboxName : string) : list (list Call) :=
  let pageNum := if String.eqb partName "Part1" then 0%nat else 1%nat in
  let pages := pageCount (List.length entries) in
  map (pageCalls entries summary partName fieldPrefix checkboxName pageNum pages)
      (seq 0 pages).

(** The calls of [generateDetailedMode] between loading the template and
    flattening the form, and the name of the file. *)
Definition generateDetailedMode (report : TaxReport num) (taxYear : Z)
  : list (list Call) * string :=
  ((match Report.shortTerm report with
    | [] => []
    | _ :: _ => fillDetailedPart (Report.shortTerm report) (Report.shortTermSummary report)
                                 "Part1" "f1" "c1_1"
    end)
   ++
   (match Report.longTerm report with
    | [] => []
    | _ :: _ => fillDetailedPart (Report.longTerm report) (Report.longTermSummary report)
                                 "Part2" "f2" "c2_1"
    end),
   ("Form_8949_" ++ Str.ofZ taxYear ++ "_Detailed.pdf")%string).

(** The line of one entry of the statement. *)
Definition lineOf (entry : Form8949Entry num) : string :=
  (Entry.description entry ++ " | " ++ Entry.dateAcquired entry ++ " to "
   ++ Entry.dateSold entry ++ " | Gain/Loss: $" ++ toFixed2 (Entry.gainLoss entry))%string.

Definition margin : Z := 50.

(** The body of [for (const entry of ...)] in [generateStatement]: the page
    index, [y] and the lines drawn so far. *)
Definition drawLine (st : nat * Z * list Draw) (entry : Form8949Entry num)
  : nat * Z * list Draw :=
  let '(page, y, draws) := st in
  let '(page, y) := if y <? 50 then (S page, 750) else (page, y) in
  (page, y - 15, draws ++ [mkDraw page (lineOf entry) margin y 8]).

(** The lines [generateStatement] draws. *)
Definition generateStatement (report : TaxReport num) (taxYear : Z) : list Draw :=
  let page := 0%nat in
  let y := 750 in
  let draws := [mkDraw page "Polymarket Tax Statement" margin y 16] in
  let y := y - 30 in
  let draws := draws ++ [mkDraw page ("Tax Year: " ++ Str.ofZ taxYear) margin y 12] in
  let y := y - 40 in
  let '(page, y, draws) :=
    match Report.shortTerm report with
    | [] => (page, y, draws)
    | _ :: _ =>
        let draws := draws ++ [mkDraw page "Part I - Short-Term Capital Gains" margin y 14] in
        let y := y - 20 in
        let '(page, y, draws) := fold_left drawLine (Report.shortTerm report) (page, y, draws) in
        (page, y - 20, draws)
    end in
  match Report.longTerm report with
  | [] => draws
  | _ :: _ =>
      let '(page, y) := if y <? 200 then (S page, 750) else (page, y) in
      let draws := draws ++ [mkDraw page "Part II - Long-Term Capital Gains" margin y 14] in
      let y := y - 20 in
      let '(_, _, draws) := fold_left drawLine (Report.longTerm report) (page, y, draws) in
      draws
  end.

End Forms.

(** Two lines that follow each other: lower on the same page by a line's
    height at least, or at the top of the next page. *)
Definition follows (a b : Draw) : Prop :=
  (page b = page a /\ y b <= y a - 15) \/ (page b = S (page a) /\ y b = 750).

(** Each line of a list follows the one before it. *)
Fixpoint inSequence (draws : list Draw) : Prop :=
  match draws with
  | [] => True
  | a :: rest =>
      match rest with
      | [] => True
      | b :: _ => follows a b /\ inSequence rest
      end
  end.

(** The kinds of call. *)
Definition isCheck (c : Call) : bool :=
  match c with Check _ => true | _ => false end.

Definition isSetText (c : Call) : bool :=
  match c with SetText _ _ => true | _ => false end.

Definition isCopyPage (c : Call) : bool :=
  match c with CopyPage _ => true | _ => false end.

(** The names of the text fields that calls set, in order. *)
Definition setFields (calls : list Call) : list string :=
  flat_map (fun c => match c with SetText field _ => [field] | _ => [] end) calls.

(** A state of [generateStatement]: the lines drawn so far are within the
    margins and in sequence, the last of them is [final], on the current
    page, and [y] is a line's height below it at least. *)
Definition laidOut (st : nat * Z * list Draw) (final : Draw) : Prop :=
  let '(page0, y0, draws) := st in
  Forall (fun d => 50 <= y d <= 750 /\ x d = 50) draws /\
  inSequence draws /\
  (exists before, draws = before ++ [final]) /\
  page final = page0 /\
  y0 <= y final - 15.

End Pdf.

(* ===================================================================== *)
(** ** The CSV statement (the later pdf.ts, in src/src/main.ts and src/dist/pdf.js) *)
(* ===================================================================== *)

Module Csv.

Definition comma : ascii := ","%char.
Definition quote : ascii := "034"%char.
Definition newline : ascii := "010"%char.

(** [field.replace] of every quote by two quotes *)
Fixpoint doubleQuotes (field : string) : string :=
  match field with
  | EmptyString => EmptyString
  | String c r =>
      if Ascii.eqb c quote then String quote (String quote (doubleQuotes r))
      else String c (doubleQuotes r)
  end.

Definition escapeCsvField (field : string) : string :=
  if (Str.includes comma field || Str.includes quote field || Str.includes newline field)%bool
  then String quote (doubleQuotes field ++ String quote EmptyString)
  else field.

(** [rows.map(row => row.join(',')).join('\n')] *)
Definition render (rows : list (list string)) : string :=
  Str.join (String newline EmptyString) (map (Str.join (String comma EmptyString)) rows).

Section Statement.

Context {num : Type} {N : Number num}.

(** [value.toFixed(2)] *)
Variable toFixed2 : num -> string.

Definition headers : list string :=
  ["Type"; "Description"; "Date Acquired"; "Date Sold"; "Proceeds"; "Cost Basis";
   "Gain/Loss"; "Holding Days"; "Term"]%string.

(** The row pushed for one entry of the part [kind]. *)
Definition entryRow (kind : string) (entry : Form8949Entry num) : list string :=
  [ kind;
    escapeCsvField (Entry.description entry);
    Entry.dateAcquired entry;
    Entry.dateSold entry;
    toFixed2 (Entry.proceeds entry);
    toFixed2 (Entry.costBasis entry);
    toFixed2 (Entry.gainLoss entry);
    Str.ofZ (Entry.holdingDays entry);
    if Entry.isLongTerm entry then "Long-Term"%string else "Short-Term"%string ].

Definition totalRow (label : string) (count : nat) (proceeds costBasis gainLoss : num)
  : list string :=
  [ label; (Str.ofZ (Z.of_nat count) ++ " transactions")%string; ""%string; ""%string;
    toFixed2 proceeds; toFixed2 costBasis; toFixed2 gainLoss; ""%string; ""%string ].

(** The rows pushed after the entries. *)
Definition summaryRows (report : TaxReport num) : list (list string) :=
  [ [];
    ["SUMMARY"; ""; ""; ""; ""; ""; ""; ""; ""]%string;
    [];
    totalRow "Short-Term Total" (List.length (Report.shortTerm report))
             (Summary.totalProceeds (Report.shortTermSummary report))
             (Summary.totalCostBasis (Report.shortTermSummary report))
             (Summary.totalGainLoss (Report.shortTermSummary report));
    totalRow "Long-Term Total" (List.length (Report.longTerm report))
             (Summary.totalProceeds (Report.longTermSummary report))
             (Summary.totalCostBasis (Report.longTermSummary report))
             (Summary.totalGainLoss (Report.longTermSummary report));
    [];
    totalRow "GRAND TOTAL" (Report.totalTransactions report)
             (Summary.totalProceeds (Report.shortTermSummary report)
              + Summary.totalProceeds (Report.longTermSummary report))%num
             (Summary.totalCostBasis (Report.shortTermSummary report)
              + Summary.totalCostBasis (Report.longTermSummary report))%num
             (Report.totalGainLoss report) ].

Definition rowsOf (report : TaxReport num) : list (list string) :=
  [headers]
  ++ map (entryRow "Short-Term") (Report.shortTerm report)
  ++ map (entryRow "Long-Term") (Report.longTerm report)
  ++ summaryRows report.

(** The text of the blob [generateStatementCSV] returns. *)
Definition generateStatementCSV (report : TaxReport num) : string :=
  render (rowsOf report).

End Statement.

(** *** The way back from the text

    Not code of the repository: a function that undoes [render] on escaped
    fields, by which the text is shown to determine the rows.  It follows the
    writer, field by field: a record ends at a line feed and a field at a
    comma; a field that starts with a quote runs to the next quote that is not
    doubled, and a doubled quote in it is one quote.  Nothing is said of the
    readers of spreadsheets, nor of RFC 4180, whose records end in a carriage
    return and a line feed. *)

(** The rest of a quoted field, after its opening quote, and what follows
    the closing quote. *)
Fixpoint quotedField (s : string) : string * string :=
  match s with
  | EmptyString => (EmptyString, EmptyString)
  | String c r =>
      if Ascii.eqb c quote then
        match r with
        | String c' r' =>
            if Ascii.eqb c' quote
            then let '(field, rest) := quotedField r' in (String quote field, rest)
            else (EmptyString, r)
        | EmptyString => (EmptyString, EmptyString)
        end
      else let '(field, rest) := quotedField r in (String c field, rest)
  end.

(** A field without quotes, and what follows it (a comma, a line feed or
    nothing). *)
Fixpoint plainField (s : string) : string * string :=
  match s with
  | EmptyString => (EmptyString, EmptyString)
  | String c r =>
      if (Ascii.eqb c comma || Ascii.eqb c newline)%bool then (EmptyString, s)
      else let '(field, rest) := plainField r in (String c field, rest)
  end.

Definition readField (s : string) : string * string :=
  match s with
  | String c r => if Ascii.eqb c quote then quotedField r else plainField s
  | EmptyString => (EmptyString, EmptyString)
  end.

(** The records of [s], the first of them after the fields of [record]. *)
Fixpoint readRecords (fuel : nat) (s : string) (record : list string)
  : list (list string) :=
  match fuel with
  | O => []
  | S fuel' =>
      let '(field, rest) := readField s in
      match rest with
      | EmptyString => [record ++ [field]]
      | String c r =>
          if Ascii.eqb c comma then readRecords fuel' r (record ++ [field])
          else (record ++ [field]) :: readRecords fuel' r []
      end
  end.

(** Text without a comma, a quote or a line feed. *)
Definition isPlain (s : string) : bool :=
  negb (Str.includes comma s || Str.includes quote s || Str.includes newline s).

(** An empty row is written as an empty line, which reads as one empty
    field. *)
Definition asRead (row : list string) : list string :=
  match row with
  | [] => [EmptyString]
  | _ :: _ => row
  end.

(** What may follow a field: nothing, a comma or a line feed. *)
Definition endsField (rest : string) : Prop :=
  rest = EmptyString \/ exists c r, rest = String c r /\ (c = comma \/ c = newline).

Section RawRows.

Context {num : Type} {N : Number num}.
Variable toFixed2 : num -> string.

(** The fields of an entry's row before escaping. *)
Definition rawRow (kind : string) (entry : Form8949Entry num) : list string :=
  [ kind;
    Entry.description entry;
    Entry.dateAcquired entry;
    Entry.dateSold entry;
    toFixed2 (Entry.proceeds entry);
    toFixed2 (Entry.costBasis entry);
    toFixed2 (Entry.gainLoss entry);
    Str.ofZ (Entry.holdingDays entry);
    if Entry.isLongTerm entry then "Long-Term"%string else "Short-Term"%string ].

(** The rows of the statement before escaping. *)
Definition rawRows (report : TaxReport num) : list (list string) :=
  [headers]
  ++ map (rawRow "Short-Term") (Report.shortTerm report)
  ++ map (rawRow "Long-Term") (Report.longTerm report)
  ++ summaryRows toFixed2 report.

End RawRows.

End Csv.

(* ===================================================================== *)
(** * Properties *)
(* ===================================================================== *)

(** ** binary64 satisfies the loop laws *)

Module FloatFacts.

Lemma SFeqb_refl v : v <> S754_nan -> SFeqb v v = true.
Proof.
  destruct v as [s| s | |s m e]; intros Hv; try congruence; unfold SFeqb; simpl.
  - reflexivity.
  - destruct s; reflexivity.
  - destruct s; rewrite Z.compare_refl, Pos.compare_cont_refl; reflexivity.
Qed.

Lemma is_nan_Prim2SF x : is_nan x = true <-> Prim2SF x = S754_nan.
Proof.
  unfold is_nan. rewrite FloatAxioms.eqb_spec. split.
  - intros Hn. destruct (Prim2SF x) eqn:E; try reflexivity;
      rewrite SFeqb_refl in Hn by discriminate; discriminate.
  - intros ->. reflexivity.
Qed.

Lemma Prim2SF_epsilon :
  Prim2SF 0.0001%float = S754_finite false 7378697629483821 (-66).
Proof. vm_compute. reflexivity. Qed.

Lemma SFsub_diag v : SF64sub v v = S754_zero false \/ SF64sub v v = S754_nan.
Proof.
  destruct v as [s| s | |s m e]; simpl.
  - left. destruct s; reflexivity.
  - right. destruct s; reflexivity.
  - right; reflexivity.
  - left. unfold SF64sub, SFsub. rewrite Z.sub_diag. reflexivity.
Qed.

Lemma sub_nan a b : is_nan b = true -> is_nan (a - b)%float = true.
Proof.
  rewrite !is_nan_Prim2SF, FloatAxioms.sub_spec. intros ->.
  destruct (Prim2SF a); reflexivity.
Qed.

Lemma nan_not_gt a : is_nan a = true -> (0.0001 <? a)%float = false.
Proof.
  rewrite is_nan_Prim2SF, FloatAxioms.ltb_spec. intros ->. rewrite Prim2SF_epsilon. reflexivity.
Qed.

Lemma sub_diag a :
  (0.0001 <? a - a)%float = false /\
  ((a - a <? 0.0001)%float = true \/ is_nan (a - a)%float = true).
Proof.
  rewrite is_nan_Prim2SF, !FloatAxioms.ltb_spec, FloatAxioms.sub_spec, Prim2SF_epsilon.
  destruct (SFsub_diag (Prim2SF a)) as [-> | ->]; split; auto.
Qed.

Lemma min_cases a b :
  Js.min a b = a \/ Js.min a b = b \/ is_nan (Js.min a b) = true.
Proof.
  unfold Js.min.
  destruct (is_nan a || is_nan b); [right; right; reflexivity|].
  destruct (a <? b)%float; [left; reflexivity|].
  destruct (b <? a)%float; [right; left; reflexivity|].
  destruct (get_sign a); auto.
Qed.

Lemma min_nan a b : is_nan b = true -> is_nan (Js.min a b) = true.
Proof.
  intros Hb. unfold Js.min. rewrite Hb, orb_true_r. reflexivity.
Qed.

End FloatFacts.

#[export] Instance binary64_laws : LoopLaws binary64 (fun x => is_nan x = true).
Proof.
  constructor; simpl.
  - apply FloatFacts.min_cases.
  - apply FloatFacts.min_nan.
  - apply FloatFacts.sub_nan.
  - apply FloatFacts.nan_not_gt.
  - intros a. apply FloatFacts.sub_diag.
  - intros a. apply FloatFacts.sub_diag.
Qed.

(* ===================================================================== *)
(** ** The matching loop runs to its exit test *)
(* ===================================================================== *)

Section MatchLoop.

Context {num : Type} {N : Number num} {nan : num -> Prop} {L : LoopLaws N nan}.
Variable tz : Z.
Variable trade : PolymarketTrade num.
Variable ppt : num.

#[local] Open Scope num_scope.

Lemma matchLoop_exit fuel r q :
  (r >? epsilon) = false -> matchLoop tz fuel trade ppt r q = ([], r, q).
Proof.
  intros Hr. destruct fuel; simpl; [reflexivity | rewrite Hr; reflexivity].
Qed.

Lemma matchLoop_pass fuel r lot rest :
  (r >? epsilon) = true ->
  matchLoop tz (S fuel) trade ppt r (lot :: rest) =
    let '(es, r2, q2) :=
      matchLoop tz fuel trade ppt (r - qtyOf r lot) (queueAfter r lot rest) in
    (matchEntry tz trade ppt lot (qtyOf r lot) :: es, r2, q2).
Proof.
  intros Hr. simpl. rewrite Hr. reflexivity.
Qed.

(** With a nan at the head of the queue one pass is the last. *)
Lemma matchLoop_nan_head fuel r lot rest :
  nan (Lot.quantity lot) ->
  matchLoop tz (S fuel) trade ppt r (lot :: rest) =
  matchLoop tz 1 trade ppt r (lot :: rest).
Proof.
  intros Hn. destruct (r >? epsilon) eqn:Hr.
  - rewrite !matchLoop_pass by assumption.
    assert (Hd : ((r - qtyOf r lot) >? epsilon) = false).
    { apply nan_not_above, sub_nan_r, min_nan_r, Hn. }
    rewrite !matchLoop_exit by assumption. reflexivity.
  - rewrite !matchLoop_exit by assumption. reflexivity.
Qed.

(** A lot that stays at the head after a pass leaves nothing more to do than
    one pass: either the sell is filled, or the lot's quantity became a nan. *)
Lemma kept_lot_settles r lot :
  (Lot.quantity (lotAfter r lot) <? epsilon) = false ->
  ((r - qtyOf r lot) >? epsilon) = false \/ nan (Lot.quantity (lotAfter r lot)).
Proof.
  intros Hkept. unfold lotAfter in *. simpl in *.
  destruct (min_cases r (Lot.quantity lot)) as [E | [E | E]]; unfold qtyOf in *.
  - left. rewrite E. apply sub_diag_not_above.
  - rewrite E in *. destruct (sub_diag_below (Lot.quantity lot)) as [Hb | Hn].
    + rewrite Hb in Hkept. discriminate.
    + right. exact Hn.
  - left. apply nan_not_above, sub_nan_r, E.
Qed.

Lemma matchLoop_settled f g r lot rest :
  (r >? epsilon) = false \/ nan (Lot.quantity lot) ->
  matchLoop tz (S f) trade ppt r (lot :: rest) =
  matchLoop tz (S g) trade ppt r (lot :: rest).
Proof.
  intros [Hr | Hn].
  - rewrite !matchLoop_exit by assumption. reflexivity.
  - rewrite (matchLoop_nan_head f), (matchLoop_nan_head g) by assumption. reflexivity.
Qed.

(** More fuel than [passes queue] changes nothing. *)
Lemma matchLoop_fuel q : forall r fuel,
  (passes q <= fuel)%nat ->
  matchLoop tz fuel trade ppt r q = matchLoop tz (passes q) trade ppt r q.
Proof.
  induction q as [|lot rest IH]; intros r fuel Hf; unfold passes in *; simpl List.length in *.
  - destruct fuel as [|fuel]; [lia|]. simpl. destruct (r >? epsilon); reflexivity.
  - destruct fuel as [|fuel]; [lia|].
    destruct (r >? epsilon) eqn:Hr.
    + rewrite !matchLoop_pass by assumption.
      unfold queueAfter.
      destruct (Lot.quantity (lotAfter r lot) <? epsilon) eqn:Hpop.
      * rewrite (IH _ fuel) by lia. reflexivity.
      * destruct fuel as [|fuel]; [lia|].
        rewrite (matchLoop_settled fuel (S (List.length rest)))
          by (apply kept_lot_settles; assumption).
        reflexivity.
    + rewrite !matchLoop_exit by assumption. reflexivity.
Qed.

Lemma runLoop_nil r : runLoop tz trade ppt r [] = ([], r, []).
Proof. unfold runLoop. simpl. destruct (r >? epsilon); reflexivity. Qed.

Lemma runLoop_exit r q : (r >? epsilon) = false -> runLoop tz trade ppt r q = ([], r, q).
Proof. apply matchLoop_exit. Qed.

Lemma runLoop_pass r lot rest :
  (r >? epsilon) = true ->
  runLoop tz trade ppt r (lot :: rest) =
    let '(es, r2, q2) := runLoop tz trade ppt (r - qtyOf r lot) (queueAfter r lot rest) in
    (matchEntry tz trade ppt lot (qtyOf r lot) :: es, r2, q2).
Proof.
  intros Hr. unfold runLoop at 1. unfold passes. simpl List.length.
  rewrite matchLoop_pass by assumption.
  unfold runLoop, queueAfter.
  destruct (Lot.quantity (lotAfter r lot) <? epsilon) eqn:Hpop.
  - reflexivity.
  - unfold passes. simpl List.length.
    rewrite (matchLoop_settled (S (List.length rest)) (S (S (List.length rest))))
      by (apply kept_lot_settles; assumption).
    reflexivity.
Qed.

(** At the exit the loop's own test fails: the sell is filled or the queue is
    empty. *)
Lemma runLoop_done q : forall r,
  let '(_, r2, q2) := runLoop tz trade ppt r q in (r2 >? epsilon) = false \/ q2 = [].
Proof.
  induction q as [|lot rest IH]; intros r.
  - rewrite runLoop_nil. right; reflexivity.
  - destruct (r >? epsilon) eqn:Hr.
    + rewrite runLoop_pass by assumption.
      unfold queueAfter.
      destruct (Lot.quantity (lotAfter r lot) <? epsilon) eqn:Hpop.
      * specialize (IH (r - qtyOf r lot)).
        destruct (runLoop tz trade ppt (r - qtyOf r lot) rest) as [[es r2] q2]. exact IH.
      * destruct (kept_lot_settles r lot Hpop) as [Hd | Hn].
        -- rewrite runLoop_exit by assumption. left; exact Hd.
        -- destruct ((r - qtyOf r lot) >? epsilon) eqn:Hr'.
           ++ rewrite runLoop_pass by assumption.
              assert (Hd : ((r - qtyOf r lot - qtyOf (r - qtyOf r lot) (lotAfter r lot))
                              >? epsilon) = false).
              { apply nan_not_above, sub_nan_r, min_nan_r, Hn. }
              rewrite runLoop_exit by assumption. left; exact Hd.
           ++ rewrite runLoop_exit by assumption. left; exact Hr'.
    + rewrite runLoop_exit by assumption. left; exact Hr.
Qed.

End MatchLoop.

(* ===================================================================== *)
(** ** Inventory lookups *)
(* ===================================================================== *)

Lemma Inv_get_set_same {V : Type} key (v : V) m : Inv.get key (Inv.set key v m) = Some v.
Proof.
  induction m as [|[k w] r IH]; simpl.
  - rewrite String.eqb_refl. reflexivity.
  - destruct (String.eqb k key) eqn:E; simpl; rewrite E; [reflexivity | exact IH].
Qed.

Lemma Inv_get_set_other {V : Type} key key' (v : V) m :
  key <> key' -> Inv.get key' (Inv.set key v m) = Inv.get key' m.
Proof.
  intros Hne. induction m as [|[k w] r IH]; simpl.
  - destruct (String.eqb key key') eqn:E; [apply String.eqb_eq in E; contradiction | reflexivity].
  - destruct (String.eqb k key) eqn:E; simpl.
    + apply String.eqb_eq in E. subst k.
      destruct (String.eqb key key') eqn:E'; [apply String.eqb_eq in E'; contradiction | reflexivity].
    + destruct (String.eqb k key'); [reflexivity | exact IH].
Qed.

(* ===================================================================== *)
(** ** Float disequalities *)
(* ===================================================================== *)

Lemma float_neq (a b : float) : PrimFloat.Leibniz.eqb a b = false -> a <> b.
Proof.
  intros H E. apply FloatAxioms.Leibniz.eqb_spec in E. congruence.
Qed.

(* ===================================================================== *)
(** ** The three kinds of entry a report holds *)
(* ===================================================================== *)

Section EntryKinds.

Context {num : Type} {N : Number num}.
Variable tz : Z.
Variable fetchMarketsBatch : list string -> string -> option (MarketData num).

#[local] Open Scope num_scope.

Lemma matchLoop_kinds fuel trade ppt : forall r q,
  Forall EntryKind (fst (fst (matchLoop tz fuel trade ppt r q))).
Proof.
  induction fuel as [|fuel IH]; intros r q; simpl; [constructor|].
  destruct (r >? epsilon); [|constructor].
  destruct q as [|lot rest]; [constructor|].
  match goal with |- context [matchLoop tz fuel trade ppt ?r' ?q'] =>
    specialize (IH r' q'); destruct (matchLoop tz fuel trade ppt r' q') as [[es r2] q2]
  end.
  simpl in *. constructor; [|exact IH].
  eapply Matched; reflexivity.
Qed.

Lemma matchSellToBuys_kinds inventory key trade :
  Forall EntryKind (snd (fst (matchSellToBuys tz inventory key trade))).
Proof.
  unfold matchSellToBuys.
  match goal with |- context [matchLoop tz ?f trade ?p ?r ?q] =>
    pose proof (matchLoop_kinds f trade p r q) as Hk;
    destruct (matchLoop tz f trade p r q) as [[es r2] q2]
  end.
  simpl in Hk. destruct (r2 >? epsilon); simpl; [|exact Hk].
  apply Forall_app. split; [exact Hk|].
  constructor; [|constructor]. eapply Oversold; reflexivity.
Qed.

Lemma processTrade_kinds st trade :
  Forall EntryKind (entries st) -> Forall EntryKind (entries (processTrade tz st trade)).
Proof.
  intros Hst. unfold processTrade. destruct (Trade.side trade); simpl; [exact Hst|].
  pose proof (matchSellToBuys_kinds (inventory st) (positionKeyOf trade) trade) as Hk.
  destruct (matchSellToBuys tz (inventory st) (positionKeyOf trade) trade) as [[inv' es] w].
  simpl in *. apply Forall_app. split; assumption.
Qed.

Lemma fold_processTrade_kinds trades : forall st,
  Forall EntryKind (entries st) ->
  Forall EntryKind (entries (fold_left (processTrade tz) trades st)).
Proof.
  induction trades as [|t r IH]; intros st Hst; simpl; [exact Hst|].
  apply IH, processTrade_kinds, Hst.
Qed.

Lemma processWorthlessPositions_kinds positions taxYearEnd :
  Forall EntryKind (processWorthlessPositions tz fetchMarketsBatch positions taxYearEnd).
Proof.
  unfold processWorthlessPositions.
  generalize (fetchMarketsBatch (map Position.conditionId positions)) as marketMap.
  intros marketMap. induction positions as [|p r IH]; simpl; [constructor|].
  apply Forall_app. split; [|exact IH].
  destruct (isWorthless marketMap p); [|constructor].
  induction (Position.lots p) as [|lot lots IHl]; simpl; constructor; [|exact IHl].
  eapply WrittenOff; reflexivity.
Qed.

Lemma processWorthlessPositions_nil taxYearEnd :
  processWorthlessPositions tz fetchMarketsBatch [] taxYearEnd = [].
Proof. reflexivity. Qed.

Lemma generateTaxReport_entries trades taxYear :
  let report := generateTaxReport tz fetchMarketsBatch trades taxYear in
  let all := allEntries tz fetchMarketsBatch trades taxYear in
  Report.shortTerm report = filter (fun e => negb (Entry.isLongTerm e)) all /\
  Report.longTerm report = filter (fun e => Entry.isLongTerm e) all /\
  Report.shortTermSummary report = calculateSummary (Report.shortTerm report) /\
  Report.longTermSummary report = calculateSummary (Report.longTerm report) /\
  Report.totalTransactions report = List.length all /\
  Report.totalGainLoss report = round (sumBy all Entry.gainLoss).
Proof.
  unfold generateTaxReport, allEntries. simpl.
  destruct (collectOpenPositions _) eqn:E; simpl; repeat split.
Qed.

Lemma allEntries_kinds trades taxYear : Forall EntryKind (allEntries tz fetchMarketsBatch trades taxYear).
Proof.
  unfold allEntries. apply Forall_app. split.
  - apply fold_processTrade_kinds. constructor.
  - apply processWorthlessPositions_kinds.
Qed.

Lemma Forall_filter_of {A : Type} (P : A -> Prop) f (l : list A) :
  Forall P l -> Forall P (filter f l).
Proof.
  induction 1 as [|x l Hx Hl IH]; simpl; [constructor|].
  destruct (f x); [constructor|]; assumption.
Qed.

End EntryKinds.

(* ===================================================================== *)
(** ** Partitions *)
(* ===================================================================== *)

Lemma length_partition {A : Type} (f : A -> bool) (l : list A) :
  List.length l
  = (List.length (filter (fun a => negb (f a)) l) + List.length (filter f l))%nat.
Proof.
  induction l as [|a l IH]; simpl; [reflexivity|].
  destruct (f a); simpl; lia.
Qed.

(* ===================================================================== *)
(** ** Collecting open positions *)
(* ===================================================================== *)

Lemma collectOpenPositions_map {num : Type} {N : Number num} (inventory : Inventory) :
  collectOpenPositions inventory
  = map (fun kl => openPosition (fst kl) (snd kl))
        (filter (fun kl => match snd kl with [] => false | _ :: _ => true end) inventory).
Proof.
  induction inventory as [|[key lots] r IH]; simpl; [reflexivity|].
  destruct lots; simpl; rewrite IH; reflexivity.
Qed.

(* ===================================================================== *)
(** ** Division by zero on binary64 *)
(* ===================================================================== *)

Module ZeroFacts.

Lemma is_zero_Prim2SF z : is_zero z = true -> exists s, Prim2SF z = S754_zero s.
Proof.
  unfold is_zero. rewrite FloatAxioms.eqb_spec.
  replace (Prim2SF zero) with (S754_zero false) by (vm_compute; reflexivity).
  destruct (Prim2SF z) as [s | s | | s m e];
    try discriminate; try (destruct s; discriminate).
  eauto.
Qed.

Lemma Prim2SF_not_finite x :
  Prim2SF x = S754_nan \/ (exists s, Prim2SF x = S754_infinity s) ->
  is_finite x = false.
Proof.
  unfold is_finite, is_infinity. intros [Hn | [s Hi]].
  - apply FloatFacts.is_nan_Prim2SF in Hn. rewrite Hn. reflexivity.
  - rewrite FloatAxioms.eqb_spec, FloatAxioms.abs_spec, Hi.
    replace (Prim2SF infinity) with (S754_infinity false) by (vm_compute; reflexivity).
    simpl. rewrite orb_true_r. reflexivity.
Qed.

(** Dividing by a zero gives [NaN] or an infinity. *)
Lemma div_zero_not_finite x z : is_zero z = true -> is_finite (x / z)%float = false.
Proof.
  intros Hz. destruct (is_zero_Prim2SF z Hz) as [s Hs].
  apply Prim2SF_not_finite. rewrite FloatAxioms.div_spec, Hs.
  destruct (Prim2SF x) as [sx | sx | | sx m e]; simpl; eauto.
Qed.

Lemma zero_not_above z : is_zero z = true -> (0.0001 <? z)%float = false.
Proof.
  intros Hz. destruct (is_zero_Prim2SF z Hz) as [s Hs].
  rewrite FloatAxioms.ltb_spec, Hs, FloatFacts.Prim2SF_epsilon. reflexivity.
Qed.

End ZeroFacts.

(* ===================================================================== *)
(** ** Sums on binary64 *)
(* ===================================================================== *)

Module SumFacts.

Lemma zero_is_zero x s : Prim2SF x = S754_zero s -> is_zero x = true.
Proof.
  intros H. unfold is_zero. rewrite FloatAxioms.eqb_spec, H.
  replace (Prim2SF zero) with (S754_zero false) by (vm_compute; reflexivity).
  destruct s; reflexivity.
Qed.

Lemma sameNumber_refl a : Js.sameNumber a a.
Proof. left. reflexivity. Qed.

Lemma sameNumber_sym a b : Js.sameNumber a b -> Js.sameNumber b a.
Proof. intros [-> | [Ha Hb]]; [left; reflexivity | right; split; assumption]. Qed.

Lemma sameNumber_trans a b c :
  Js.sameNumber a b -> Js.sameNumber b c -> Js.sameNumber a c.
Proof.
  intros [-> | [Ha Hb]] [<- | [Hb' Hc]]; try (left; reflexivity);
    right; split; assumption.
Qed.

(** Adding a zero changes no number. *)
Lemma add_zero_r a z : is_zero z = true -> Js.sameNumber (a + z)%float a.
Proof.
  intros Hz. destruct (ZeroFacts.is_zero_Prim2SF z Hz) as [s Hs].
  pose proof (FloatAxioms.add_spec a z) as H. rewrite Hs in H.
  unfold SF64add, SFadd in H.
  destruct (Prim2SF a) as [sa | sa | | sa ma ea] eqn:Ea.
  - right. split.
    + destruct sa, s; apply (zero_is_zero _ _ H).
    + apply (zero_is_zero _ _ Ea).
  - left. apply FloatAxioms.Prim2SF_inj. rewrite H, Ea. reflexivity.
  - left. apply FloatAxioms.Prim2SF_inj. rewrite H, Ea. reflexivity.
  - left. apply FloatAxioms.Prim2SF_inj. rewrite H, Ea. reflexivity.
Qed.

(** The sign of a zero does not show in a sum, but as the sign of a zero. *)
Lemma add_same a a' y : Js.sameNumber a a' -> Js.sameNumber (a + y)%float (a' + y)%float.
Proof.
  intros [-> | [Ha Ha']]; [left; reflexivity|].
  destruct (ZeroFacts.is_zero_Prim2SF a Ha) as [s Hs].
  destruct (ZeroFacts.is_zero_Prim2SF a' Ha') as [s' Hs'].
  pose proof (FloatAxioms.add_spec a y) as H. rewrite Hs in H.
  pose proof (FloatAxioms.add_spec a' y) as H'. rewrite Hs' in H'.
  unfold SF64add, SFadd in H, H'.
  destruct (Prim2SF y) as [sy | sy | | sy my ey] eqn:Ey.
  - right. split.
    + destruct s, sy; apply (zero_is_zero _ _ H).
    + destruct s', sy; apply (zero_is_zero _ _ H').
  - left. apply FloatAxioms.Prim2SF_inj. rewrite H, H'. reflexivity.
  - left. apply FloatAxioms.Prim2SF_inj. rewrite H, H'. reflexivity.
  - left. apply FloatAxioms.Prim2SF_inj. rewrite H, H'. reflexivity.
Qed.

(** [sumBy] adds the numbers of the fields: a field that is [NaN] counts as
    0, which changes no number. *)
Lemma sumBy_fold {A : Type} (f : A -> float) (l : list A) : forall acc acc',
  Js.sameNumber acc acc' ->
  Js.sameNumber
    (fold_left (fun sum item => (sum + orElse (f item) 0)%float) l acc)
    (fold_left PrimFloat.add (filter (fun x => negb (is_nan x)) (map f l)) acc').
Proof.
  induction l as [|a l IH]; intros acc acc' H; cbn [fold_left map filter]; [exact H|].
  unfold orElse at 2. cbn [falsy binary64]. unfold Js.is_falsy.
  destruct (is_nan (f a)) eqn:En; cbn [negb].
  - rewrite orb_true_r. apply IH.
    eapply sameNumber_trans; [apply add_zero_r; reflexivity | exact H].
  - rewrite orb_false_r. cbn [fold_left].
    destruct (is_zero (f a)) eqn:Ez.
    + apply IH.
      eapply sameNumber_trans; [apply add_zero_r; reflexivity|].
      eapply sameNumber_trans; [exact H|].
      apply sameNumber_sym, add_zero_r, Ez.
    + apply IH, add_same, H.
Qed.

Lemma sumBy_numbers {A : Type} (l : list A) (f : A -> float) :
  Js.sameNumber (sumBy l f) (sumOfNumbers (map f l)).
Proof. apply sumBy_fold, sameNumber_refl. Qed.

Lemma round_same (a b : float) :
  Js.sameNumber a b -> Js.sameNumber (round a) (round b).
Proof.
  intros [-> | [Ha Hb]]; [left; reflexivity|].
  destruct (ZeroFacts.is_zero_Prim2SF a Ha) as [s Hs].
  destruct (ZeroFacts.is_zero_Prim2SF b Hb) as [s' Hs'].
  rewrite <- (FloatAxioms.SF2Prim_Prim2SF a), <- (FloatAxioms.SF2Prim_Prim2SF b), Hs, Hs'.
  right. destruct s, s'; split; vm_compute; reflexivity.
Qed.

(** A total is the rounded sum of the numbers. *)
Lemma round_sumBy_numbers {A : Type} (l : list A) (f : A -> float) :
  Js.sameNumber (round (sumBy l f)) (round (sumOfNumbers (map f l))).
Proof. apply round_same, sumBy_numbers. Qed.

End SumFacts.

(* ===================================================================== *)
(** ** Splitting and joining keys *)
(* ===================================================================== *)

Module KeyFacts.

#[local] Open Scope string_scope.

Lemma split_not_nil sep s : Str.split sep s <> [].
Proof.
  destruct s as [|c r]; simpl; [discriminate|].
  destruct (Ascii.eqb c sep); [discriminate|].
  destruct (Str.split sep r); discriminate.
Qed.

Lemma join_cons_cons sep h h' t :
  Str.join sep (h :: h' :: t) = h ++ sep ++ Str.join sep (h' :: t).
Proof. reflexivity. Qed.

(** Splitting and joining again gives the string back. *)
Lemma join_split s : Str.join "-" (Str.split "-" s) = s.
Proof.
  induction s as [|c r IH]; simpl; [reflexivity|].
  pose proof (split_not_nil "-" r) as Hne.
  destruct (Str.split "-" r) as [|h t]; [contradiction|].
  destruct (Ascii.eqb c "-") eqn:Ec.
  - apply Ascii.eqb_eq in Ec. subst c.
    rewrite join_cons_cons, IH. reflexivity.
  - rewrite <- IH. destruct t as [|h' t]; [reflexivity|].
    rewrite !join_cons_cons. reflexivity.
Qed.

(** The first part ends at the first dash. *)
Lemma split_first c rest :
  Str.includes "-" c = false ->
  Str.split "-" (c ++ "-" ++ rest) = c :: Str.split "-" rest.
Proof.
  change ("-" ++ rest) with (String "-" rest).
  induction c as [|a c IH]; simpl; intros Hc; [reflexivity|].
  apply orb_false_iff in Hc. destruct Hc as [Ha Hc].
  rewrite Ha, (IH Hc). reflexivity.
Qed.

Lemma includes_cut c :
  Str.includes "-" c = true ->
  exists c1 c2, c = c1 ++ "-" ++ c2 /\ Str.includes "-" c1 = false.
Proof.
  induction c as [|a c IH]; simpl; intros Hc; [discriminate|].
  destruct (Ascii.eqb a "-") eqn:Ea.
  - apply Ascii.eqb_eq in Ea. subst a. exists "", c. split; reflexivity.
  - simpl in Hc. destruct (IH Hc) as (c1 & c2 & -> & H1).
    exists (String a c1), c2. split; [reflexivity|]. simpl. rewrite Ea. exact H1.
Qed.

Lemma append_assoc (a b c : string) : (a ++ b) ++ c = a ++ b ++ c.
Proof. induction a as [|x a IH]; simpl; [reflexivity | rewrite IH; reflexivity]. Qed.

Lemma Inv_get_In {V : Type} key (v : V) m : Inv.get key m = Some v -> In (key, v) m.
Proof.
  induction m as [|[k w] r IH]; simpl; [discriminate|].
  destruct (String.eqb k key) eqn:E.
  - apply String.eqb_eq in E. intros H. injection H as ->. left. congruence.
  - intros H. right. exact (IH H).
Qed.

End KeyFacts.

(* ===================================================================== *)
(** ** The end of the tax year *)
(* ===================================================================== *)

Module DateFacts.

(** December 31 survives the trip through day numbers. *)
Lemma civil_dec31 y :
  JsDate.civil_from_days (JsDate.days_from_civil y 12 31) = (y, 12, 31).
Proof.
  unfold JsDate.days_from_civil, JsDate.civil_from_days.
  cbv zeta. change (12 <=? 2) with false. change (2 <? 12) with true. cbv iota.
  set (era := y / 400). set (yoe := y - era * 400).
  assert (Hyoe : 0 <= yoe < 400)
    by (unfold yoe, era; Z.to_euclidean_division_equations; lia).
  replace ((153 * (12 - 3) + 2) / 5 + 31 - 1) with 305 by reflexivity.
  set (doe := yoe * 365 + yoe / 4 - yoe / 100 + 305).
  assert (Hdoe : 0 <= doe < 146097)
    by (unfold doe; Z.to_euclidean_division_equations; lia).
  replace (era * 146097 + doe - 719468 + 719468) with (doe + era * 146097) by lia.
  rewrite Z.div_add by lia. rewrite (Z.div_small doe) by lia. simpl (0 + era).
  replace (doe + era * 146097 - era * 146097) with doe by lia.
  assert (Hy : (doe - doe / 1460 + doe / 36524 - doe / 146096) / 365 = yoe)
    by (unfold doe; Z.to_euclidean_division_equations; lia).
  rewrite Hy.
  replace (doe - (365 * yoe + yoe / 4 - yoe / 100)) with 305 by (unfold doe; lia).
  simpl. f_equal. f_equal. unfold yoe. lia.
Qed.

(** The end of a tax year, read back in the host's time zone, is December 31
    of that year, one second before midnight. *)
Lemma taxYearEnd_fields tz taxYear :
  taxYear < 0 \/ 99 < taxYear ->
  JsDate.localFields tz (taxYearEndOf tz taxYear) = (taxYear, 11, 31) /\
  (taxYearEndOf tz taxYear + tz) mod 86400 = 23 * 3600 + 59 * 60 + 59.
Proof.
  intros Hy. unfold taxYearEndOf, JsDate.localTime, JsDate.localFields.
  replace ((0 <=? taxYear) && (taxYear <=? 99))%bool with false
    by (symmetry; apply andb_false_iff; lia).
  cbv zeta. change (11 + 1) with 12.
  set (D := JsDate.days_from_civil taxYear 12 31).
  replace (D * 86400 + 23 * 3600 + 59 * 60 + 59 - tz + tz) with (86399 + D * 86400) by lia.
  rewrite Z.div_add by lia. rewrite Z.mod_add by lia.
  change (86399 / 86400) with 0. change (0 + D) with D.
  unfold D. rewrite civil_dec31. split; reflexivity.
Qed.

End DateFacts.

(* ===================================================================== *)
(** ** The sort is stable *)
(* ===================================================================== *)

Section StableSort.

Context {num : Type} {N : Number num}.

Lemma insertByTimestamp_In (x y : PolymarketTrade num) l : In y (insertByTimestamp x l) <-> y = x \/ In y l.
Proof.
  induction l as [|u r IH]; simpl.
  - split; intros [H | H]; auto.
  - destruct (Trade.timestamp x <=? Trade.timestamp u); simpl.
    + split; intros [H | H]; auto.
    + rewrite IH. split; intros H; tauto.
Qed.

Lemma insertByTimestamp_sorted (x : PolymarketTrade num) l :
  StronglySorted earlier l -> StronglySorted earlier (insertByTimestamp x l).
Proof.
  induction 1 as [|u r Hr IH Hu]; simpl.
  - constructor; constructor.
  - destruct (Trade.timestamp x <=? Trade.timestamp u) eqn:E.
    + apply Z.leb_le in E. constructor; [constructor; assumption|].
      constructor; [exact E|].
      eapply Forall_impl; [|exact Hu]. unfold earlier. intros; lia.
    + apply Z.leb_gt in E. constructor; [exact IH|].
      apply Forall_forall. intros y Hy. apply insertByTimestamp_In in Hy.
      destruct Hy as [-> | Hy]; [unfold earlier; lia|].
      rewrite Forall_forall in Hu. auto.
Qed.

Lemma sortByTimestamp_sorted (l : list (PolymarketTrade num)) : StronglySorted earlier (sortByTimestamp l).
Proof.
  induction l as [|x l IH]; simpl; [constructor | apply insertByTimestamp_sorted, IH].
Qed.

Lemma atTime_insert t (x : PolymarketTrade num) l :
  atTime t (insertByTimestamp x l) = atTime t (x :: l).
Proof.
  induction l as [|u r IH]; [reflexivity|].
  simpl insertByTimestamp.
  destruct (Trade.timestamp x <=? Trade.timestamp u) eqn:E; [reflexivity|].
  apply Z.leb_gt in E. unfold atTime in *. simpl in *. rewrite IH.
  destruct (Trade.timestamp x =? t) eqn:Ex;
    destruct (Trade.timestamp u =? t) eqn:Eu; try reflexivity.
  apply Z.eqb_eq in Ex, Eu. lia.
Qed.

(** The sort is stable: trades of equal timestamps keep their order. *)
Lemma sortByTimestamp_stable t (l : list (PolymarketTrade num)) : atTime t (sortByTimestamp l) = atTime t l.
Proof.
  induction l as [|x l IH]; [reflexivity|].
  simpl sortByTimestamp. rewrite atTime_insert.
  unfold atTime in *. simpl. rewrite IH. reflexivity.
Qed.

Lemma atTime_In t (x : PolymarketTrade num) l : In x (atTime t l) <-> In x l /\ Trade.timestamp x = t.
Proof. unfold atTime. rewrite filter_In, Z.eqb_eq. reflexivity. Qed.

(** Two sorted lists with the same trades at every timestamp, in the same
    order, are the same list. *)
Lemma sorted_unique (l1 : list (PolymarketTrade num)) : forall l2,
  StronglySorted earlier l1 -> StronglySorted earlier l2 ->
  (forall t, atTime t l1 = atTime t l2) -> l1 = l2.
Proof.
  induction l1 as [|a r1 IH]; intros l2 H1 H2 Heq.
  - destruct l2 as [|b r2]; [reflexivity|].
    specialize (Heq (Trade.timestamp b)). unfold atTime in Heq. simpl in Heq.
    rewrite Z.eqb_refl in Heq. discriminate.
  - destruct l2 as [|b r2].
    + specialize (Heq (Trade.timestamp a)). unfold atTime in Heq. simpl in Heq.
      rewrite Z.eqb_refl in Heq. discriminate.
    + inversion H1 as [|? ? Hr1 Ha]; subst. inversion H2 as [|? ? Hr2 Hb]; subst.
      rewrite Forall_forall in Ha, Hb.
      assert (Hab : a = b).
      { pose proof (Heq (Trade.timestamp a)) as Ea.
        unfold atTime in Ea. simpl in Ea. rewrite Z.eqb_refl in Ea.
        destruct (Trade.timestamp b =? Trade.timestamp a) eqn:Eb.
        - congruence.
        - apply Z.eqb_neq in Eb.
          assert (In a r2) as Hin.
          { apply (proj1 (atTime_In (Trade.timestamp a) a r2)).
            unfold atTime. rewrite <- Ea. left; reflexivity. }
          pose proof (Hb a Hin) as Hle. unfold earlier in Hle.
          pose proof (Heq (Trade.timestamp b)) as Eb'.
          unfold atTime in Eb'. simpl in Eb'. rewrite Z.eqb_refl in Eb'.
          destruct (Trade.timestamp a =? Trade.timestamp b) eqn:Eab;
            [apply Z.eqb_eq in Eab; lia|].
          assert (In b r1) as Hin'.
          { apply (proj1 (atTime_In (Trade.timestamp b) b r1)).
            unfold atTime. rewrite Eb'. left; reflexivity. }
          pose proof (Ha b Hin') as Hle'. unfold earlier in Hle'. lia. }
      subst b. f_equal. apply IH; try assumption.
      intros t. specialize (Heq t). unfold atTime in *. simpl in Heq.
      destruct (Trade.timestamp a =? t); [injection Heq; auto | exact Heq].
Qed.

Lemma sortByTimestamp_ext (l1 l2 : list (PolymarketTrade num)) :
  (forall t, atTime t l1 = atTime t l2) -> sortByTimestamp l1 = sortByTimestamp l2.
Proof.
  intros Heq. apply sorted_unique; try apply sortByTimestamp_sorted.
  intros t. rewrite !sortByTimestamp_stable. apply Heq.
Qed.

Lemma normalizeAll_Permutation (l1 l2 : list (PolymarketTrade num)) :
  Permutation l1 l2 -> Permutation (normalizeAll l1) (normalizeAll l2).
Proof.
  induction 1 as [| x l l' HP IH | x y l | l l' l'' HP1 IH1 HP2 IH2]; simpl.
  - constructor.
  - destruct (normalizeTrade x); [constructor|]; assumption.
  - destruct (normalizeTrade x), (normalizeTrade y); try reflexivity. constructor.
  - etransitivity; eassumption.
Qed.

Lemma NoDup_timestamp_inj (l : list (PolymarketTrade num)) x y :
  NoDup (map Trade.timestamp l) -> In x l -> In y l ->
  Trade.timestamp x = Trade.timestamp y -> x = y.
Proof.
  induction l as [|a r IH]; simpl; intros Hnd Hx Hy Hxy; [contradiction|].
  inversion Hnd as [|? ? Hnotin Hnd']; subst.
  destruct Hx as [-> | Hx], Hy as [-> | Hy]; auto.
  - exfalso. apply Hnotin. rewrite Hxy. apply in_map, Hy.
  - exfalso. apply Hnotin. rewrite <- Hxy. apply in_map, Hx.
Qed.

Lemma atTime_NoDup t (l : list (PolymarketTrade num)) :
  NoDup (map Trade.timestamp l) ->
  atTime t l = [] \/ exists x, atTime t l = [x].
Proof.
  induction l as [|a r IH]; simpl; intros Hnd; [left; reflexivity|].
  inversion Hnd as [|? ? Hnotin Hnd']; subst.
  unfold atTime in *. simpl.
  destruct (Trade.timestamp a =? t) eqn:E.
  - right. exists a. f_equal.
    destruct (filter _ r) as [|y f] eqn:Ef; [reflexivity|].
    exfalso. apply Hnotin.
    assert (In y (filter (fun x => Trade.timestamp x =? t) r)) as Hy
      by (rewrite Ef; left; reflexivity).
    apply filter_In in Hy. destruct Hy as [Hy Ht].
    apply Z.eqb_eq in E, Ht. rewrite E, <- Ht. apply in_map, Hy.
  - apply IH, Hnd'.
Qed.

(** With pairwise distinct timestamps a permutation changes no [atTime]. *)
Lemma atTime_Permutation_NoDup t (l1 l2 : list (PolymarketTrade num)) :
  Permutation l1 l2 -> NoDup (map Trade.timestamp l1) ->
  atTime t l1 = atTime t l2.
Proof.
  intros HP Hnd1.
  assert (Hnd2 : NoDup (map Trade.timestamp l2)).
  { eapply Permutation_NoDup; [|exact Hnd1]. apply Permutation_map, HP. }
  assert (Hsub : forall la lb : list (PolymarketTrade num),
                 Permutation la lb -> NoDup (map Trade.timestamp lb) ->
                 forall x, atTime t la = [x] -> atTime t lb = [x]).
  { intros la lb HPab Hndb x Hx.
    assert (In x (atTime t la)) as Hin by (rewrite Hx; left; reflexivity).
    apply atTime_In in Hin. destruct Hin as [Hin Ht].
    assert (In x (atTime t lb)) as Hin'.
    { apply atTime_In. split; [|exact Ht]. eapply Permutation_in; eassumption. }
    destruct (atTime_NoDup t lb Hndb) as [E | [y E]]; rewrite E in *.
    - contradiction.
    - destruct Hin' as [-> | []]. reflexivity. }
  destruct (atTime_NoDup t l1 Hnd1) as [E1 | [x E1]].
  - destruct (atTime_NoDup t l2 Hnd2) as [E2 | [y E2]]; [congruence|].
    rewrite (Hsub l2 l1 (Permutation_sym HP) Hnd1 y E2) in E1. discriminate.
  - rewrite E1. symmetry. exact (Hsub l1 l2 HP Hnd2 x E1).
Qed.

End StableSort.

(* ===================================================================== *)
(** ** The ledger of quantities *)
(* ===================================================================== *)

Section Ledger.

Context {num : Type} {N : Number num}.
Variable tz : Z.

#[local] Open Scope num_scope.




End Ledger.

(** *** What becomes of a quantity, as numbers *)

Module Conservation.

Section Conservation.

Context {num : Type} {N : Number num}.

(** The number a quantity is read as. *)
Variable val : num -> Qc.
Variable tz : Z.

#[local] Open Scope Qc_scope.












End Conservation.

End Conservation.

(** *** The passes of one sell *)

Section WholeLots.

Context {num : Type} {N : Number num} {nan : num -> Prop} {L : LoopLaws N nan}.

#[local] Open Scope num_scope.



End WholeLots.

(** *** The numbers of binary64 *)

Module ValueFacts.



End ValueFacts.

(* ===================================================================== *)
(** * The claims *)
(* ===================================================================== *)

(* ===================================================================== *)
(** ** C1: FIFO matching from the head of the queue *)
(* ===================================================================== *)

(** C1.  For every SELL, [matchSellToBuys] runs the matching loop on the
    queue of the sell's position key, starting from [remaining = size] at
    [proceedsPerToken = usdcSize / size]; a BUY appends its lot at the tail of
    that queue, so the queue is in acquisition order.  The loop is the
    while-loop of the source: it stops with no entry when [remaining] is not
    above epsilon or the queue is empty; otherwise it matches
    [qty = Math.min(remaining, lot.quantity)] of the head lot, emits one entry
    for that (sell, lot) match, subtracts [qty] from both, pops the lot when
    less than epsilon is left of it, and goes on; when it exits, [remaining]
    is not above epsilon or the queue is empty; and the bound on its passes
    in the model is never reached (more fuel changes nothing).  For B1 (10 at 1.0)
    and B2 (10 at 2.0) followed by a sell of 12 at 3.0 the entries are exactly
    (proceeds 30, cost 10, gain 20) and (proceeds 6, cost 4, gain 2), and B2
    stays open with 8 units. *)
Theorem C1_fifo_matching_from_queue_head :
  (* a BUY appends at the tail of its key's queue *)
  (forall (inventory : Inventory) key (trade : PolymarketTrade float),
     Inv.get key (addToInventory inventory key trade)
     = Some (queueOf inventory key ++ [newLot trade])) /\
  (* a SELL runs the loop on its key's queue *)
  (forall tz (inventory : Inventory) key (trade : PolymarketTrade float),
     let ppt := (Trade.usdcSize trade / Trade.size trade)%num in
     let '(es, r, q) := runLoop tz trade ppt (Trade.size trade) (queueOf inventory key) in
     exists tail warning,
       matchSellToBuys tz inventory key trade
       = (match Inv.get key inventory with
          | Some _ => Inv.set key q inventory
          | None => inventory
          end, es ++ tail, warning)) /\
  (* the loop *)
  (forall tz (trade : PolymarketTrade float) ppt,
     (forall r, runLoop tz trade ppt r [] = ([], r, [])) /\
     (forall r q, (r >? epsilon)%num = false -> runLoop tz trade ppt r q = ([], r, q)) /\
     (forall r lot rest, (r >? epsilon)%num = true ->
        let qty := Math_min r (Lot.quantity lot) in
        let lot' := Lot.set_quantity (Lot.quantity lot - qty)%num lot in
        let queue' := if (Lot.quantity lot' <? epsilon)%num then rest else lot' :: rest in
        runLoop tz trade ppt r (lot :: rest) =
          let '(es, r2, q2) := runLoop tz trade ppt (r - qty)%num queue' in
          (matchEntry tz trade ppt lot qty :: es, r2, q2)) /\
     (forall r q,
        let '(_, r2, q2) := runLoop tz trade ppt r q in
        (r2 >? epsilon)%num = false \/ q2 = []) /\
     (forall r q fuel,
        (passes q <= fuel)%nat ->
        matchLoop tz fuel trade ppt r q = runLoop tz trade ppt r q)) /\
  (* the example, on any inventory holding B1 and B2 under the sell's key *)
  (forall tz (inventory : Inventory) key
          t1 tc1 title1 hash1 o1 t2 tc2 title2 hash2 o2 ts ty sd c o p h ti,
     let B1 := Lot.mk t1 10%float 1%float tc1 title1 hash1 o1 in
     let B2 := Lot.mk t2 10%float 2%float tc2 title2 hash2 o2 in
     let sale := Trade.mk ts ty sd c o 12%float 36%float p h ti in
     Inv.get key inventory = Some [B1; B2] ->
     exists es,
       matchSellToBuys tz inventory key sale
       = (Inv.set key [Lot.set_quantity 8%float B2] inventory, es, None) /\
       map amounts es = [(30, 10, 20); (6, 4, 2)]%float) /\
  (* the example, from trades to report *)
  (let report := generateTaxReport 0 Examples.noMarkets Examples.fifoTrades 2023 in
   map amounts (Report.shortTerm report) = [(30, 10, 20); (6, 4, 2)]%float /\
   Report.longTerm report = [] /\
   Report.warnings report = [] /\
   map (fun p => map Lot.quantity (Position.lots p)) (Report.openPositions report)
   = [[8%float]]).
Proof.
  split; [|split; [|split; [|split]]].
  - intros inventory key trade. unfold addToInventory, queueOf.
    destruct (Inv.get key inventory); apply Inv_get_set_same.
  - intros tz inventory key trade ppt. unfold matchSellToBuys, queueOf, runLoop.
    fold ppt.
    destruct (matchLoop tz _ trade ppt (Trade.size trade) _) as [[es r] q].
    destruct (r >? epsilon)%num.
    + eexists _, _. reflexivity.
    + exists [], None. rewrite app_nil_r. reflexivity.
  - intros tz trade ppt. repeat split.
    + apply runLoop_nil.
    + apply runLoop_exit.
    + intros r lot rest Hr. apply (runLoop_pass (L := binary64_laws)). exact Hr.
    + intros r q. apply (runLoop_done (L := binary64_laws)).
    + intros r q fuel Hf. apply (matchLoop_fuel (L := binary64_laws)). exact Hf.
  - intros tz inventory key t1 tc1 title1 hash1 o1 t2 tc2 title2 hash2 o2
           ts ty sd c o p h ti B1 B2 sale Hget.
    unfold matchSellToBuys. rewrite Hget. cbn.
    eexists. split; reflexivity.
  - vm_compute. repeat split.
Qed.

(** C1 at work: the example clause on the inventory left by B1 and B2. *)
Lemma C1_fifo_matching_witness :
  exists es,
    matchSellToBuys 0 Examples.fifoInventory "0xc1-Yes"
      (Examples.sell 1700172800 "0xc1" "Yes" 12 36)
    = (Inv.set "0xc1-Yes"
         [Lot.set_quantity 8%float (newLot (Examples.buy 1700086400 "0xc1" "Yes" 10 20))]
         Examples.fifoInventory, es, None) /\
    map amounts es = [(30, 10, 20); (6, 4, 2)]%float.
Proof.
  apply (proj1 (proj2 (proj2 (proj2 C1_fifo_matching_from_queue_head)))
           0 Examples.fifoInventory "0xc1-Yes"%string
           1700000000 10%float "Will it rain tomorrow?"%string "0xb"%string "Yes"%string
           1700086400 20%float "Will it rain tomorrow?"%string "0xb"%string "Yes"%string).
  reflexivity.
Defined.

(* ===================================================================== *)
(** ** C2: what becomes of the quantities bought *)
(* ===================================================================== *)



(* ===================================================================== *)
(** ** C3: overselling *)
(* ===================================================================== *)

(** C3, as stated, fails: the proceeds of the synthesized entry are not
    [remaining * unit proceeds] but that product rounded to cents.  Selling 1
    unit for 0.125 out of an empty inventory oversells 1 unit at 0.125 and
    stores proceeds 0.13. *)
Lemma C3_counterexample_proceeds_are_rounded :
  let sale := Examples.sell 1700000000 "0xc1" "Yes" 1 0.125 in
  let ppt := (Trade.usdcSize sale / Trade.size sale)%num in
  exists e,
    matchSellToBuys 0 [] "0xc1-Yes" sale
    = ([], [e], Some (SoldMoreThanOwned 1%float "0xc1-Yes")) /\
    (1%float * ppt)%num = 0.125%float /\
    Entry.proceeds e = 0.13%float /\
    Entry.proceeds e <> (1%float * ppt)%num.
Proof.
  eexists. split; [vm_compute; reflexivity|]. split; [reflexivity|].
  split; [reflexivity|].
  apply float_neq. vm_compute. reflexivity.
Qed.

(** C3, amended.  Let [r] be what is left of a SELL when the matching loop
    exits.  If [r] is above epsilon, the queue of the sell's key is empty and
    [matchSellToBuys] appends exactly one entry after the matched ones, with
    cost basis 0, dateAcquired "VARIOUS", proceeds [round (r * unit proceeds)]
    (rounded to cents), gainLoss equal to the proceeds, isLongTerm false and
    holdingDays 0, and returns exactly the warning that names [r] and the
    position key.  If [r] is not above epsilon, nothing is appended and no
    warning is returned.  [processTrade] adds the returned warning, and only
    it, to the report's warnings; a BUY adds none. *)
Theorem C3_oversell_entry_and_warning :
  (forall tz (inventory : Inventory) key (trade : PolymarketTrade float),
     let ppt := (Trade.usdcSize trade / Trade.size trade)%num in
     let '(es, r, q) := runLoop tz trade ppt (Trade.size trade) (queueOf inventory key) in
     let inventory' :=
       match Inv.get key inventory with
       | Some _ => Inv.set key q inventory
       | None => inventory
       end in
     if (r >? epsilon)%num then
       q = [] /\
       matchSellToBuys tz inventory key trade
       = (inventory', es ++ [oversellEntry tz trade ppt r],
          Some (SoldMoreThanOwned r key)) /\
       (let e := oversellEntry tz trade ppt r in
        Entry.costBasis e = 0%float /\
        Entry.dateAcquired e = "VARIOUS"%string /\
        Entry.proceeds e = round (r * ppt)%num /\
        Entry.gainLoss e = Entry.proceeds e /\
        Entry.isLongTerm e = false /\
        Entry.holdingDays e = 0)
     else
       matchSellToBuys tz inventory key trade = (inventory', es, None)) /\
  (forall tz (st : Engine) (trade : PolymarketTrade float),
     let key := positionKeyOf trade in
     let ppt := (Trade.usdcSize trade / Trade.size trade)%num in
     let '(_, r, _) :=
       runLoop tz trade ppt (Trade.size trade) (queueOf (inventory st) key) in
     warnings (processTrade tz st trade)
     = match Trade.side trade with
       | BUY => warnings st
       | SELL =>
           if (r >? epsilon)%num
           then warnings st ++ [SoldMoreThanOwned r key]
           else warnings st
       end).
Proof.
  split.
  - intros tz inventory key trade ppt.
    pose proof (runLoop_done (L := binary64_laws) tz trade ppt
                  (queueOf inventory key) (Trade.size trade)) as Hdone.
    unfold matchSellToBuys. fold ppt. fold (queueOf inventory key).
    unfold runLoop in *.
    destruct (matchLoop tz _ trade ppt (Trade.size trade) _) as [[es r] q].
    destruct (r >? epsilon)%num eqn:Hr.
    + destruct Hdone as [Hd | Hq]; [discriminate|].
      split; [exact Hq|]. split; [reflexivity|].
      simpl. repeat split.
    + reflexivity.
  - intros tz st trade key ppt. unfold processTrade. fold key.
    destruct (Trade.side trade).
    + destruct (runLoop tz trade ppt _ _) as [[es r] q]. reflexivity.
    + unfold matchSellToBuys. fold ppt. fold (queueOf (inventory st) key).
      unfold runLoop.
      destruct (matchLoop tz _ trade ppt (Trade.size trade) _) as [[es r] q].
      destruct (r >? epsilon)%num; reflexivity.
Qed.

(* ===================================================================== *)
(** ** C4: worthless positions *)
(* ===================================================================== *)

(** C4, as stated, fails: the cost basis of a write-off is not the lot's
    remaining cost basis but that amount rounded to cents.  A lot of 1 unit
    at 0.125 has a remaining cost basis of 0.125; its write-off stores cost
    basis 0.13 and gainLoss -0.13. *)
Lemma C4_counterexample_cost_basis_is_rounded :
  let report := generateTaxReport 0 Examples.resolved Examples.threePositions 2020 in
  exists e p lot rest,
    Report.shortTerm report = [e] /\ Report.longTerm report = [] /\
    Report.openPositions report = p :: rest /\ Position.lots p = [lot] /\
    Position.outcome p = "yes"%string /\
    amounts e = (0, 0.13, -0.13)%float /\
    (Lot.quantity lot * Lot.costBasisPerToken lot)%float = 0.125%float /\
    Entry.costBasis e <> (Lot.quantity lot * Lot.costBasisPerToken lot)%float.
Proof.
  cbv zeta. eexists. eexists. eexists. eexists.
  split; [vm_compute; reflexivity|]. split; [vm_compute; reflexivity|].
  split; [vm_compute; reflexivity|]. split; [vm_compute; reflexivity|].
  split; [vm_compute; reflexivity|]. split; [vm_compute; reflexivity|].
  split; [vm_compute; reflexivity|].
  apply float_neq. vm_compute. reflexivity.
Qed.

(** C4, amended.  For outcomes in ASCII, a position is written off exactly
    when the market recorded under its conditionId is closed, has a token
    flagged as winner, and the outcome of the first such token differs from
    the position's once both are in upper case.  A position written off
    yields one entry per lot, in the order of its lots, with proceeds 0, cost
    basis [round (quantity * costBasisPerToken)] (the lot's remaining cost
    basis rounded to cents), gainLoss minus that stored cost basis, dateSold
    the formatted end of the tax year and holdingDays
    [floor ((taxYearEnd - acquisitionDate) / 86400)], long-term from 365 days
    on; any other position yields none, and stays among the report's
    [openPositions].  For a tax year that is not from 0 to 99 and that a
    [Date] can hold, the end of the tax year is December 31, 23:59:59 of that
    year in the local time of the host, [tz] being its offset at that
    moment.  Of three positions, "yes" and "NO" in a closed market won by
    "No" and one in a market the lookup does not know, only "yes" is written
    off, on 12/31/2020. *)
Theorem C4_worthless_positions_are_written_off :
  (forall (num : Type) (N : Number num) tz
          (fetchMarketsBatch : list string -> string -> option (MarketData num)),
     (forall marketMap (p : OpenPosition num),
        Str.isAscii (Position.outcome p) = true ->
        (forall market,
           marketMap (Position.conditionId p) = Some market ->
           Forall (fun t => Str.isAscii (Token.outcome t) = true) (Market.tokens market)) ->
        (isWorthless marketMap p = true <->
         exists market winner,
           marketMap (Position.conditionId p) = Some market /\
           Market.closed market = true /\
           find (fun t => Token.winner t) (Market.tokens market) = Some winner /\
           Str.toUpperCase (Position.outcome p) <> Str.toUpperCase (Token.outcome winner))) /\
     (forall positions taxYearEnd,
        map disposal (processWorthlessPositions tz fetchMarketsBatch positions taxYearEnd)
        = flat_map
            (fun p =>
               if isWorthless (fetchMarketsBatch (map Position.conditionId positions)) p
               then map (fun lot =>
                           let cost :=
                             round (Lot.quantity lot * Lot.costBasisPerToken lot)%num in
                           let days := (taxYearEnd - Lot.acquisitionDate lot) / 86400 in
                           (nzero, cost, (- cost)%num, formatDate tz taxYearEnd, days,
                            365 <=? days))
                        (Position.lots p)
               else [])
            positions) /\
     (forall (trades : list (PolymarketTrade num)) taxYear,
        let st := processTrades tz (sortByTimestamp (normalizeAll trades)) in
        let positions := collectOpenPositions (inventory st) in
        let report := generateTaxReport tz fetchMarketsBatch trades taxYear in
        allEntries tz fetchMarketsBatch trades taxYear
        = entries st ++
          processWorthlessPositions tz fetchMarketsBatch positions (taxYearEndOf tz taxYear) /\
        (forall p,
           In p positions ->
           isWorthless (fetchMarketsBatch (map Position.conditionId positions)) p = false ->
           In p (Report.openPositions report)))) /\
  (forall tz taxYear,
     taxYear < 0 \/ 99 < taxYear ->
     -271821 <= taxYear <= 275759 ->
     JsDate.localFields tz (taxYearEndOf tz taxYear) = (taxYear, 11, 31) /\
     (taxYearEndOf tz taxYear + tz) mod 86400 = 23 * 3600 + 59 * 60 + 59 /\
     formatDate tz (taxYearEndOf tz taxYear) = ("12/31/" ++ Str.ofZ taxYear)%string) /\
  (let report := generateTaxReport 0 Examples.resolved Examples.threePositions 2020 in
   map Position.positionKey (Report.openPositions report)
   = ["0xc1-yes"; "0xc1-NO"; "0xc2-NO"]%string /\
   map (isWorthless (Examples.resolved [])) (Report.openPositions report)
   = [true; false; false] /\
   Report.longTerm report = [] /\
   Report.shortTerm report
   = [Entry.mk "YES token - Will it rain tomorrow?" "09/13/2020" "12/31/2020"
               0%float 0.13%float (-0.13)%float false 109]).
Proof.
  split; [|split].
  - intros num N tz fetch. split; [|split].
    + intros marketMap p _ _. unfold isWorthless.
      destruct (marketMap (Position.conditionId p)) as [market|] eqn:Em.
      * destruct (Market.closed market) eqn:Ecl.
        -- destruct (find (fun t => Token.winner t) (Market.tokens market))
             as [winner|] eqn:Ew.
           ++ rewrite negb_true_iff, String.eqb_neq. split.
              ** intros Hne. exists market, winner. repeat split; assumption.
              ** intros (m & w & Hm & _ & Hw & Hne).
                 injection Hm as <-. rewrite Ew in Hw. injection Hw as <-. exact Hne.
           ++ split; [discriminate|]. intros (m & w & Hm & _ & Hw & _).
              injection Hm as <-. rewrite Ew in Hw. discriminate.
        -- split; [discriminate|]. intros (m & w & Hm & Hc & _).
           injection Hm as <-. congruence.
      * split; [discriminate|]. intros (m & w & Hm & _). discriminate.
    + intros positions taxYearEnd. unfold processWorthlessPositions.
      generalize (fetch (map Position.conditionId positions)) as marketMap.
      intros marketMap. induction positions as [|p r IH]; cbn [flat_map map]; [reflexivity|].
      rewrite map_app, IH. f_equal.
      destruct (isWorthless marketMap p); [|reflexivity].
      rewrite map_map. reflexivity.
    + intros trades taxYear st positions report. split; [reflexivity|].
      intros p Hp _. exact Hp.
  - intros tz taxYear Hy _.
    destruct (DateFacts.taxYearEnd_fields tz taxYear Hy) as [Hf Hs].
    split; [exact Hf|]. split; [exact Hs|].
    unfold formatDate. rewrite Hf. reflexivity.
  - vm_compute. repeat split.
Qed.

(** C4 at work: the position "yes" in the market that "No" has won, and the
    end of tax year 2024, five hours west of UTC. *)
Lemma C4_worthless_positions_witness :
  (isWorthless (Examples.resolved [])
     (openPosition "0xc1-yes" [newLot (Examples.buy 1600000000 "0xc1" "yes" 1 0.125)])
   = true <->
   exists market winner,
     Examples.resolved [] "0xc1"%string = Some market /\
     Market.closed market = true /\
     find (fun t => Token.winner t) (Market.tokens market) = Some winner /\
     "YES"%string <> Str.toUpperCase (Token.outcome winner)) /\
  JsDate.localFields (-18000) (taxYearEndOf (-18000) 2024) = (2024, 11, 31) /\
  (taxYearEndOf (-18000) 2024 + -18000) mod 86400 = 23 * 3600 + 59 * 60 + 59 /\
  formatDate (-18000) (taxYearEndOf (-18000) 2024) = "12/31/2024"%string.
Proof.
  split.
  - apply (proj1 (proj1 C4_worthless_positions_are_written_off float binary64 0
                    Examples.noMarkets)
             (Examples.resolved [])
             (openPosition "0xc1-yes"
                [newLot (Examples.buy 1600000000 "0xc1" "yes" 1 0.125)])).
    + reflexivity.
    + intros market Hm. vm_compute in Hm. injection Hm as <-.
      repeat constructor.
  - apply (proj1 (proj2 C4_worthless_positions_are_written_off) (-18000) 2024).
    + right. reflexivity.
    + lia.
Defined.

(* ===================================================================== *)
(** ** C5: gain/loss against the stored proceeds and cost basis *)
(* ===================================================================== *)

(** C5, as stated, fails: gainLoss is rounded from the unrounded difference,
    not from the stored fields.  Buying 1 unit for 0.996 and selling it for
    1.004 stores proceeds 1.00, cost basis 1.00 and gainLoss 0.01, while
    [round (1.00 - 1.00)] is 0; the entry is no write-off (its proceeds are
    not 0). *)
Lemma C5_counterexample_gain_from_unrounded_amounts :
  exists e,
    Report.shortTerm
      (generateTaxReport 0 Examples.noMarkets
         [Examples.buy 1700000000 "0xc1" "Yes" 1 0.996;
          Examples.sell 1700086400 "0xc1" "Yes" 1 1.004] 2023) = [e] /\
    amounts e = (1, 1, 0.01)%float /\
    Entry.proceeds e <> 0%float /\
    Entry.gainLoss e <> round (Entry.proceeds e - Entry.costBasis e)%num.
Proof.
  eexists. split; [vm_compute; reflexivity|]. split; [reflexivity|].
  split; apply float_neq; vm_compute; reflexivity.
Qed.

(** C5, amended.  Every entry of the final report is of one of three kinds.
    A FIFO match of [qty] units stores [proceeds = round (qty * ppt)],
    [costBasis = round (qty * cpt)] and
    [gainLoss = round (qty * ppt - qty * cpt)], the difference of the unrounded
    amounts.  An oversell entry stores [costBasis = 0] and
    [gainLoss = proceeds = round (r * ppt)].  A worthless write-off stores
    [proceeds = 0] and [gainLoss = - costBasis]. *)
Theorem C5_entry_amounts {num : Type} {N : Number num} :
  forall tz fetchMarketsBatch (trades : list (PolymarketTrade num)) taxYear,
    let report := generateTaxReport tz fetchMarketsBatch trades taxYear in
    Forall EntryKind (Report.shortTerm report) /\
    Forall EntryKind (Report.longTerm report) /\
    (forall e : Form8949Entry num, EntryKind e ->
       (exists p c, Entry.proceeds e = round p /\ Entry.costBasis e = round c /\
                    Entry.gainLoss e = round (p - c)%num) \/
       (Entry.costBasis e = nzero /\ Entry.gainLoss e = Entry.proceeds e) \/
       (Entry.proceeds e = nzero /\ Entry.gainLoss e = (- Entry.costBasis e)%num)).
Proof.
  intros tz fetch trades taxYear report.
  destruct (generateTaxReport_entries tz fetch trades taxYear) as (Hs & Hl & _).
  fold report in Hs, Hl. rewrite Hs, Hl.
  split; [|split].
  - apply Forall_filter_of, allEntries_kinds.
  - apply Forall_filter_of, allEntries_kinds.
  - intros e [qty ppt cpt Hp Hc Hg | r ppt Hp Hc Hg | q cpt Hp Hc Hg].
    + left. eauto.
    + right; left. split; congruence.
    + right; right. split; congruence.
Qed.

(* ===================================================================== *)
(** ** C6: summaries *)
(* ===================================================================== *)

(** C6, as stated, fails twice.  A total is not the sum of the fields: after
    a BUY of no units, whose unit cost [0 / 0] is [NaN], a SELL of 1 unit
    gives an entry with cost basis and gain [NaN] and an oversell entry
    (1, 0, 1); the sum of the cost bases is [NaN], and the total stored is 0,
    for [sumBy] reads a field that is [NaN] as 0.  And a total is not rounded
    half away from zero: for a loss of 41587329086265.05 the sum times 100 is
    -4158732908626504.5 on binary64, a tie, which [Math.round] takes up to
    -4158732908626504, so that the total is -41587329086265.04, one cent
    above the loss it sums, where half away from zero gives
    -4158732908626505. *)
Lemma C6_counterexample_nan_is_skipped_and_ties_go_up :
  (let report := generateTaxReport 0 Examples.noMarkets Examples.zeroThenSell 2020 in
   map amounts (Report.shortTerm report) = [(0, nan, nan); (1, 0, 1)]%float /\
   Report.longTerm report = [] /\
   Report.shortTermSummary report = Summary.mk 2 1%float 0%float 1%float /\
   Report.totalGainLoss report = 1%float /\
   fold_left PrimFloat.add (map Entry.costBasis (Report.shortTerm report)) 0%float = nan /\
   fold_left PrimFloat.add (map Entry.gainLoss (Report.shortTerm report)) 0%float = nan) /\
  (let report := generateTaxReport 0 Examples.noMarkets Examples.hugeLoss 2020 in
   map amounts (Report.shortTerm report)
   = [(0, 41587329086265.06, -41587329086265.05)]%float /\
   Report.longTerm report = [] /\
   sumBy (Report.shortTerm report) Entry.gainLoss = (-41587329086265.05)%float /\
   (-41587329086265.05 * 100)%float = (-4158732908626504.5)%float /\
   Js.round_to_integer (-4158732908626504.5) = (-4158732908626504)%float /\
   Summary.totalGainLoss (Report.shortTermSummary report) = (-41587329086265.04)%float /\
   Report.totalGainLoss report = (-41587329086265.04)%float).
Proof.
  vm_compute. repeat split.
Qed.

(** C6, amended.  With [all] the report's entries in the order they were
    pushed, [shortTerm] and [longTerm] are its two partitions by the long-term
    flag.  Each partition's summary has [count] the partition's length and
    [totalProceeds], [totalCostBasis], [totalGainLoss] the [sumBy] of the
    field over the partition passed through [round];
    [totalTransactions] is [len(shortTerm) + len(longTerm)]; and the grand
    [totalGainLoss] is [round] of the [sumBy] over [all], computed on its
    own.  On binary64 each of these seven totals is, up to the sign of a
    zero, [round] of the sum from left to right of the fields that are
    numbers: a field that is [NaN] is left out and does not make the total
    [NaN].  [round x] is [Math.round(x * 100) / 100], and [Math.round] takes a
    tie to the integer above it, 2.5 to 3 and -2.5 to -2, not away from
    zero.  The grand total can differ from the sum of the two partition
    totals: for a long-term gain of 0.20 and a short-term gain of 0.10 it is
    0.3, while 0.1 + 0.2 is 0.30000000000000004. *)
Theorem C6_summaries_round_the_sums_of_the_numbers :
  (forall (num : Type) (N : Number num) tz fetchMarketsBatch
          (trades : list (PolymarketTrade num)) taxYear,
     let report := generateTaxReport tz fetchMarketsBatch trades taxYear in
     let all := allEntries tz fetchMarketsBatch trades taxYear in
     let st := Report.shortTerm report in
     let lt := Report.longTerm report in
     st = filter (fun e => negb (Entry.isLongTerm e)) all /\
     lt = filter (fun e => Entry.isLongTerm e) all /\
     Report.shortTermSummary report
     = Summary.mk (List.length st) (round (sumBy st Entry.proceeds))
                  (round (sumBy st Entry.costBasis)) (round (sumBy st Entry.gainLoss)) /\
     Report.longTermSummary report
     = Summary.mk (List.length lt) (round (sumBy lt Entry.proceeds))
                  (round (sumBy lt Entry.costBasis)) (round (sumBy lt Entry.gainLoss)) /\
     Report.totalTransactions report = (List.length st + List.length lt)%nat /\
     Report.totalGainLoss report = round (sumBy all Entry.gainLoss) /\
     (forall x : num, round x = (Math_round (x * nhundred) / nhundred)%num)) /\
  (forall tz fetchMarketsBatch (trades : list (PolymarketTrade float)) taxYear,
     let report := generateTaxReport tz fetchMarketsBatch trades taxYear in
     let all := allEntries tz fetchMarketsBatch trades taxYear in
     let st := Report.shortTerm report in
     let lt := Report.longTerm report in
     let short := Report.shortTermSummary report in
     let long := Report.longTermSummary report in
     Summary.count short = List.length st /\
     Js.sameNumber (Summary.totalProceeds short)
                   (round (sumOfNumbers (map Entry.proceeds st))) /\
     Js.sameNumber (Summary.totalCostBasis short)
                   (round (sumOfNumbers (map Entry.costBasis st))) /\
     Js.sameNumber (Summary.totalGainLoss short)
                   (round (sumOfNumbers (map Entry.gainLoss st))) /\
     Summary.count long = List.length lt /\
     Js.sameNumber (Summary.totalProceeds long)
                   (round (sumOfNumbers (map Entry.proceeds lt))) /\
     Js.sameNumber (Summary.totalCostBasis long)
                   (round (sumOfNumbers (map Entry.costBasis lt))) /\
     Js.sameNumber (Summary.totalGainLoss long)
                   (round (sumOfNumbers (map Entry.gainLoss lt))) /\
     Js.sameNumber (Report.totalGainLoss report)
                   (round (sumOfNumbers (map Entry.gainLoss all)))) /\
  ((forall x : float, round x = (Js.round_to_integer (x * 100) / 100)%float) /\
   map Js.round_to_integer [0.5; 1.5; 2.5; -0.5; -1.5; -2.5]%float
   = [1; 2; 3; neg_zero; -1; -2]%float) /\
  (let report := generateTaxReport 0 Examples.noMarkets Examples.twoGains 2021 in
   Summary.totalGainLoss (Report.shortTermSummary report) = 0.1%float /\
   Summary.totalGainLoss (Report.longTermSummary report) = 0.2%float /\
   Report.totalGainLoss report = 0.3%float /\
   (0.1 + 0.2)%float = 0.30000000000000004%float /\
   Report.totalGainLoss report
   <> (Summary.totalGainLoss (Report.shortTermSummary report)
       + Summary.totalGainLoss (Report.longTermSummary report))%float).
Proof.
  split; [|split; [|split]].
  - intros num N tz fetch trades taxYear report all st lt.
    destruct (generateTaxReport_entries tz fetch trades taxYear)
      as (Hs & Hl & Hss & Hls & Ht & Hg).
    fold report in Hs, Hl, Hss, Hls, Ht, Hg. fold all in Hs, Hl, Ht, Hg.
    repeat split; try assumption.
    + rewrite Ht. unfold st, lt. rewrite Hs, Hl. apply length_partition.
  - intros tz fetch trades taxYear report all st lt short long.
    destruct (generateTaxReport_entries tz fetch trades taxYear)
      as (Hs & Hl & Hss & Hls & Ht & Hg).
    fold report in Hs, Hl, Hss, Hls, Ht, Hg. fold all in Hs, Hl, Ht, Hg.
    unfold short, long. rewrite Hss, Hls, Hg. unfold calculateSummary.
    cbn [Summary.count Summary.totalProceeds Summary.totalCostBasis Summary.totalGainLoss].
    fold st. fold lt.
    repeat split; apply SumFacts.round_sumBy_numbers.
  - split; [reflexivity | vm_compute; reflexivity].
  - vm_compute. repeat split. apply float_neq. vm_compute. reflexivity.
Qed.

(* ===================================================================== *)
(** ** C7: trades of quantity zero *)
(* ===================================================================== *)

(** C7, as stated, fails: nothing guards a quantity of zero.  A BUY of 0
    units (for 0 USDC) with a conditionId and an outcome passes normalization
    with its size still 0 and reaches the engine, which stores a lot whose
    unit cost [0 / 0] is [NaN]. *)
Lemma C7_counterexample_zero_quantity_reaches_the_engine :
  let zeroBuy := Examples.buy 1600000000 "0xc1" "Yes" 0 0 in
  exists t lot,
    normalizeTrade zeroBuy = Some t /\
    Trade.size t = 0%float /\
    sortByTimestamp (normalizeAll [zeroBuy]) = [t] /\
    inventory (processTrades 0 [t]) = [("0xc1-Yes"%string, [lot])] /\
    Lot.costBasisPerToken lot = nan /\
    is_finite (Lot.costBasisPerToken lot) = false.
Proof.
  cbv zeta. eexists. eexists.
  split; [vm_compute; reflexivity|].
  split; [reflexivity|].
  split; [vm_compute; reflexivity|].
  split; [vm_compute; reflexivity|].
  split; reflexivity.
Qed.

(** C7, amended.  Normalization drops a trade exactly when its conditionId or
    its outcome is empty, and never changes a trade's size; it neither rejects
    nor skips a quantity of zero.  A zero-quantity trade that has both fields
    therefore reaches the engine, where a BUY stores a lot whose unit cost
    [usdcSize / 0] is not finite, and a SELL has unit proceeds [usdcSize / 0],
    not finite either, but matches nothing: it leaves the inventory's queues as
    they are and yields no entry and no warning. *)
Theorem C7_zero_quantity_is_not_guarded :
  (forall trade : PolymarketTrade float,
     normalizeTrade trade = None <->
     Trade.conditionId trade = ""%string \/ Trade.outcome trade = ""%string) /\
  (forall trade t : PolymarketTrade float,
     normalizeTrade trade = Some t -> Trade.size t = Trade.size trade) /\
  (forall trade : PolymarketTrade float,
     is_zero (Trade.size trade) = true ->
     is_finite (Lot.costBasisPerToken (newLot trade)) = false /\
     is_finite (Trade.usdcSize trade / Trade.size trade)%num = false /\
     forall tz (inventory : Inventory) key,
       exists inventory',
         matchSellToBuys tz inventory key trade = (inventory', [], None) /\
         forall k, queueOf inventory' k = queueOf inventory k).
Proof.
  split; [|split].
  - intros trade. unfold normalizeTrade.
    destruct (String.eqb (Trade.conditionId trade) "") eqn:Ec;
      destruct (String.eqb (Trade.outcome trade) "") eqn:Eo; simpl;
      rewrite ?String.eqb_eq, ?String.eqb_neq in *.
    + tauto.
    + tauto.
    + tauto.
    + destruct (Trade.type trade); split; try discriminate; intros [H | H]; contradiction.
  - intros trade t. unfold normalizeTrade.
    destruct (_ || _)%bool; [discriminate|].
    destruct (Trade.type trade); intros H; injection H as <-; reflexivity.
  - intros trade Hz. split; [|split].
    + apply ZeroFacts.div_zero_not_finite, Hz.
    + apply ZeroFacts.div_zero_not_finite, Hz.
    + intros tz inventory key. unfold matchSellToBuys.
      rewrite matchLoop_exit by (apply ZeroFacts.zero_not_above, Hz).
      simpl. rewrite (ZeroFacts.zero_not_above _ Hz).
      eexists. split; [reflexivity|].
      intros k. unfold queueOf.
      destruct (Inv.get key inventory) as [q|] eqn:Eq; [|reflexivity].
      destruct (String.eqb key k) eqn:Ek.
      * apply String.eqb_eq in Ek. subst k. rewrite Inv_get_set_same, Eq. reflexivity.
      * apply String.eqb_neq in Ek. rewrite Inv_get_set_other by assumption. reflexivity.
Qed.

(** C7 at work on a SELL of 0 units for 1 USDC. *)
Lemma C7_zero_quantity_witness :
  is_finite (Lot.costBasisPerToken (newLot (Examples.sell 1600000000 "0xc1" "Yes" 0 1)))
  = false /\
  is_finite (1 / 0)%float = false /\
  forall tz (inventory : Inventory) key,
    exists inventory',
      matchSellToBuys tz inventory key (Examples.sell 1600000000 "0xc1" "Yes" 0 1)
      = (inventory', [], None) /\
      forall k, queueOf inventory' k = queueOf inventory k.
Proof.
  apply (proj2 (proj2 C7_zero_quantity_is_not_guarded)
           (Examples.sell 1600000000 "0xc1" "Yes" 0 1)).
  reflexivity.
Defined.

(* ===================================================================== *)
(** ** C8: the report and the order of the input *)
(* ===================================================================== *)

(** C8, as stated, fails: two orders of the same trades can give different
    reports.  The sort is stable, so two buys of one timestamp are matched in
    the order of the input: with the buy at 1.0 first the sell of 12 realises
    gains of 20 and 2, with the buy at 2.0 first gains of 10 and 4. *)
Lemma C8_counterexample_ties_keep_input_order :
  Permutation Examples.cheapFirst Examples.dearFirst /\
  map amounts (Report.shortTerm
                 (generateTaxReport 0 Examples.noMarkets Examples.cheapFirst 2023))
  = [(30, 10, 20); (6, 4, 2)]%float /\
  map amounts (Report.shortTerm
                 (generateTaxReport 0 Examples.noMarkets Examples.dearFirst 2023))
  = [(30, 20, 10); (6, 2, 4)]%float /\
  generateTaxReport 0 Examples.noMarkets Examples.cheapFirst 2023
  <> generateTaxReport 0 Examples.noMarkets Examples.dearFirst 2023.
Proof.
  split; [apply perm_swap|].
  split; [vm_compute; reflexivity|]. split; [vm_compute; reflexivity|].
  intros H.
  apply (f_equal (fun r => match Report.shortTerm r with
                           | e :: _ => Entry.costBasis e
                           | [] => 0%float
                           end)) in H.
  vm_compute in H. revert H. apply float_neq. vm_compute. reflexivity.
Qed.

(** C8, amended.  With the host's time zone and the answer of the market
    lookup fixed, the report is a function of the trade list and the tax year
    (the computation reads no clock and keeps no state between runs), and it
    depends on the list only through the stable sort of its normalized trades:
    two lists whose normalized trades agree, timestamp by timestamp, on which
    trades they hold and in which order, give the same report.  In particular
    any two permutations of trades whose normalized timestamps are pairwise
    distinct give the same report; trades of equal timestamps are processed
    in input order. *)
Theorem C8_report_depends_on_stable_order {num : Type} {N : Number num} :
  forall tz fetchMarketsBatch (l1 l2 : list (PolymarketTrade num)) taxYear,
    (l1 = l2 ->
     generateTaxReport tz fetchMarketsBatch l1 taxYear
     = generateTaxReport tz fetchMarketsBatch l2 taxYear) /\
    ((forall t, atTime t (normalizeAll l1) = atTime t (normalizeAll l2)) ->
     generateTaxReport tz fetchMarketsBatch l1 taxYear
     = generateTaxReport tz fetchMarketsBatch l2 taxYear) /\
    (Permutation l1 l2 ->
     NoDup (map Trade.timestamp (normalizeAll l1)) ->
     generateTaxReport tz fetchMarketsBatch l1 taxYear
     = generateTaxReport tz fetchMarketsBatch l2 taxYear) /\
    (forall t,
       atTime t (sortByTimestamp (normalizeAll l1)) = atTime t (normalizeAll l1)) /\
    StronglySorted earlier (sortByTimestamp (normalizeAll l1)).
Proof.
  intros tz fetch l1 l2 taxYear.
  assert (Hext : (forall t, atTime t (normalizeAll l1) = atTime t (normalizeAll l2)) ->
                 generateTaxReport tz fetch l1 taxYear = generateTaxReport tz fetch l2 taxYear).
  { intros Heq. unfold generateTaxReport.
    rewrite (sortByTimestamp_ext _ _ Heq). reflexivity. }
  split; [intros ->; reflexivity|]. split; [exact Hext|]. split; [|split].
  - intros HP Hnd. apply Hext. intros t.
    apply atTime_Permutation_NoDup; [apply normalizeAll_Permutation, HP | exact Hnd].
  - intros t. apply sortByTimestamp_stable.
  - apply sortByTimestamp_sorted.
Qed.

(** C8 at work: the FIFO example and its reversal. *)
Lemma C8_report_order_witness :
  generateTaxReport 0 Examples.noMarkets Examples.fifoTrades 2023
  = generateTaxReport 0 Examples.noMarkets (rev Examples.fifoTrades) 2023.
Proof.
  apply (proj1 (proj2 (proj2
           (C8_report_depends_on_stable_order (N := binary64) 0 Examples.noMarkets
              Examples.fifoTrades (rev Examples.fifoTrades) 2023)))).
  - apply Permutation_rev.
  - vm_compute. repeat constructor; simpl; intuition discriminate.
Defined.

(* ===================================================================== *)
(** ** C9: open positions *)
(* ===================================================================== *)

(** C9.  [collectOpenPositions] builds one position per key whose queue is not
    empty, in the order of the inventory; its quantity is the [sumBy] of the
    lots' remaining quantities, it lists exactly those lots, and its title is
    the first lot's.  Its costBasis, however, is the [sumBy] of the lots'
    [totalCostBasis], which is the cost of the whole BUY and which matching
    never updates ([Lot.set_quantity] leaves it as it is): after B1 (10 at 1.0),
    B2 (10 at 2.0) and a sell of 12, the position holds 8 units of B2 and
    reports costBasis 20, not the 16 that the 8 units cost, which is what the
    write-off of the same lot would use ([quantity * costBasisPerToken]). *)
Theorem C9_open_position_cost_basis_is_stale :
  (forall (num : Type) (N : Number num) (inventory : Inventory),
     collectOpenPositions inventory
     = map (fun kl => openPosition (fst kl) (snd kl))
           (filter (fun kl => match snd kl with [] => false | _ :: _ => true end)
                   inventory)) /\
  (forall (num : Type) (N : Number num) key (lots : list (InventoryLot num)),
     let p := openPosition key lots in
     Position.positionKey p = key /\
     Position.quantity p = sumBy lots Lot.quantity /\
     Position.costBasis p = sumBy lots Lot.totalCostBasis /\
     Position.lots p = lots /\
     Position.title p = match lots with lot :: _ => Lot.marketTitle lot | [] => ""%string end) /\
  (forall (num : Type) (q : num) (lot : InventoryLot num),
     Lot.totalCostBasis (Lot.set_quantity q lot) = Lot.totalCostBasis lot) /\
  (let report := generateTaxReport 0 Examples.noMarkets Examples.fifoTrades 2023 in
   exists p lot,
     Report.openPositions report = [p] /\
     Position.lots p = [lot] /\
     Lot.quantity lot = 8%float /\
     Lot.costBasisPerToken lot = 2%float /\
     Position.quantity p = 8%float /\
     Position.costBasis p = 20%float /\
     (Lot.quantity lot * Lot.costBasisPerToken lot)%float = 16%float /\
     amounts (worthlessEntry 0 p (taxYearEndOf 0 2023) lot) = (0, 16, -16)%float).
Proof.
  split; [|split; [|split]].
  - intros. apply collectOpenPositions_map.
  - intros. repeat split.
  - intros. reflexivity.
  - cbv zeta. eexists. eexists.
    split; [vm_compute; reflexivity|].
    split; [vm_compute; reflexivity|].
    vm_compute. repeat split.
Qed.

(* ===================================================================== *)
(** ** C10: position keys *)
(* ===================================================================== *)

(** C10.  The key of a trade is [conditionId + "-" + outcome], and
    [collectOpenPositions] decodes it by splitting at the dashes, taking the
    first part as conditionId and joining the rest with dashes as outcome.
    When the conditionId has no dash, the position built from the lots under a
    trade's key reports exactly the trade's conditionId and outcome, whatever
    the outcome contains.  When it has one, the decoded conditionId is what
    stands before its first dash, a proper prefix, and the rest moves into the
    outcome.  Distinct pairs can share a key and then share a queue:
    ("a-b", "c") and ("a", "b-c") give one position with both lots. *)
Theorem C10_position_key_decoding :
  (forall (num : Type) (N : Number num) (trade : PolymarketTrade num),
     positionKeyOf trade = (Trade.conditionId trade ++ "-" ++ Trade.outcome trade)%string) /\
  (forall (num : Type) (N : Number num) (inventory : Inventory)
          (trade : PolymarketTrade num) lot lots,
     Str.includes "-" (Trade.conditionId trade) = false ->
     Inv.get (positionKeyOf trade) inventory = Some (lot :: lots) ->
     exists p,
       In p (collectOpenPositions inventory) /\
       Position.positionKey p = positionKeyOf trade /\
       Position.lots p = lot :: lots /\
       Position.conditionId p = Trade.conditionId trade /\
       Position.outcome p = Trade.outcome trade) /\
  (forall (num : Type) (N : Number num) (trade : PolymarketTrade num) lots,
     Str.includes "-" (Trade.conditionId trade) = true ->
     let p := openPosition (positionKeyOf trade) lots in
     exists tail,
       Trade.conditionId trade = (Position.conditionId p ++ "-" ++ tail)%string /\
       Str.includes "-" (Position.conditionId p) = false /\
       Position.outcome p = (tail ++ "-" ++ Trade.outcome trade)%string /\
       Position.conditionId p <> Trade.conditionId trade) /\
  (let b1 := Examples.buy 1600000000 "a-b" "c" 1 1 in
   let b2 := Examples.buy 1600000001 "a" "b-c" 2 1 in
   positionKeyOf b1 = positionKeyOf b2 /\
   inventory (processTrades 0 [b1; b2]) = [("a-b-c"%string, [newLot b1; newLot b2])] /\
   map (fun p => (Position.conditionId p, Position.outcome p, List.length (Position.lots p)))
       (Report.openPositions
          (generateTaxReport 0 Examples.noMarkets Examples.collidingBuys 2020))
   = [("a"%string, "b-c"%string, 2%nat)]).
Proof.
  split; [|split; [|split]].
  - reflexivity.
  - intros num N inventory trade lot lots Hc Hget.
    exists (openPosition (positionKeyOf trade) (lot :: lots)).
    split; [|split; [|split; [|split]]]; try reflexivity.
    + rewrite collectOpenPositions_map. apply KeyFacts.Inv_get_In in Hget.
      apply (in_map (fun kl => openPosition (fst kl) (snd kl)) _ (positionKeyOf trade, lot :: lots)).
      apply filter_In. split; [exact Hget | reflexivity].
    + unfold openPosition, positionKeyOf. cbn [Position.conditionId].
      rewrite KeyFacts.split_first by assumption. reflexivity.
    + unfold openPosition, positionKeyOf. cbn [Position.outcome].
      rewrite KeyFacts.split_first by assumption. cbn [tl].
      apply KeyFacts.join_split.
  - intros num N trade lots Hc p.
    destruct (KeyFacts.includes_cut _ Hc) as (c1 & c2 & Ec & Hc1).
    assert (Hsplit : Str.split "-" (positionKeyOf trade)
                     = c1 :: Str.split "-" (c2 ++ "-" ++ Trade.outcome trade)).
    { unfold positionKeyOf. rewrite Ec, KeyFacts.append_assoc.
      change (("-" ++ c2) ++ "-" ++ Trade.outcome trade)%string
        with ("-" ++ (c2 ++ "-" ++ Trade.outcome trade))%string.
      apply KeyFacts.split_first. assumption. }
    exists c2. unfold p, openPosition.
    cbn [Position.conditionId Position.outcome]. rewrite Hsplit. cbn [hd tl].
    rewrite KeyFacts.join_split.
    split; [exact Ec|]. split; [exact Hc1|]. split; [reflexivity|].
    intros Heq. rewrite <- Heq in Hc. congruence.
  - vm_compute. repeat split.
Qed.

(** C10 at work on a trade without a dash in its conditionId. *)
Lemma C10_position_key_witness :
  exists p,
    In p (collectOpenPositions Examples.fifoInventory) /\
    Position.positionKey p = "0xc1-Yes"%string /\
    Position.lots p
    = [newLot (Examples.buy 1700000000 "0xc1" "Yes" 10 10);
       newLot (Examples.buy 1700086400 "0xc1" "Yes" 10 20)] /\
    Position.conditionId p = "0xc1"%string /\
    Position.outcome p = "Yes"%string.
Proof.
  apply (proj1 (proj2 C10_position_key_decoding) float binary64
           Examples.fifoInventory (Examples.buy 1700000000 "0xc1" "Yes" 10 10));
    reflexivity.
Defined.

(* ===================================================================== *)
(** * Further properties of the calculator and of the code around it *)
(* ===================================================================== *)

(* --------------------------------------------------------------------- *)
(** ** Every entry of a report *)

Section ReportEntries.

Context {num : Type} {N : Number num}.
Variable tz : Z.
Variable fetchMarketsBatch : list string -> string -> option (MarketData num).

#[local] Open Scope num_scope.

(** Whatever holds of the three entry constructors of the source holds of
    every entry of a report. *)
Section EntryInduction.

Variable P : Form8949Entry num -> Prop.
Hypothesis P_match : forall trade ppt lot qty, P (matchEntry tz trade ppt lot qty).
Hypothesis P_oversell : forall trade ppt r, P (oversellEntry tz trade ppt r).
Hypothesis P_worthless : forall p y lot, P (worthlessEntry tz p y lot).

Lemma matchLoop_all fuel trade ppt : forall r q,
  Forall P (fst (fst (matchLoop tz fuel trade ppt r q))).
Proof.
  induction fuel as [|fuel IH]; intros r q; cbn [matchLoop].
  - constructor.
  - destruct (r >? epsilon); [|constructor].
    destruct q as [|lot rest]; [constructor|].
    cbv zeta.
    match goal with |- context [matchLoop tz fuel trade ppt ?r' ?q'] =>
      specialize (IH r' q'); destruct (matchLoop tz fuel trade ppt r' q') as [[es r2] q2]
    end.
    cbn [fst] in *. constructor; [apply P_match | exact IH].
Qed.

Lemma matchSellToBuys_all inventory key trade :
  Forall P (snd (fst (matchSellToBuys tz inventory key trade))).
Proof.
  unfold matchSellToBuys.
  match goal with |- context [matchLoop tz ?f trade ?p ?r ?q] =>
    pose proof (matchLoop_all f trade p r q) as Hk;
    destruct (matchLoop tz f trade p r q) as [[es r2] q2]
  end.
  cbn [fst] in Hk.
  destruct (r2 >? epsilon); cbn [fst snd]; [|exact Hk].
  apply Forall_app. split; [exact Hk|]. constructor; [apply P_oversell | constructor].
Qed.

Lemma processTrade_all st trade :
  Forall P (entries st) -> Forall P (entries (processTrade tz st trade)).
Proof.
  intros H. unfold processTrade. destruct (Trade.side trade); [exact H|].
  pose proof (matchSellToBuys_all (inventory st) (positionKeyOf trade) trade) as Hm.
  destruct (matchSellToBuys tz (inventory st) (positionKeyOf trade) trade) as [[inv es] w].
  cbn [fst snd entries] in *. apply Forall_app. split; assumption.
Qed.

Lemma processTrades_all trades : Forall P (entries (processTrades tz trades)).
Proof.
  unfold processTrades.
  assert (H : forall st, Forall P (entries st) ->
                         Forall P (entries (fold_left (processTrade tz) trades st))).
  { induction trades as [|t r IH]; intros st Hst; cbn [fold_left]; [exact Hst|].
    apply IH, processTrade_all, Hst. }
  apply H. constructor.
Qed.

Lemma processWorthlessPositions_all positions y :
  Forall P (processWorthlessPositions tz fetchMarketsBatch positions y).
Proof.
  unfold processWorthlessPositions.
  generalize (fetchMarketsBatch (map Position.conditionId positions)) as marketMap.
  intros marketMap. induction positions as [|p r IH]; cbn [flat_map]; [constructor|].
  apply Forall_app. split; [|exact IH].
  destruct (isWorthless marketMap p); [|constructor].
  apply Forall_forall. intros e He. apply in_map_iff in He.
  destruct He as (lot & <- & _). apply P_worthless.
Qed.

Lemma allEntries_all trades taxYear :
  Forall P (allEntries tz fetchMarketsBatch trades taxYear).
Proof.
  unfold allEntries. apply Forall_app. split.
  - apply processTrades_all.
  - apply processWorthlessPositions_all.
Qed.

End EntryInduction.

(** An invariant of the engine state holds after any run. *)
Lemma processTrades_invariant (I : Engine -> Prop) :
  I (mkEngine [] [] []) ->
  (forall st t, I st -> I (processTrade tz st t)) ->
  forall trades, I (processTrades tz trades).
Proof.
  intros H0 Hstep trades. unfold processTrades.
  revert H0. generalize (mkEngine (num := num) [] [] []) as st.
  induction trades as [|t r IH]; intros st Hst; cbn [fold_left]; [exact Hst|].
  apply IH, Hstep, Hst.
Qed.

End ReportEntries.

(* --------------------------------------------------------------------- *)
(** ** Terms and holding days *)

Lemma Forall_filter_both {A : Type} (P : A -> Prop) (f : A -> bool) (l : list A) :
  Forall P l -> Forall (fun a => f a = true /\ P a) (filter f l).
Proof.
  intros H. apply Forall_forall. intros a Ha. apply filter_In in Ha.
  rewrite Forall_forall in H. split; [tauto | apply H; tauto].
Qed.

Lemma days_threshold a : (365 <=? a / 86400) = (31536000 <=? a).
Proof.
  destruct (31536000 <=? a) eqn:E.
  - apply Z.leb_le in E. apply Z.leb_le. Z.to_euclidean_division_equations; lia.
  - apply Z.leb_gt in E. apply Z.leb_gt. Z.to_euclidean_division_equations; lia.
Qed.

(** X1.  In every report, each entry of [shortTerm] has [isLongTerm] false and
    fewer than 365 holding days, and each entry of [longTerm] has [isLongTerm]
    true and at least 365 holding days, whatever its kind.  For a FIFO match,
    [holdingDays] is the number of whole days of 86400 seconds from the
    acquisition of the lot to the sale, and [isLongTerm] holds exactly when at
    least 365 such days, 31536000 seconds, have passed. *)
Theorem holding_days_decide_the_term {num : Type} {N : Number num} :
  forall tz fetchMarketsBatch (trades : list (PolymarketTrade num)) taxYear,
    let report := generateTaxReport tz fetchMarketsBatch trades taxYear in
    Forall (fun e => Entry.isLongTerm e = false /\ Entry.holdingDays e < 365)
           (Report.shortTerm report) /\
    Forall (fun e => Entry.isLongTerm e = true /\ 365 <= Entry.holdingDays e)
           (Report.longTerm report) /\
    (forall trade ppt lot qty,
       let e := matchEntry tz trade ppt lot qty in
       Entry.holdingDays e = (Trade.timestamp trade - Lot.acquisitionDate lot) / 86400 /\
       Entry.isLongTerm e
       = (31536000 <=? Trade.timestamp trade - Lot.acquisitionDate lot)).
Proof.
  intros tz fetch trades taxYear report.
  destruct (generateTaxReport_entries tz fetch trades taxYear) as (Hs & Hl & _).
  fold report in Hs, Hl.
  assert (Hall : Forall (fun e : Form8949Entry num =>
                           Entry.isLongTerm e = (365 <=? Entry.holdingDays e))
                        (allEntries tz fetch trades taxYear)).
  { apply allEntries_all; intros; reflexivity. }
  split; [|split].
  - rewrite Hs. apply Forall_forall. intros e He. apply filter_In in He.
    destruct He as [He Hn]. rewrite Forall_forall in Hall. specialize (Hall e He).
    apply negb_true_iff in Hn. split; [exact Hn|].
    rewrite Hn in Hall. symmetry in Hall. apply Z.leb_gt in Hall. exact Hall.
  - rewrite Hl. apply Forall_forall. intros e He. apply filter_In in He.
    destruct He as [He Hn]. rewrite Forall_forall in Hall. specialize (Hall e He).
    split; [exact Hn|].
    rewrite Hn in Hall. symmetry in Hall. apply Z.leb_le in Hall. exact Hall.
  - intros trade ppt lot qty e. split; [reflexivity|].
    unfold e, matchEntry. cbn [Entry.isLongTerm]. apply days_threshold.
Qed.

(* --------------------------------------------------------------------- *)
(** ** Warnings and entries without a lot *)

Module TextFacts.

Lemma includes_app c a b :
  Str.includes c (a ++ b) = (Str.includes c a || Str.includes c b)%bool.
Proof.
  induction a as [|x a IH]; cbn [append Str.includes]; [reflexivity|].
  rewrite IH, orb_assoc. reflexivity.
Qed.

End TextFacts.

Section Sentinel.

Context {num : Type} {N : Number num}.
Variable tz : Z.
Variable fetchMarketsBatch : list string -> string -> option (MarketData num).

Lemma formatDate_has_slash t : Str.includes "/" (formatDate tz t) = true.
Proof.
  unfold formatDate. destruct (JsDate.localFields tz t) as [[y m] d].
  rewrite TextFacts.includes_app.
  replace (Str.includes "/" ("/" ++ Str.padStart2 (Str.ofZ d) ++ "/" ++ Str.ofZ y)) with true
    by reflexivity.
  apply orb_true_r.
Qed.

Lemma formatDate_not_VARIOUS t : formatDate tz t <> "VARIOUS"%string.
Proof.
  intros H. pose proof (formatDate_has_slash t) as Hs. rewrite H in Hs. discriminate.
Qed.

Lemma formatDate_isVarious_false t d s (p c g : num) l h :
  isVarious (Entry.mk d (formatDate tz t) s p c g l h) = false.
Proof.
  unfold isVarious. cbn [Entry.dateAcquired]. apply String.eqb_neq, formatDate_not_VARIOUS.
Qed.

Lemma filter_nil_of {A : Type} (f : A -> bool) (l : list A) :
  Forall (fun a => f a = false) l -> filter f l = [].
Proof.
  induction 1 as [|a l Ha _ IH]; cbn [filter]; [reflexivity|]. rewrite Ha. exact IH.
Qed.

Lemma filter_filter_of {A : Type} (f g : A -> bool) (l : list A) :
  Forall (fun a => f a = true -> g a = true) l -> filter f (filter g l) = filter f l.
Proof.
  induction 1 as [|a l Ha _ IH]; cbn [filter]; [reflexivity|].
  destruct (g a) eqn:Eg; cbn [filter].
  - rewrite IH. reflexivity.
  - destruct (f a) eqn:Ef; [specialize (Ha eq_refl); discriminate | exact IH].
Qed.

Lemma matchLoop_no_various fuel trade ppt r q :
  filter isVarious (fst (fst (matchLoop tz fuel trade ppt r q))) = [].
Proof.
  apply filter_nil_of, matchLoop_all. intros. apply formatDate_isVarious_false.
Qed.

(** One warning for each "VARIOUS" entry, at every step of the engine. *)
Lemma processTrades_various trades :
  let st := processTrades tz trades in
  List.length (warnings st) = List.length (filter isVarious (entries st)).
Proof.
  apply (processTrades_invariant tz
           (fun st => List.length (warnings st) = List.length (filter isVarious (entries st)))).
  - reflexivity.
  - intros st t H. unfold processTrade. destruct (Trade.side t); [exact H|].
    unfold matchSellToBuys.
    match goal with |- context [matchLoop tz ?f t ?p ?r ?q] =>
      pose proof (matchLoop_no_various f t p r q) as Hk;
      destruct (matchLoop tz f t p r q) as [[es r2] q2]
    end.
    cbn [fst] in Hk.
    destruct (nltb epsilon r2); cbn [entries warnings].
    + rewrite !filter_app, Hk, !length_app, H. reflexivity.
    + rewrite filter_app, Hk, app_nil_r. exact H.
Qed.

End Sentinel.

(** X2.  A report has as many warnings as [shortTerm] has entries acquired on
    VARIOUS, and [longTerm] has none of these; such an entry has cost basis 0,
    a gain equal to its proceeds and 0 holding days; and [formatDate] never
    yields the text VARIOUS, so that no dated entry is taken for one. *)
Theorem one_warning_per_VARIOUS_entry {num : Type} {N : Number num} :
  forall tz fetchMarketsBatch (trades : list (PolymarketTrade num)) taxYear,
    let report := generateTaxReport tz fetchMarketsBatch trades taxYear in
    List.length (Report.warnings report)
    = List.length (filter isVarious (Report.shortTerm report)) /\
    filter isVarious (Report.longTerm report) = [] /\
    Forall (fun e => isVarious e = true ->
                     Entry.costBasis e = nzero /\ Entry.gainLoss e = Entry.proceeds e /\
                     Entry.holdingDays e = 0)
           (Report.shortTerm report) /\
    (forall timestamp, formatDate tz timestamp <> "VARIOUS"%string).
Proof.
  intros tz fetch trades taxYear report.
  destruct (generateTaxReport_entries tz fetch trades taxYear) as (Hs & Hl & _).
  fold report in Hs, Hl.
  assert (Hall : Forall (fun e : Form8949Entry num =>
                           isVarious e = true ->
                           Entry.isLongTerm e = false /\ Entry.costBasis e = nzero /\
                           Entry.gainLoss e = Entry.proceeds e /\ Entry.holdingDays e = 0)
                        (allEntries tz fetch trades taxYear)).
  { apply allEntries_all.
    - intros trade ppt lot qty H. unfold matchEntry in H.
      rewrite formatDate_isVarious_false in H. discriminate.
    - intros trade ppt r _. repeat split.
    - intros p y lot H. unfold worthlessEntry in H.
      rewrite formatDate_isVarious_false in H. discriminate. }
  split; [|split; [|split]].
  - rewrite Hs, filter_filter_of.
    + unfold allEntries. rewrite filter_app.
      rewrite (filter_nil_of isVarious (processWorthlessPositions _ _ _ _)).
      * rewrite app_nil_r. apply processTrades_various.
      * apply processWorthlessPositions_all. intros. apply formatDate_isVarious_false.
    + eapply Forall_impl; [|exact Hall]. intros e He Hv.
      destruct (He Hv) as [-> _]. reflexivity.
  - rewrite Hl. apply filter_nil_of. apply Forall_forall. intros e He.
    apply filter_In in He. destruct He as [He Hlt]. rewrite Forall_forall in Hall.
    destruct (isVarious e) eqn:Ev; [|reflexivity].
    destruct (Hall e He Ev) as [Hf _]. congruence.
  - rewrite Hs. apply Forall_filter_of. eapply Forall_impl; [|exact Hall].
    intros e He Hv. destruct (He Hv) as (_ & H1 & H2 & H3). auto.
  - apply formatDate_not_VARIOUS.
Qed.

(* --------------------------------------------------------------------- *)
(** ** The queue of one key *)

Module InvFacts.

Section InvFacts.
Context {V : Type}.

Lemma get_None key (m : list (string * V)) :
  Inv.get key m = None <-> ~ In key (map fst m).
Proof.
  induction m as [|[k v] m IH]; cbn [Inv.get map fst In]; [tauto|].
  destruct (String.eqb k key) eqn:E.
  - apply String.eqb_eq in E. split; [discriminate | tauto].
  - apply String.eqb_neq in E. rewrite IH. tauto.
Qed.

Lemma keys_set key (v : V) (m : list (string * V)) :
  map fst (Inv.set key v m)
  = match Inv.get key m with
    | Some _ => map fst m
    | None => map fst m ++ [key]
    end.
Proof.
  induction m as [|[k w] m IH]; cbn [Inv.get Inv.set map fst app]; [reflexivity|].
  destruct (String.eqb k key); [reflexivity|].
  cbn [map fst]. rewrite IH. destruct (Inv.get key m); reflexivity.
Qed.

Lemma NoDup_set key (v : V) (m : list (string * V)) :
  NoDup (map fst m) -> NoDup (map fst (Inv.set key v m)).
Proof.
  intros H. rewrite keys_set. destruct (Inv.get key m) eqn:E; [exact H|].
  apply get_None in E. apply NoDup_app; [exact H | repeat constructor; intros [] |].
  intros x Hx [<- | []]. contradiction.
Qed.

Lemma get_In_NoDup key (v : V) (m : list (string * V)) :
  NoDup (map fst m) -> In (key, v) m -> Inv.get key m = Some v.
Proof.
  induction m as [|[k w] m IH]; cbn [Inv.get map fst In]; [tauto|].
  intros Hnd [Heq | Hin].
  - injection Heq as -> ->. rewrite String.eqb_refl. reflexivity.
  - inversion Hnd as [|? ? Hk Hnd']; subst.
    destruct (String.eqb k key) eqn:E.
    + apply String.eqb_eq in E. subst k. exfalso. apply Hk.
      apply (in_map fst) in Hin. exact Hin.
    + apply IH; assumption.
Qed.

End InvFacts.

End InvFacts.

Section Queues.

Context {num : Type} {N : Number num}.
Variable tz : Z.

#[local] Open Scope num_scope.

Lemma queue_after_set (inventory : @Inventory num) key k q :
  queueOf (Inv.set key q inventory) k
  = if String.eqb key k then q else queueOf inventory k.
Proof.
  unfold queueOf. destruct (String.eqb key k) eqn:E.
  - apply String.eqb_eq in E. subst k. rewrite Inv_get_set_same. reflexivity.
  - apply String.eqb_neq in E. rewrite Inv_get_set_other by assumption. reflexivity.
Qed.

Lemma queue_after_buy (inventory : @Inventory num) (trade : PolymarketTrade num) key k :
  queueOf (addToInventory inventory key trade) k
  = if String.eqb key k then queueOf inventory k ++ [newLot trade]
    else queueOf inventory k.
Proof.
  unfold addToInventory.
  destruct (Inv.get key inventory) as [q|] eqn:Eq; rewrite queue_after_set;
    destruct (String.eqb key k) eqn:E; try reflexivity;
    apply String.eqb_eq in E; subst k; unfold queueOf; rewrite Eq; reflexivity.
Qed.

Lemma queue_after_sell (inventory : @Inventory num) (trade : PolymarketTrade num) key k :
  queueOf (fst (fst (matchSellToBuys tz inventory key trade))) k
  = if String.eqb key k
    then snd (runLoop tz trade (Trade.usdcSize trade / Trade.size trade)
                (Trade.size trade) (queueOf inventory key))
    else queueOf inventory k.
Proof.
  unfold matchSellToBuys, runLoop. fold (queueOf inventory key).
  destruct (matchLoop tz (passes (queueOf inventory key)) trade
              (Trade.usdcSize trade / Trade.size trade) (Trade.size trade)
              (queueOf inventory key)) as [[es r2] q2] eqn:El.
  assert (H : queueOf (match Inv.get key inventory with
                       | Some _ => Inv.set key q2 inventory
                       | None => inventory
                       end) k
              = if String.eqb key k then q2 else queueOf inventory k).
  { destruct (Inv.get key inventory) as [q|] eqn:Eq.
    - apply queue_after_set.
    - destruct (String.eqb key k) eqn:E; [|reflexivity].
      apply String.eqb_eq in E. subst k.
      unfold queueOf in El |- *. rewrite Eq in El |- *.
      cbn in El. destruct (nltb epsilon (Trade.size trade)); injection El as _ _ <-; reflexivity. }
  destruct (r2 >? epsilon); cbn [fst snd]; exact H.
Qed.

Lemma queue_after_trade st (trade : PolymarketTrade num) k :
  queueOf (inventory (processTrade tz st trade)) k
  = if String.eqb (positionKeyOf trade) k
    then queueStep tz (queueOf (inventory st) k) trade
    else queueOf (inventory st) k.
Proof.
  unfold processTrade, queueStep. destruct (Trade.side trade).
  - cbn [inventory]. rewrite queue_after_buy. reflexivity.
  - pose proof (queue_after_sell (inventory st) trade (positionKeyOf trade) k) as H.
    destruct (matchSellToBuys tz (inventory st) (positionKeyOf trade) trade) as [[inv es] w].
    cbn [fst inventory] in *. rewrite H.
    destruct (String.eqb (positionKeyOf trade) k) eqn:E; [|reflexivity].
    apply String.eqb_eq in E. subst k. reflexivity.
Qed.

Lemma keys_after_trade st (trade : PolymarketTrade num) :
  NoDup (map fst (inventory st)) ->
  NoDup (map fst (inventory (processTrade tz st trade))).
Proof.
  intros H. unfold processTrade. destruct (Trade.side trade).
  - cbn [inventory]. unfold addToInventory.
    destruct (Inv.get _ _); apply InvFacts.NoDup_set, H.
  - unfold matchSellToBuys.
    destruct (matchLoop tz _ trade _ _ _) as [[es r2] q2].
    destruct (r2 >? epsilon); cbn [inventory];
      destruct (Inv.get _ _); try exact H; apply InvFacts.NoDup_set, H.
Qed.

Lemma keys_after_trades trades :
  NoDup (map fst (inventory (processTrades tz trades))).
Proof.
  apply (processTrades_invariant tz (fun st => NoDup (map fst (inventory st)))).
  - constructor.
  - intros st t. apply keys_after_trade.
Qed.

(** The queue of a key is folded from the trades on that key alone. *)
Lemma queue_fold key trades : forall st,
  queueOf (inventory (fold_left (processTrade tz) trades st)) key
  = fold_left (queueStep tz) (filter (onKey key) trades) (queueOf (inventory st) key).
Proof.
  induction trades as [|t r IH]; intros st; cbn [fold_left filter]; [reflexivity|].
  rewrite IH, queue_after_trade. unfold onKey at 2.
  destruct (String.eqb (positionKeyOf t) key); reflexivity.
Qed.

End Queues.

(* --------------------------------------------------------------------- *)
(** ** Queues in time order *)

Section Order.

Context {num : Type} {N : Number num}.
Variable tz : Z.

#[local] Open Scope num_scope.

(** The loop leaves a tail of the queue, the quantity of its head apart. *)
Lemma matchLoop_tail fuel trade ppt : forall r q,
  exists k, map Lot.acquisitionDate (snd (matchLoop tz fuel trade ppt r q))
            = skipn k (map Lot.acquisitionDate q).
Proof.
  induction fuel as [|fuel IH]; intros r q; cbn [matchLoop].
  - exists 0%nat. reflexivity.
  - destruct (r >? epsilon); [|exists 0%nat; reflexivity].
    destruct q as [|lot rest]; [exists 0%nat; reflexivity|].
    cbv zeta.
    match goal with |- context [if ?c <? epsilon then _ else _] =>
      destruct (c <? epsilon) end.
    + destruct (IH (r - Math_min r (Lot.quantity lot)) rest) as [k Hk].
      destruct (matchLoop tz fuel trade ppt _ rest) as [[es r2] q2].
      cbn [snd] in *. exists (S k). exact Hk.
    + match goal with |- context [matchLoop tz fuel trade ppt ?r' (?l' :: rest)] =>
        destruct (IH r' (l' :: rest)) as [k Hk];
        destruct (matchLoop tz fuel trade ppt r' (l' :: rest)) as [[es r2] q2]
      end.
      cbn [snd] in *. exists k. exact Hk.
Qed.

Lemma In_skipn {A : Type} (x : A) k l : In x (skipn k l) -> In x l.
Proof.
  revert l. induction k as [|k IH]; intros l H; [exact H|].
  destruct l as [|a l]; [exact H|]. right. apply IH, H.
Qed.

Lemma sorted_skipn {A : Type} (R : A -> A -> Prop) k l :
  StronglySorted R l -> StronglySorted R (skipn k l).
Proof.
  revert l. induction k as [|k IH]; intros l H; [exact H|].
  destruct l as [|a l]; [exact H|]. inversion H; subst. apply IH. assumption.
Qed.

Lemma sorted_map {A B : Type} (f : A -> B) (R : B -> B -> Prop) l :
  StronglySorted R (map f l) <-> StronglySorted (fun a b => R (f a) (f b)) l.
Proof.
  induction l as [|a l IH]; cbn [map]; [split; constructor|].
  split; intros H; inversion H as [|? ? Hs Hf]; subst; constructor;
    try (apply IH; assumption).
  - rewrite Forall_map in Hf. exact Hf.
  - rewrite Forall_map. exact Hf.
Qed.

Lemma matchLoop_bound fuel trade ppt r q B :
  Forall (fun lot => Lot.acquisitionDate lot <= B) q ->
  Forall (fun lot => Lot.acquisitionDate lot <= B) (snd (matchLoop tz fuel trade ppt r q)).
Proof.
  intros H. destruct (matchLoop_tail fuel trade ppt r q) as [k Hk].
  apply Forall_forall. intros lot Hl.
  apply (in_map Lot.acquisitionDate) in Hl. rewrite Hk in Hl. apply In_skipn in Hl.
  apply in_map_iff in Hl. destruct Hl as (lot0 & Heq & Hin).
  rewrite Forall_forall in H. rewrite <- Heq. apply H, Hin.
Qed.

Lemma matchLoop_oldestFirst fuel trade ppt r q :
  oldestFirst q -> oldestFirst (snd (matchLoop tz fuel trade ppt r q)).
Proof.
  unfold oldestFirst. intros H. destruct (matchLoop_tail fuel trade ppt r q) as [k Hk].
  apply (sorted_map Lot.acquisitionDate Z.le). rewrite Hk.
  apply sorted_skipn. apply (sorted_map Lot.acquisitionDate Z.le). exact H.
Qed.

(** Lots acquired by the time of the sell give entries of a holding period of
    no less than zero days. *)
Lemma matchLoop_held fuel trade ppt : forall r q,
  Forall (fun lot => Lot.acquisitionDate lot <= Trade.timestamp trade) q ->
  Forall (fun e => 0 <= Entry.holdingDays e) (fst (fst (matchLoop tz fuel trade ppt r q))).
Proof.
  induction fuel as [|fuel IH]; intros r q Hq; cbn [matchLoop].
  - constructor.
  - destruct (r >? epsilon); [|constructor].
    destruct q as [|lot rest]; [constructor|].
    inversion Hq as [|? ? Hlot Hrest]; subst.
    cbv zeta.
    match goal with |- context [matchLoop tz fuel trade ppt ?r' ?q'] =>
      assert (Hq' : Forall (fun lot => Lot.acquisitionDate lot <= Trade.timestamp trade) q')
    end.
    { match goal with |- context [if ?c <? epsilon then _ else _] =>
        destruct (c <? epsilon) end; [exact Hrest|].
      constructor; [exact Hlot | exact Hrest]. }
    match goal with |- context [matchLoop tz fuel trade ppt ?r' ?q'] =>
      specialize (IH r' q' Hq'); destruct (matchLoop tz fuel trade ppt r' q') as [[es r2] q2]
    end.
    cbn [fst] in *. constructor; [|exact IH].
    unfold matchEntry. cbn [Entry.holdingDays].
    apply Z.div_pos; lia.
Qed.

Lemma sorted_app_one (q : list (InventoryLot num)) lot :
  oldestFirst q ->
  Forall (fun l => Lot.acquisitionDate l <= Lot.acquisitionDate lot) q ->
  oldestFirst (q ++ [lot]).
Proof.
  unfold oldestFirst. induction q as [|a q IH]; intros Hs Hf; cbn [app].
  - repeat constructor.
  - inversion Hs as [|? ? Hs' Ha]; subst. inversion Hf as [|? ? Hal Hf']; subst.
    constructor; [apply IH; assumption|].
    apply Forall_app. split; [exact Ha|]. constructor; [exact Hal | constructor].
Qed.

Lemma inOrder_step B st t rest :
  Trade.timestamp t <= B ->
  Forall (earlier t) rest ->
  inOrder B st (t :: rest) -> inOrder B (processTrade tz st t) rest.
Proof.
  intros HB Hrest (Hlots & Hsorted & Hentries).
  assert (Hold : forall key,
             Forall (fun lot => Lot.acquisitionDate lot <= Trade.timestamp t)
                    (queueOf (inventory st) key)).
  { intros key. eapply Forall_impl; [|apply (Hlots key)].
    intros lot [_ H]. inversion H; subst. assumption. }
  split; [|split].
  - intros key. rewrite queue_after_trade.
    destruct (String.eqb (positionKeyOf t) key).
    + unfold queueStep. destruct (Trade.side t).
      * apply Forall_app. split.
        -- eapply Forall_impl; [|apply (Hlots key)].
           intros lot [H1 H2]. split; [exact H1|]. inversion H2; subst. assumption.
        -- constructor; [|constructor]. cbn [newLot Lot.acquisitionDate].
           split; [exact HB|]. exact Hrest.
      * unfold runLoop.
        match goal with |- context [matchLoop tz ?f t ?p ?r ?q] =>
          destruct (matchLoop_tail f t p r q) as [k Hk]
        end.
        apply Forall_forall. intros lot Hl.
        apply (in_map Lot.acquisitionDate) in Hl. rewrite Hk in Hl. apply In_skipn in Hl.
        apply in_map_iff in Hl. destruct Hl as (lot0 & Heq & Hin).
        pose proof (Hlots key) as H. rewrite Forall_forall in H.
        destruct (H lot0 Hin) as [H1 H2]. rewrite <- Heq. split; [exact H1|].
        inversion H2; subst. assumption.
    + eapply Forall_impl; [|apply (Hlots key)].
      intros lot [H1 H2]. split; [exact H1|]. inversion H2; subst. assumption.
  - intros key. rewrite queue_after_trade.
    destruct (String.eqb (positionKeyOf t) key); [|apply Hsorted].
    unfold queueStep. destruct (Trade.side t).
    + apply sorted_app_one; [apply Hsorted|]. cbn [newLot Lot.acquisitionDate]. apply Hold.
    + apply matchLoop_oldestFirst, Hsorted.
  - unfold processTrade. destruct (Trade.side t); [exact Hentries|].
    unfold matchSellToBuys. fold (queueOf (inventory st) (positionKeyOf t)).
    match goal with |- context [matchLoop tz ?f t ?p ?r ?q] =>
      pose proof (matchLoop_held f t p r q (Hold _)) as Hk;
      destruct (matchLoop tz f t p r q) as [[es r2] q2]
    end.
    cbn [fst] in Hk.
    destruct (r2 >? epsilon); cbn [entries]; apply Forall_app; split; try assumption.
    apply Forall_app. split; [exact Hk|]. constructor; [|constructor].
    cbn [oversellEntry Entry.holdingDays]. lia.
Qed.

Lemma inOrder_run B trades : forall st,
  StronglySorted earlier trades ->
  Forall (fun t => Trade.timestamp t <= B) trades ->
  inOrder B st trades -> inOrder B (fold_left (processTrade tz) trades st) [].
Proof.
  induction trades as [|t r IH]; intros st Hs HB Hst; cbn [fold_left]; [exact Hst|].
  inversion Hs as [|? ? Hs' Ht]; subst. inversion HB as [|? ? HBt HB']; subst.
  apply IH; try assumption. apply inOrder_step; assumption.
Qed.

Lemma inOrder_start B (trades : list (PolymarketTrade num)) : inOrder B (mkEngine [] [] []) trades.
Proof.
  split; [|split]; try (intros key); constructor.
Qed.

End Order.

(* --------------------------------------------------------------------- *)
(** ** Normalization and the sort, key by key *)

Section Normalized.

Context {num : Type} {N : Number num}.

(** Normalization keeps the timestamp and the position key of a trade. *)
Lemma normalizeTrade_keeps (trade t : PolymarketTrade num) :
  normalizeTrade trade = Some t ->
  Trade.timestamp t = Trade.timestamp trade /\
  Trade.conditionId t = Trade.conditionId trade /\
  Trade.outcome t = Trade.outcome trade.
Proof.
  unfold normalizeTrade. destruct (_ || _)%bool; [discriminate|].
  destruct (Trade.type trade); intros H; injection H as <-; repeat split.
Qed.

Lemma normalizeTrade_key (trade t : PolymarketTrade num) :
  normalizeTrade trade = Some t -> positionKeyOf t = positionKeyOf trade.
Proof.
  intros H. destruct (normalizeTrade_keeps _ _ H) as (_ & Hc & Ho).
  unfold positionKeyOf. rewrite Hc, Ho. reflexivity.
Qed.

Lemma normalizeAll_In (t : PolymarketTrade num) trades :
  In t (normalizeAll trades) <-> exists trade, In trade trades /\ normalizeTrade trade = Some t.
Proof.
  induction trades as [|a r IH]; cbn [normalizeAll].
  - split; [intros [] | intros (? & [] & _)].
  - destruct (normalizeTrade a) as [a'|] eqn:Ea; cbn [In]; rewrite ?IH.
    + split.
      * intros [<- | (trade & Hin & Hn)]; [exists a; auto | exists trade; auto].
      * intros (trade & [<- | Hin] & Hn); [left; congruence | right; exists trade; auto].
    + split.
      * intros (trade & Hin & Hn). exists trade; auto.
      * intros (trade & [<- | Hin] & Hn); [congruence | exists trade; auto].
Qed.

Lemma sortByTimestamp_In (x : PolymarketTrade num) l : In x (sortByTimestamp l) <-> In x l.
Proof.
  induction l as [|a l IH]; cbn [sortByTimestamp In]; [tauto|].
  rewrite insertByTimestamp_In, IH. split; intros [H | H]; auto.
Qed.

Lemma normalized_bound B (trades : list (PolymarketTrade num)) :
  Forall (fun t => Trade.timestamp t <= B) trades ->
  Forall (fun t => Trade.timestamp t <= B) (sortByTimestamp (normalizeAll trades)).
Proof.
  intros H. apply Forall_forall. intros t Ht.
  apply sortByTimestamp_In, normalizeAll_In in Ht. destruct Ht as (trade & Hin & Hn).
  destruct (normalizeTrade_keeps _ _ Hn) as [-> _].
  rewrite Forall_forall in H. apply H, Hin.
Qed.

Lemma timestamps_bounded (l : list (PolymarketTrade num)) :
  exists B, Forall (fun t => Trade.timestamp t <= B) l.
Proof.
  induction l as [|a l [B HB]].
  - exists 0. constructor.
  - exists (Z.max (Trade.timestamp a) B). constructor; [lia|].
    eapply Forall_impl; [|exact HB]. cbv beta. intros; lia.
Qed.

(** Filtering on a key commutes with normalization and with the sort. *)
Lemma normalizeAll_onKey key (trades : list (PolymarketTrade num)) :
  normalizeAll (filter (onKey key) trades) = filter (onKey key) (normalizeAll trades).
Proof.
  induction trades as [|a r IH]; cbn [filter normalizeAll]; [reflexivity|].
  destruct (normalizeTrade a) as [a'|] eqn:Ea.
  - assert (Hk : onKey key a' = onKey key a)
      by (unfold onKey; rewrite (normalizeTrade_key _ _ Ea); reflexivity).
    cbn [filter]. rewrite Hk.
    destruct (onKey key a); cbn [normalizeAll]; rewrite ?Ea, IH; reflexivity.
  - destruct (onKey key a); cbn [normalizeAll]; rewrite ?Ea; exact IH.
Qed.

Lemma sorted_filter {A : Type} (R : A -> A -> Prop) (f : A -> bool) l :
  StronglySorted R l -> StronglySorted R (filter f l).
Proof.
  induction 1 as [|a l Hs IH Ha]; cbn [filter]; [constructor|].
  destruct (f a); [|exact IH]. constructor; [exact IH|].
  apply Forall_filter_of, Ha.
Qed.

Lemma filter_comm {A : Type} (f g : A -> bool) l :
  filter f (filter g l) = filter g (filter f l).
Proof.
  induction l as [|a l IH]; cbn [filter]; [reflexivity|].
  destruct (f a) eqn:Ef; destruct (g a) eqn:Eg; cbn [filter]; rewrite ?Ef, ?Eg, IH;
    reflexivity.
Qed.

Lemma sortByTimestamp_filter (f : PolymarketTrade num -> bool) l :
  sortByTimestamp (filter f l) = filter f (sortByTimestamp l).
Proof.
  apply sorted_unique.
  - apply sortByTimestamp_sorted.
  - apply sorted_filter, sortByTimestamp_sorted.
  - intros t. rewrite sortByTimestamp_stable.
    transitivity (filter f (atTime t (sortByTimestamp l))).
    + rewrite sortByTimestamp_stable. apply filter_comm.
    + apply filter_comm.
Qed.

End Normalized.

(* --------------------------------------------------------------------- *)
(** ** Open positions *)

Section Positions.

Context {num : Type} {N : Number num}.

Lemma NoDup_keys_filter {V : Type} (f : string * V -> bool) (m : list (string * V)) :
  NoDup (map fst m) -> NoDup (map fst (filter f m)).
Proof.
  induction m as [|[k v] m IH]; cbn [filter map fst]; [constructor|].
  intros H. inversion H as [|? ? Hk Hm]; subst.
  destruct (f (k, v)); [|apply IH, Hm].
  cbn [map fst]. constructor; [|apply IH, Hm].
  intros Hin. apply Hk. apply in_map_iff in Hin. destruct Hin as ([k' v'] & Heq & Hin).
  apply filter_In in Hin. apply in_map_iff. exists (k', v'). tauto.
Qed.

Lemma collectOpenPositions_keys (inventory : @Inventory num) :
  map Position.positionKey (collectOpenPositions inventory)
  = map fst (filter (fun kl => match snd kl with [] => false | _ :: _ => true end) inventory).
Proof.
  rewrite collectOpenPositions_map, map_map. reflexivity.
Qed.

Lemma collectOpenPositions_In (inventory : @Inventory num) p :
  NoDup (map fst inventory) ->
  In p (collectOpenPositions inventory) <->
  queueOf inventory (Position.positionKey p) <> [] /\
  p = openPosition (Position.positionKey p) (queueOf inventory (Position.positionKey p)).
Proof.
  intros Hnd. rewrite collectOpenPositions_map, in_map_iff. split.
  - intros ([k lots] & <- & Hin). apply filter_In in Hin. destruct Hin as [Hin Hne].
    cbn [fst snd] in *. cbn [openPosition Position.positionKey].
    unfold queueOf. rewrite (InvFacts.get_In_NoDup _ _ _ Hnd Hin).
    split; [|reflexivity]. destruct lots; [discriminate | discriminate].
  - intros [Hne Heq]. exists (Position.positionKey p, queueOf inventory (Position.positionKey p)).
    split; [symmetry; exact Heq|]. apply filter_In. cbn [snd]. split.
    + unfold queueOf in *. destruct (Inv.get (Position.positionKey p) inventory) eqn:E;
        [|contradiction]. apply KeyFacts.Inv_get_In, E.
    + destruct (queueOf inventory (Position.positionKey p)); [contradiction | reflexivity].
Qed.

End Positions.

(** X3.  The open positions of a report have pairwise distinct position keys;
    a position is listed exactly when the queue of its key is not empty after
    all trades, and it is then the position built from that queue; no listed
    position is without lots. *)
Theorem one_open_position_per_key {num : Type} {N : Number num} :
  forall tz fetchMarketsBatch (trades : list (PolymarketTrade num)) taxYear,
    let st := processTrades tz (sortByTimestamp (normalizeAll trades)) in
    let report := generateTaxReport tz fetchMarketsBatch trades taxYear in
    NoDup (map Position.positionKey (Report.openPositions report)) /\
    (forall p, In p (Report.openPositions report) <->
               queueOf (inventory st) (Position.positionKey p) <> [] /\
               p = openPosition (Position.positionKey p)
                                (queueOf (inventory st) (Position.positionKey p))) /\
    Forall (fun p => Position.lots p <> []) (Report.openPositions report).
Proof.
  intros tz fetch trades taxYear st report.
  assert (Hnd : NoDup (map fst (inventory st))) by apply keys_after_trades.
  change (Report.openPositions report) with (collectOpenPositions (inventory st)).
  split; [|split].
  - rewrite collectOpenPositions_keys. apply NoDup_keys_filter, Hnd.
  - intros p. apply collectOpenPositions_In, Hnd.
  - apply Forall_forall. intros p Hp. apply collectOpenPositions_In in Hp; [|exact Hnd].
    destruct Hp as [Hne Heq]. rewrite Heq. cbn [openPosition Position.lots]. exact Hne.
Qed.

(** X4.  After the trades of any input are processed, every queue holds its
    lots in acquisition order, oldest first, and no entry of a match or of an
    oversell has a negative holding period; the lots of every open position
    are in that order too; and when no trade is later than the end of the tax
    year, no entry of the report, the write-offs included, has negative
    holding days. *)
Theorem lots_are_held_oldest_first {num : Type} {N : Number num} :
  forall tz (trades : list (PolymarketTrade num)),
    let st := processTrades tz (sortByTimestamp (normalizeAll trades)) in
    (forall key, oldestFirst (queueOf (inventory st) key)) /\
    Forall (fun e => 0 <= Entry.holdingDays e) (entries st) /\
    (forall fetchMarketsBatch taxYear,
       let report := generateTaxReport tz fetchMarketsBatch trades taxYear in
       Forall (fun p => oldestFirst (Position.lots p)) (Report.openPositions report) /\
       (Forall (fun t => Trade.timestamp t <= taxYearEndOf tz taxYear) trades ->
        Forall (fun e => 0 <= Entry.holdingDays e) (Report.shortTerm report) /\
        Forall (fun e => 0 <= Entry.holdingDays e) (Report.longTerm report))).
Proof.
  intros tz trades st.
  assert (Hrun : forall B, Forall (fun t => Trade.timestamp t <= B) trades ->
                           inOrder B st []).
  { intros B HB. apply inOrder_run.
    - apply sortByTimestamp_sorted.
    - apply normalized_bound, HB.
    - apply inOrder_start. }
  destruct (timestamps_bounded trades) as [B0 HB0].
  destruct (Hrun B0 HB0) as (_ & Hsorted & Hheld).
  split; [exact Hsorted|]. split; [exact Hheld|].
  intros fetch taxYear report.
  assert (Hnd : NoDup (map fst (inventory st))) by apply keys_after_trades.
  split.
  - change (Report.openPositions report) with (collectOpenPositions (inventory st)).
    apply Forall_forall. intros p Hp. apply collectOpenPositions_In in Hp; [|exact Hnd].
    destruct Hp as [_ Heq]. rewrite Heq. cbn [openPosition Position.lots]. apply Hsorted.
  - intros HB. destruct (Hrun _ HB) as (Hlots & _ & _).
    destruct (generateTaxReport_entries tz fetch trades taxYear) as (Hs & Hl & _).
    fold report in Hs, Hl.
    assert (Hall : Forall (fun e : Form8949Entry num => 0 <= Entry.holdingDays e)
                          (allEntries tz fetch trades taxYear)).
    { unfold allEntries. fold st. apply Forall_app. split; [exact Hheld|].
      unfold processWorthlessPositions.
      generalize (fetch (map Position.conditionId (collectOpenPositions (inventory st)))).
      intros marketMap.
      assert (Hpos : Forall (fun p => Forall (fun lot => Lot.acquisitionDate lot
                                                        <= taxYearEndOf tz taxYear)
                                             (Position.lots p))
                            (collectOpenPositions (inventory st))).
      { apply Forall_forall. intros p Hp. apply collectOpenPositions_In in Hp; [|exact Hnd].
        destruct Hp as [_ Heq]. rewrite Heq. cbn [openPosition Position.lots].
        eapply Forall_impl; [|apply Hlots]. cbv beta. tauto. }
      induction Hpos as [|p r Hp _ IH]; cbn [flat_map]; [constructor|].
      apply Forall_app. split; [|exact IH].
      destruct (isWorthless marketMap p); [|constructor].
      apply Forall_forall. intros e He. apply in_map_iff in He.
      destruct He as (lot & <- & Hin). rewrite Forall_forall in Hp.
      cbn [worthlessEntry Entry.holdingDays]. apply Z.div_pos; [|lia].
      specialize (Hp lot Hin). lia. }
    rewrite Hs, Hl. split; apply Forall_filter_of, Hall.
Qed.

Lemma filter_idem {A : Type} (f : A -> bool) (l : list A) :
  filter f (filter f l) = filter f l.
Proof.
  induction l as [|a l IH]; cbn [filter]; [reflexivity|].
  destruct (f a) eqn:E; cbn [filter]; rewrite ?E, IH; reflexivity.
Qed.

Section OwnTrades.

Context {num : Type} {N : Number num}.
Variable tz : Z.

Lemma run_keys key (trades : list (PolymarketTrade num)) : forall st,
  Forall (fun t => onKey key t = true) trades ->
  Forall (fun k => k = key) (map fst (inventory st)) ->
  Forall (fun k => k = key) (map fst (inventory (fold_left (processTrade tz) trades st))).
Proof.
  induction trades as [|t r IH]; intros st Ht Hst; cbn [fold_left]; [exact Hst|].
  inversion Ht as [|? ? Hk Hr]; subst. apply IH; [exact Hr|].
  unfold onKey in Hk. apply String.eqb_eq in Hk.
  unfold processTrade. destruct (Trade.side t).
  - cbn [inventory]. unfold addToInventory.
    destruct (Inv.get (positionKeyOf t) (inventory st)) eqn:E;
      rewrite InvFacts.keys_set, E; [exact Hst|].
    apply Forall_app. split; [exact Hst|]. constructor; [exact Hk | constructor].
  - unfold matchSellToBuys.
    destruct (matchLoop tz _ t _ _ _) as [[es r2] q2].
    destruct (nltb epsilon r2); cbn [inventory];
      destruct (Inv.get (positionKeyOf t) (inventory st)) eqn:E; try exact Hst;
      rewrite InvFacts.keys_set, E; exact Hst.
Qed.

Lemma single_key (inventory : @Inventory num) key :
  NoDup (map fst inventory) ->
  Forall (fun k => k = key) (map fst inventory) ->
  inventory = [] \/ exists q, inventory = [(key, q)].
Proof.
  destruct inventory as [|[k q] [|[k' q'] r]]; cbn [map fst]; intros Hnd Hall.
  - left. reflexivity.
  - right. exists q. inversion Hall; subst. reflexivity.
  - exfalso. inversion Hall as [|? ? H1 H2]; subst. inversion H2 as [|? ? H3 _]; subst.
    inversion Hnd as [|? ? Hn _]; subst. apply Hn. left. reflexivity.
Qed.

End OwnTrades.

(** X5.  The queue of a position key after a run is the queue that a run on
    the trades of that key alone leaves; so an open position of the report is
    the one open position of the report on its own trades: trades on other
    keys change nothing for it. *)
Theorem a_position_depends_on_its_own_trades {num : Type} {N : Number num} :
  forall tz fetchMarketsBatch (trades : list (PolymarketTrade num)) taxYear key,
    let own := filter (onKey key) trades in
    queueOf (inventory (processTrades tz (sortByTimestamp (normalizeAll trades)))) key
    = queueOf (inventory (processTrades tz (sortByTimestamp (normalizeAll own)))) key /\
    (forall p,
       In p (Report.openPositions (generateTaxReport tz fetchMarketsBatch trades taxYear)) ->
       Position.positionKey p = key ->
       Report.openPositions (generateTaxReport tz fetchMarketsBatch own taxYear) = [p]).
Proof.
  intros tz fetch trades taxYear key own.
  assert (Hq : queueOf (inventory (processTrades tz (sortByTimestamp (normalizeAll trades)))) key
               = queueOf (inventory (processTrades tz (sortByTimestamp (normalizeAll own)))) key).
  { unfold processTrades, own. rewrite !queue_fold.
    rewrite normalizeAll_onKey, sortByTimestamp_filter.
    rewrite filter_idem. reflexivity. }
  split; [exact Hq|].
  intros p Hp Hkey.
  change (Report.openPositions (generateTaxReport tz fetch trades taxYear))
    with (collectOpenPositions
            (inventory (processTrades tz (sortByTimestamp (normalizeAll trades))))) in Hp.
  change (Report.openPositions (generateTaxReport tz fetch own taxYear))
    with (collectOpenPositions
            (inventory (processTrades tz (sortByTimestamp (normalizeAll own))))).
  apply collectOpenPositions_In in Hp; [|apply keys_after_trades].
  rewrite Hkey in Hp. destruct Hp as [Hne Heq]. rewrite Hq in Hne, Heq.
  set (inv := inventory (processTrades tz (sortByTimestamp (normalizeAll own)))) in *.
  assert (Hnd : NoDup (map fst inv)) by apply keys_after_trades.
  assert (Hall : Forall (fun k => k = key) (map fst inv)).
  { apply run_keys; [|constructor].
    apply Forall_forall. intros t Ht. apply (proj1 (sortByTimestamp_In _ _)) in Ht.
    unfold own in Ht. rewrite normalizeAll_onKey in Ht. apply filter_In in Ht. tauto. }
  destruct (single_key inv key Hnd Hall) as [E | [q E]].
  - rewrite E in Hne. contradiction.
  - rewrite E in Hne, Heq |- *. unfold queueOf in Hne, Heq. cbn [Inv.get] in Hne, Heq.
    rewrite String.eqb_refl in Hne, Heq. cbn [collectOpenPositions].
    destruct q; [contradiction|]. rewrite Heq. reflexivity.
Qed.

(** X4 at work on three positions bought before the end of 2020. *)
Lemma lots_are_held_oldest_first_witness :
  let report := generateTaxReport 0 Examples.resolved Examples.threePositions 2020 in
  Forall (fun e => 0 <= Entry.holdingDays e) (Report.shortTerm report) /\
  Forall (fun e => 0 <= Entry.holdingDays e) (Report.longTerm report).
Proof.
  apply (proj2 (proj2 (proj2 (lots_are_held_oldest_first (N := binary64) 0
                                Examples.threePositions))
                 Examples.resolved 2020)).
  repeat constructor; vm_compute; discriminate.
Defined.

(** X5 at work: the position on the NO side of 0xc1, from its own trade alone. *)
Lemma a_position_depends_on_its_own_trades_witness :
  Report.openPositions
    (generateTaxReport 0 Examples.resolved
       (filter (onKey "0xc1-NO") Examples.threePositions) 2020)
  = [openPosition "0xc1-NO" [newLot (Examples.buy 1600000000 "0xc1" "NO" 1 0.125)]].
Proof.
  apply (proj2 (a_position_depends_on_its_own_trades (N := binary64) 0 Examples.resolved
                  Examples.threePositions 2020 "0xc1-NO")).
  - vm_compute. right. left. reflexivity.
  - reflexivity.
Defined.

(* --------------------------------------------------------------------- *)
(** ** Fields that are never read *)

Section Unread.

Context {num : Type} {N : Number num}.
Variable tz : Z.

#[local] Open Scope num_scope.

Lemma matchLoop_withoutPrice fuel (t : PolymarketTrade num) ppt : forall r q,
  matchLoop tz fuel (withoutPrice t) ppt r q = matchLoop tz fuel t ppt r q.
Proof.
  induction fuel as [|fuel IH]; intros r q; cbn [matchLoop]; [reflexivity|].
  destruct (r >? epsilon); [|reflexivity].
  destruct q as [|lot rest]; [reflexivity|].
  cbv zeta. rewrite IH. reflexivity.
Qed.

Lemma processTrade_withoutPrice st (t : PolymarketTrade num) :
  processTrade tz st (withoutPrice t) = processTrade tz st t.
Proof.
  unfold processTrade, matchSellToBuys.
  change (Trade.side (withoutPrice t)) with (Trade.side t).
  change (positionKeyOf (withoutPrice t)) with (positionKeyOf t).
  change (Trade.usdcSize (withoutPrice t)) with (Trade.usdcSize t).
  change (Trade.size (withoutPrice t)) with (Trade.size t).
  destruct (Trade.side t); [reflexivity|].
  rewrite matchLoop_withoutPrice. reflexivity.
Qed.

Lemma run_withoutPrice (l : list (PolymarketTrade num)) : forall st,
  fold_left (processTrade tz) (map withoutPrice l) st = fold_left (processTrade tz) l st.
Proof.
  induction l as [|t r IH]; intros st; cbn [map fold_left]; [reflexivity|].
  rewrite processTrade_withoutPrice. apply IH.
Qed.

Lemma insert_withoutPrice (t : PolymarketTrade num) l :
  insertByTimestamp (withoutPrice t) (map withoutPrice l)
  = map withoutPrice (insertByTimestamp t l).
Proof.
  induction l as [|u r IH]; cbn [map insertByTimestamp]; [reflexivity|].
  change (Trade.timestamp (withoutPrice t)) with (Trade.timestamp t).
  change (Trade.timestamp (withoutPrice u)) with (Trade.timestamp u).
  destruct (Trade.timestamp t <=? Trade.timestamp u)%Z; cbn [map]; [reflexivity|].
  rewrite IH. reflexivity.
Qed.

Lemma sort_withoutPrice (l : list (PolymarketTrade num)) :
  sortByTimestamp (map withoutPrice l) = map withoutPrice (sortByTimestamp l).
Proof.
  induction l as [|t r IH]; cbn [map sortByTimestamp]; [reflexivity|].
  rewrite IH. apply insert_withoutPrice.
Qed.

Lemma normalizeTrade_unread (a b : PolymarketTrade num) :
  sameButUnread a b ->
  option_map withoutPrice (normalizeTrade a) = option_map withoutPrice (normalizeTrade b).
Proof.
  intros (Ht & Hty & Hc & Ho & Hs & Hh & Hti & Hrest).
  unfold normalizeTrade. rewrite <- Hc, <- Ho.
  destruct (_ || _)%bool; [reflexivity|].
  rewrite <- Hty. destruct (Trade.type a) eqn:Ety.
  - destruct (Hrest eq_refl) as [Hsd Hu]. cbn [option_map]. unfold withoutPrice.
    simpl. rewrite Ht, Hs, Hh, Hti, Hsd, Hu. reflexivity.
  - cbn [option_map]. unfold withoutPrice. simpl. rewrite Ht, Hs, Hh, Hti. reflexivity.
Qed.

Lemma normalizeAll_unread (l1 l2 : list (PolymarketTrade num)) :
  Forall2 sameButUnread l1 l2 ->
  map withoutPrice (normalizeAll l1) = map withoutPrice (normalizeAll l2).
Proof.
  induction 1 as [|a b l1 l2 Hab _ IH]; cbn [normalizeAll]; [reflexivity|].
  pose proof (normalizeTrade_unread a b Hab) as H.
  destruct (normalizeTrade a), (normalizeTrade b); cbn [option_map map] in *;
    try discriminate; [|exact IH].
  congruence.
Qed.

Lemma processTrades_unread (l1 l2 : list (PolymarketTrade num)) :
  Forall2 sameButUnread l1 l2 ->
  processTrades tz (sortByTimestamp (normalizeAll l1))
  = processTrades tz (sortByTimestamp (normalizeAll l2)).
Proof.
  intros H. unfold processTrades.
  rewrite <- (run_withoutPrice (sortByTimestamp (normalizeAll l1))).
  rewrite <- (run_withoutPrice (sortByTimestamp (normalizeAll l2))).
  rewrite <- !sort_withoutPrice, (normalizeAll_unread l1 l2 H). reflexivity.
Qed.

End Unread.

(** X6.  The report does not depend on the [price] of a trade nor, for a
    REDEEM, on its [side] and [usdcSize]: two inputs that agree trade by trade
    on everything else give the same report. *)
Theorem the_report_ignores_price {num : Type} {N : Number num} :
  forall tz fetchMarketsBatch (l1 l2 : list (PolymarketTrade num)) taxYear,
    Forall2 sameButUnread l1 l2 ->
    generateTaxReport tz fetchMarketsBatch l1 taxYear
    = generateTaxReport tz fetchMarketsBatch l2 taxYear.
Proof.
  intros tz fetch l1 l2 taxYear H. unfold generateTaxReport.
  rewrite (processTrades_unread tz l1 l2 H). reflexivity.
Qed.

(** X6 at work: another price for the buy; another side, amount and price for the REDEEM. *)
Lemma the_report_ignores_price_witness :
  generateTaxReport 0 Examples.noMarkets
    [ Examples.buy 1700000000 "0xc1" "Yes" 10 10;
      Trade.mk 1700172800 REDEEM BUY "0xc1" "Yes" 4%float 0%float 0.5%float "0xr" "Will it rain tomorrow?" ]
    2023
  = generateTaxReport 0 Examples.noMarkets
    [ Trade.mk 1700000000 TRADE BUY "0xc1" "Yes" 10%float 10%float 7%float
               "0xb" "Will it rain tomorrow?";
      Trade.mk 1700172800 REDEEM SELL "0xc1" "Yes" 4%float 99%float 1%float "0xr" "Will it rain tomorrow?" ]
    2023.
Proof.
  apply the_report_ignores_price.
  repeat constructor; discriminate.
Defined.

(* --------------------------------------------------------------------- *)
(** ** Descriptions *)

Module LengthFacts.

#[local] Open Scope nat_scope.

Lemma length_app (a b : string) : String.length (a ++ b) = String.length a + String.length b.
Proof.
  induction a as [|c a IH]; cbn [append String.length]; [reflexivity|]. rewrite IH. reflexivity.
Qed.

Lemma length_substring n (s : string) :
  String.length (substring 0 n s) = Nat.min n (String.length s).
Proof.
  revert s. induction n as [|n IH]; intros [|c s]; cbn [substring String.length Nat.min];
    try reflexivity.
  rewrite IH. reflexivity.
Qed.

Lemma length_trimStart s : String.length (Str.trimStart s) <= String.length s.
Proof.
  induction s as [|c s IH]; cbn [Str.trimStart String.length]; [lia|].
  destruct (Str.is_space c); cbn [String.length]; lia.
Qed.

Lemma length_trimEnd s : String.length (Str.trimEnd s) <= String.length s.
Proof.
  induction s as [|c s IH]; cbn [Str.trimEnd String.length]; [lia|].
  destruct (Str.trimEnd s) as [|c' r].
  - destruct (Str.is_space c); cbn [String.length]; lia.
  - cbn [String.length] in *. lia.
Qed.

Lemma length_trim s : String.length (Str.trim s) <= String.length s.
Proof.
  unfold Str.trim. pose proof (length_trimEnd (Str.trimStart s)).
  pose proof (length_trimStart s). lia.
Qed.

Lemma length_toUpperCase s : String.length (Str.toUpperCase s) = String.length s.
Proof.
  induction s as [|c s IH]; cbn [Str.toUpperCase String.length]; congruence.
Qed.

(** [lastIndexOf] returns [-1] or the index of an occurrence. *)
Lemma lastIndexOf_from_spec c s : forall i,
  let r := Str.lastIndexOf_from c s i in
  r = (-1)%Z \/
  ((i <= r < i + Z.of_nat (String.length s))%Z /\
   String.get (Z.to_nat (r - i)) s = Some c).
Proof.
  induction s as [|a s IH]; intros i; cbn [Str.lastIndexOf_from String.length]; [left; reflexivity|].
  cbv zeta. specialize (IH (i + 1)%Z). cbv zeta in IH.
  destruct (0 <=? Str.lastIndexOf_from c s (i + 1))%Z eqn:E.
  - destruct IH as [IH | [IH1 IH2]]; [rewrite IH in E; discriminate|].
    right. split; [lia|].
    replace (Z.to_nat (Str.lastIndexOf_from c s (i + 1) - i))
      with (S (Z.to_nat (Str.lastIndexOf_from c s (i + 1) - (i + 1)))) by lia.
    exact IH2.
  - destruct (Ascii.eqb a c) eqn:Ea; [|left; reflexivity].
    apply Ascii.eqb_eq in Ea. subst a. right. split; [lia|].
    replace (i - i)%Z with 0%Z by lia. reflexivity.
Qed.

Lemma get_substring p n s :
  p < n -> String.get p (substring 0 n s) = String.get p s.
Proof.
  intros H. rewrite (substring_correct1 s 0 n p H). f_equal. lia.
Qed.

End LengthFacts.

Section Truncate.

Import LengthFacts.

(** Where [truncate] cuts a string longer than [maxLen]. *)
Lemma truncate_cut str maxLen :
  (maxLen < String.length str)%nat ->
  exists cut : nat,
    (cut <= maxLen - 3)%nat /\
    truncate str maxLen = (Str.trim (substring 0 cut str) ++ "...")%string /\
    (cut = (maxLen - 3)%nat \/
     ((maxLen < 2 * cut)%nat /\ String.get cut str = Some " "%char)).
Proof.
  intros Hlen. unfold truncate.
  assert (Hne : String.eqb str "" = false).
  { destruct str; [cbn in Hlen; lia | reflexivity]. }
  rewrite Hne. cbn [orb].
  replace (Nat.leb (String.length str) maxLen) with false
    by (symmetry; apply Nat.leb_gt; exact Hlen).
  cbv zeta.
  pose proof (lastIndexOf_from_spec " "%char (substring 0 (maxLen - 3) str) 0) as Hspec.
  cbv zeta in Hspec. fold (Str.lastIndexOf " "%char (substring 0 (maxLen - 3) str)) in Hspec.
  set (lastSpace := Str.lastIndexOf " "%char (substring 0 (maxLen - 3) str)) in *.
  destruct (Z.of_nat maxLen <? 2 * lastSpace) eqn:E.
  - apply Z.ltb_lt in E.
    destruct Hspec as [Hm | [Hr Hg]]; [lia|].
    rewrite length_substring in Hr. rewrite Z.sub_0_r in Hg.
    exists (Z.to_nat lastSpace). split; [lia|]. split; [reflexivity|]. right.
    split; [lia|]. rewrite <- Hg. symmetry. apply get_substring. lia.
  - exists (maxLen - 3)%nat. split; [lia|]. split; [reflexivity|]. left. reflexivity.
Qed.

Lemma truncate_short str maxLen :
  (String.length str <= maxLen)%nat -> truncate str maxLen = str.
Proof.
  intros H. unfold truncate. apply Nat.leb_le in H. rewrite H, orb_true_r. reflexivity.
Qed.

Lemma truncate_length str maxLen :
  (3 <= maxLen)%nat -> (String.length (truncate str maxLen) <= maxLen)%nat.
Proof.
  intros Hn. destruct (Nat.le_gt_cases (String.length str) maxLen) as [H | H].
  - rewrite truncate_short by exact H. exact H.
  - destruct (truncate_cut str maxLen H) as (cut & Hcut & -> & _).
    rewrite length_app. cbn [String.length].
    pose proof (length_trim (substring 0 cut str)) as Ht.
    rewrite length_substring in Ht. lia.
Qed.

(** A description is the outcome, nine characters and a title of at most 55. *)
Lemma descriptionOf_length outcome title :
  (String.length (descriptionOf outcome title) <= String.length outcome + 64)%nat.
Proof.
  unfold descriptionOf. rewrite !length_app, length_toUpperCase. cbn [String.length].
  pose proof (truncate_length title 55). lia.
Qed.

End Truncate.

(** [lastIndexOf] is not before any occurrence. *)
Lemma lastIndexOf_from_last c s : forall i p,
  (0 <= i)%Z -> String.get p s = Some c ->
  (i + Z.of_nat p <= Str.lastIndexOf_from c s i)%Z.
Proof.
  induction s as [|a s IH]; intros i p Hi Hp; [destruct p; discriminate|].
  cbn [Str.lastIndexOf_from]. cbv zeta.
  pose proof (LengthFacts.lastIndexOf_from_spec c s (i + 1)) as Hspec. cbv zeta in Hspec.
  destruct p as [|p].
  - cbn [String.get] in Hp. injection Hp as ->.
    rewrite (proj2 (Ascii.eqb_eq c c) eq_refl).
    destruct (0 <=? Str.lastIndexOf_from c s (i + 1))%Z eqn:E; [|lia].
    apply Z.leb_le in E. destruct Hspec as [Hm | [Hr _]]; lia.
  - cbn [String.get] in Hp.
    pose proof (IH (i + 1)%Z p ltac:(lia) Hp) as Hlast.
    replace (0 <=? Str.lastIndexOf_from c s (i + 1))%Z with true
      by (symmetry; apply Z.leb_le; lia).
    lia.
Qed.

(** The cut of [truncate] at a space that is late enough and the last one. *)
Lemma truncate_at_space str maxLen i :
  (maxLen < String.length str)%nat ->
  (i < maxLen - 3)%nat -> (maxLen < 2 * i)%nat ->
  String.get i str = Some " "%char ->
  (forall j, (i < j < maxLen - 3)%nat -> String.get j str <> Some " "%char) ->
  truncate str maxLen = (Str.trim (substring 0 i str) ++ "...")%string.
Proof.
  intros Hlen Hi Hlate Hsp Hlast. unfold truncate.
  assert (Hne : String.eqb str "" = false).
  { destruct str; [cbn in Hlen; lia | reflexivity]. }
  rewrite Hne. cbn [orb].
  replace (Nat.leb (String.length str) maxLen) with false
    by (symmetry; apply Nat.leb_gt; exact Hlen).
  cbv zeta.
  pose proof (LengthFacts.lastIndexOf_from_spec " "%char (substring 0 (maxLen - 3) str) 0)
    as Hspec.
  pose proof (lastIndexOf_from_last " "%char (substring 0 (maxLen - 3) str) 0 i
                ltac:(lia)) as Hge.
  cbv zeta in Hspec. fold (Str.lastIndexOf " "%char (substring 0 (maxLen - 3) str)) in *.
  set (lastSpace := Str.lastIndexOf " "%char (substring 0 (maxLen - 3) str)) in *.
  rewrite LengthFacts.get_substring in Hge by exact Hi. specialize (Hge Hsp).
  destruct Hspec as [Hm | [Hr Hg]]; [lia|].
  rewrite LengthFacts.length_substring in Hr. rewrite Z.sub_0_r in Hg.
  rewrite LengthFacts.get_substring in Hg by lia.
  assert (Heq : lastSpace = Z.of_nat i).
  { destruct (Z.eq_dec lastSpace (Z.of_nat i)) as [E | E]; [exact E|].
    exfalso. apply (Hlast (Z.to_nat lastSpace)); [lia | exact Hg]. }
  rewrite Heq. replace (Z.of_nat maxLen <? 2 * Z.of_nat i)%Z with true
    by (symmetry; apply Z.ltb_lt; lia).
  rewrite Nat2Z.id. reflexivity.
Qed.

(** The cut of [truncate] when no space is late enough. *)
Lemma truncate_plain_cut str maxLen :
  (maxLen < String.length str)%nat ->
  (forall i, (i < maxLen - 3)%nat -> (maxLen < 2 * i)%nat ->
             String.get i str <> Some " "%char) ->
  truncate str maxLen = (Str.trim (substring 0 (maxLen - 3) str) ++ "...")%string.
Proof.
  intros Hlen Hnone. unfold truncate.
  assert (Hne : String.eqb str "" = false).
  { destruct str; [cbn in Hlen; lia | reflexivity]. }
  rewrite Hne. cbn [orb].
  replace (Nat.leb (String.length str) maxLen) with false
    by (symmetry; apply Nat.leb_gt; exact Hlen).
  cbv zeta.
  pose proof (LengthFacts.lastIndexOf_from_spec " "%char (substring 0 (maxLen - 3) str) 0)
    as Hspec.
  cbv zeta in Hspec. fold (Str.lastIndexOf " "%char (substring 0 (maxLen - 3) str)) in *.
  set (lastSpace := Str.lastIndexOf " "%char (substring 0 (maxLen - 3) str)) in *.
  destruct (Z.of_nat maxLen <? 2 * lastSpace)%Z eqn:E; [|reflexivity].
  exfalso. apply Z.ltb_lt in E.
  destruct Hspec as [Hm | [Hr Hg]]; [lia|].
  rewrite LengthFacts.length_substring in Hr. rewrite Z.sub_0_r in Hg.
  rewrite LengthFacts.get_substring in Hg by lia.
  apply (Hnone (Z.to_nat lastSpace)); [lia | lia | exact Hg].
Qed.

(** X7.  For a text in ASCII: [truncate] returns a text of at most [maxLen]
    characters unchanged.  Of a longer one it keeps the characters before
    its last space among the first [maxLen - 3], when that space lies beyond
    half of [maxLen]; when no space does, it keeps the first [maxLen - 3]
    characters; what is kept is trimmed and followed by three dots.  For
    [maxLen] of 3 or more the result has at most [maxLen] characters, so a
    description is at most 64 characters longer than an outcome in ASCII. *)
Theorem truncate_cuts_at_the_last_space :
  forall (str : string) (maxLen : nat),
    Str.isAscii str = true ->
    ((String.length str <= maxLen)%nat -> truncate str maxLen = str) /\
    ((maxLen < String.length str)%nat ->
     (forall i,
        (i < maxLen - 3)%nat -> (maxLen < 2 * i)%nat ->
        String.get i str = Some " "%char ->
        (forall j, (i < j < maxLen - 3)%nat -> String.get j str <> Some " "%char) ->
        truncate str maxLen = (Str.trim (substring 0 i str) ++ "...")%string) /\
     ((forall i, (i < maxLen - 3)%nat -> (maxLen < 2 * i)%nat ->
                 String.get i str <> Some " "%char) ->
      truncate str maxLen
      = (Str.trim (substring 0 (maxLen - 3) str) ++ "...")%string)) /\
    ((3 <= maxLen)%nat -> (String.length (truncate str maxLen) <= maxLen)%nat) /\
    (forall outcome : string,
       Str.isAscii outcome = true ->
       (String.length (descriptionOf outcome str) <= String.length outcome + 64)%nat).
Proof.
  intros str maxLen _.
  split; [apply truncate_short|]. split; [|split].
  - intros Hlen. split.
    + intros i. apply truncate_at_space. exact Hlen.
    + apply truncate_plain_cut. exact Hlen.
  - apply truncate_length.
  - intros outcome _. apply descriptionOf_length.
Qed.

(** X7 at work on a title of 61 characters in a description: its last space
    among the first 52 characters is at index 51. *)
Lemma truncate_cuts_at_the_last_space_witness :
  truncate "Will the weather station at the airport record rain tomorrow?" 55
  = "Will the weather station at the airport record rain..."%string /\
  (String.length
     (descriptionOf "Yes" "Will the weather station at the airport record rain tomorrow?")
   <= 3 + 64)%nat.
Proof.
  destruct (truncate_cuts_at_the_last_space
              "Will the weather station at the airport record rain tomorrow?" 55 eq_refl)
    as (_ & Hcut & _ & Hdesc).
  split.
  - rewrite (proj1 (Hcut ltac:(cbn; lia)) 51%nat);
      [reflexivity | lia | lia | reflexivity | intros j Hj; lia].
  - apply (Hdesc "Yes"%string). reflexivity.
Defined.

(* --------------------------------------------------------------------- *)
(** ** Dates *)

Module CalendarFacts.

(** The month and the day of every day number are those of a calendar. *)
Lemma civil_from_days_range z :
  let '(y, m, d) := JsDate.civil_from_days z in
  1 <= m <= 12 /\ 1 <= d <= 31.
Proof.
  unfold JsDate.civil_from_days. cbv zeta.
  set (z' := z + 719468).
  set (era := z' / 146097).
  set (doe := z' - era * 146097).
  assert (Hdoe : 0 <= doe < 146097)
    by (unfold doe, era; Z.to_euclidean_division_equations; lia).
  clearbody doe. clear era z'.
  set (yoe := (doe - doe / 1460 + doe / 36524 - doe / 146096) / 365).
  assert (Hyoe : 0 <= yoe <= 399)
    by (unfold yoe; Z.to_euclidean_division_equations; lia).
  set (doy := doe - (365 * yoe + yoe / 4 - yoe / 100)).
  assert (Hdoy : 0 <= doy <= 365).
  { unfold doy, yoe. Z.to_euclidean_division_equations. lia. }
  clearbody doy.
  set (mp := (5 * doy + 2) / 153).
  assert (Hmp : 0 <= mp <= 11) by (unfold mp; Z.to_euclidean_division_equations; lia).
  assert (Hd : 1 <= doy - (153 * mp + 2) / 5 + 1 <= 31)
    by (unfold mp; Z.to_euclidean_division_equations; lia).
  destruct (mp <? 10) eqn:E; [apply Z.ltb_lt in E | apply Z.ltb_ge in E]; split; lia.
Qed.

End CalendarFacts.

Module PadFacts.

Lemma two_digits k :
  0 <= k <= 99 ->
  String.length (Str.padStart2 (Str.ofZ k)) = 2%nat /\
  allDigits (Str.padStart2 (Str.ofZ k)) = true.
Proof.
  intros H. rewrite <- (Z2Nat.id k) by lia.
  assert (Hn : (Z.to_nat k < 100)%nat) by lia.
  generalize dependent (Z.to_nat k). intros n Hn. clear H.
  do 100 (destruct n as [|n]; [vm_compute; split; reflexivity|]).
  lia.
Qed.

End PadFacts.

(** X8.  For a timestamp that a [Date] can hold, at most 8640000000000
    seconds from the epoch either way, [formatDate] writes its local date as
    month, slash, day, slash, year: the month (its index from 0 to 11 plus
    one) and the day (from 1 to 31) with exactly two digits each, the year as
    its decimal numeral without padding. *)
Theorem formatDate_is_month_day_year :
  forall tz timestamp,
    -8640000000000 <= timestamp <= 8640000000000 ->
    let '(year, monthIndex, day) := JsDate.localFields tz timestamp in
    0 <= monthIndex <= 11 /\ 1 <= day <= 31 /\
    exists mm dd : string,
      formatDate tz timestamp = (mm ++ "/" ++ dd ++ "/" ++ Str.ofZ year)%string /\
      mm = Str.padStart2 (Str.ofZ (monthIndex + 1)) /\
      dd = Str.padStart2 (Str.ofZ day) /\
      String.length mm = 2%nat /\ allDigits mm = true /\
      String.length dd = 2%nat /\ allDigits dd = true.
Proof.
  intros tz timestamp _. unfold formatDate, JsDate.localFields.
  pose proof (CalendarFacts.civil_from_days_range ((timestamp + tz) / 86400)) as H.
  destruct (JsDate.civil_from_days ((timestamp + tz) / 86400)) as [[y m] d].
  destruct H as [Hm Hd].
  split; [lia|]. split; [lia|].
  exists (Str.padStart2 (Str.ofZ (m - 1 + 1))), (Str.padStart2 (Str.ofZ d)).
  split; [reflexivity|]. split; [reflexivity|]. split; [reflexivity|].
  destruct (PadFacts.two_digits (m - 1 + 1)) as [H1 H2]; [lia|].
  destruct (PadFacts.two_digits d) as [H3 H4]; [lia|].
  auto.
Qed.

(** X8 at work on 14 November 2023, 22:13:20 UTC. *)
Lemma formatDate_is_month_day_year_witness :
  0 <= 10 <= 11 /\ 1 <= 14 <= 31 /\
  exists mm dd : string,
    formatDate 0 1700000000 = (mm ++ "/" ++ dd ++ "/" ++ Str.ofZ 2023)%string /\
    mm = Str.padStart2 (Str.ofZ (10 + 1)) /\
    dd = Str.padStart2 (Str.ofZ 14) /\
    String.length mm = 2%nat /\ allDigits mm = true /\
    String.length dd = 2%nat /\ allDigits dd = true.
Proof.
  apply (formatDate_is_month_day_year 0 1700000000). lia.
Defined.

(** X9.  For a tax year from 0 to 99 the end of the year that
    [generateTaxReport] computes is the end of the year 1900 + taxYear, as
    [new Date(year, ...)] reads such a year: its local date is December 31 of
    1900 + taxYear, and a write-off is dated 12/31 of that year. *)
Theorem a_two_digit_tax_year_is_in_the_1900s :
  forall tz taxYear,
    0 <= taxYear <= 99 ->
    taxYearEndOf tz taxYear = taxYearEndOf tz (1900 + taxYear) /\
    JsDate.localFields tz (taxYearEndOf tz taxYear) = (1900 + taxYear, 11, 31) /\
    formatDate tz (taxYearEndOf tz taxYear) = ("12/31/" ++ Str.ofZ (1900 + taxYear))%string.
Proof.
  intros tz taxYear H.
  assert (Heq : taxYearEndOf tz taxYear = taxYearEndOf tz (1900 + taxYear)).
  { unfold taxYearEndOf, JsDate.localTime.
    replace ((0 <=? taxYear) && (taxYear <=? 99))%bool with true
      by (symmetry; apply andb_true_iff; split; apply Z.leb_le; lia).
    replace ((0 <=? 1900 + taxYear) && (1900 + taxYear <=? 99))%bool with false
      by (symmetry; apply andb_false_iff; right; apply Z.leb_gt; lia).
    reflexivity. }
  destruct (DateFacts.taxYearEnd_fields tz (1900 + taxYear)) as [Hf _]; [lia|].
  split; [exact Heq|]. rewrite Heq. split; [exact Hf|].
  unfold formatDate. rewrite Hf. reflexivity.
Qed.

(** X9 at work on the tax year 24. *)
Lemma a_two_digit_tax_year_witness :
  taxYearEndOf 0 24 = taxYearEndOf 0 1924 /\
  JsDate.localFields 0 (taxYearEndOf 0 24) = (1924, 11, 31) /\
  formatDate 0 (taxYearEndOf 0 24) = "12/31/1924"%string.
Proof.
  apply (a_two_digit_tax_year_is_in_the_1900s 0 24). lia.
Defined.

(* --------------------------------------------------------------------- *)
(** ** Inputs without a position *)

Lemma normalizeAll_dropped {num : Type} {N : Number num} (trades : list (PolymarketTrade num)) :
  Forall (fun t => Trade.conditionId t = ""%string \/ Trade.outcome t = ""%string) trades ->
  normalizeAll trades = [].
Proof.
  induction 1 as [|t r Ht _ IH]; cbn [normalizeAll]; [reflexivity|].
  replace (normalizeTrade t) with (@None (PolymarketTrade num)); [exact IH|].
  symmetry. unfold normalizeTrade.
  destruct Ht as [-> | ->]; cbn [String.eqb orb]; [reflexivity|].
  rewrite orb_true_r. reflexivity.
Qed.

(** X10.  On binary64: when every trade lacks a conditionId or an outcome, and
    so when there are no trades at all, the report is empty: no entries, two
    summaries of count 0 and totals 0, a total gain of 0, no open positions
    and no warnings, whatever the market lookup and the tax year. *)
Theorem trades_without_a_position_give_an_empty_report :
  forall tz fetchMarketsBatch (trades : list (PolymarketTrade float)) taxYear,
    Forall (fun t => Trade.conditionId t = ""%string \/ Trade.outcome t = ""%string) trades ->
    generateTaxReport tz fetchMarketsBatch trades taxYear
    = Report.mk [] [] (Summary.mk 0%nat 0%float 0%float 0%float)
                (Summary.mk 0%nat 0%float 0%float 0%float) 0%nat 0%float [] [].
Proof.
  intros tz fetch trades taxYear H. unfold generateTaxReport.
  rewrite (normalizeAll_dropped trades H). reflexivity.
Qed.

(** X10 at work on a buy without a conditionId and a sell without an outcome. *)
Lemma trades_without_a_position_witness :
  generateTaxReport 0 Examples.resolved
    [ Examples.buy 1700000000 "" "Yes" 10 10; Examples.sell 1700000001 "0xc1" "" 5 4 ] 2023
  = Report.mk [] [] (Summary.mk 0%nat 0%float 0%float 0%float)
                (Summary.mk 0%nat 0%float 0%float 0%float) 0%nat 0%float [] [].
Proof.
  apply trades_without_a_position_give_an_empty_report.
  constructor; [left; reflexivity|]. constructor; [right; reflexivity|]. constructor.
Defined.

(* --------------------------------------------------------------------- *)
(** ** Wallet addresses *)

Module TrimFacts.

Lemma trimEnd_cons c r :
  Str.trimEnd (String c r)
  = match Str.trimEnd r with
    | EmptyString => if Str.is_space c then EmptyString else String c EmptyString
    | String c' r' => String c (String c' r')
    end.
Proof. reflexivity. Qed.

Lemma trimEnd_idem s : Str.trimEnd (Str.trimEnd s) = Str.trimEnd s.
Proof.
  induction s as [|c r IH]; [reflexivity|].
  rewrite (trimEnd_cons c r).
  destruct (Str.trimEnd r) as [|c' r'] eqn:E.
  - destruct (Str.is_space c) eqn:Ec; [reflexivity|].
    rewrite trimEnd_cons. cbn [Str.trimEnd]. rewrite Ec. reflexivity.
  - rewrite trimEnd_cons, IH. reflexivity.
Qed.

Lemma trimStart_head s :
  Str.trimStart s = ""%string \/
  exists c r, Str.trimStart s = String c r /\ Str.is_space c = false.
Proof.
  induction s as [|c r IH]; cbn [Str.trimStart]; [left; reflexivity|].
  destruct (Str.is_space c) eqn:E; [exact IH|]. right. exists c, r. auto.
Qed.

Lemma trimEnd_head c r :
  Str.is_space c = false -> exists r', Str.trimEnd (String c r) = String c r'.
Proof.
  intros H. cbn [Str.trimEnd]. destruct (Str.trimEnd r) as [|c' r'].
  - rewrite H. eauto.
  - eauto.
Qed.

Lemma trim_idem s : Str.trim (Str.trim s) = Str.trim s.
Proof.
  unfold Str.trim. destruct (trimStart_head s) as [E | (c & r & E & Hc)]; rewrite E.
  - reflexivity.
  - destruct (trimEnd_head c r Hc) as [r' E']. rewrite E'.
    cbn [Str.trimStart]. rewrite Hc, <- E'. apply trimEnd_idem.
Qed.

(** Text without white space at either end is its own trim. *)
Lemma trimEnd_app a b :
  b <> ""%string -> Str.trimEnd b = b -> Str.trimEnd (a ++ b) = (a ++ b)%string.
Proof.
  intros Hb Ht. induction a as [|c a IH]; cbn [append]; [exact Ht|].
  rewrite trimEnd_cons, IH. destruct (a ++ b)%string eqn:E; [|reflexivity].
  destruct a; [cbn in E; contradiction | discriminate].
Qed.

End TrimFacts.

Module WalletFacts.

Import Wallet.

Lemma isHex_not_space c : isHex c = true -> Str.is_space c = false.
Proof.
  unfold isHex, Str.is_space. cbv zeta. intros H.
  destruct (Nat.eqb_spec (nat_of_ascii c) 32) as [E | E];
    [rewrite E in H; discriminate|].
  cbn [orb]. apply andb_false_iff.
  destruct (Nat.leb_spec 9 (nat_of_ascii c)); [|left; reflexivity].
  destruct (Nat.leb_spec (nat_of_ascii c) 13) as [H13 | H13]; [|right; reflexivity].
  exfalso.
  repeat match type of H with
         | (_ || _)%bool = true => apply orb_true_iff in H; destruct H as [H | H]
         | (_ && _)%bool = true => apply andb_true_iff in H; destruct H as [H H']
         end; apply Nat.leb_le in H; lia.
Qed.

Lemma allHex_trimEnd digits : allHex digits = true -> Str.trimEnd digits = digits.
Proof.
  induction digits as [|c r IH]; cbn [allHex Str.trimEnd]; [reflexivity|].
  intros H. apply andb_true_iff in H. destruct H as [Hc Hr].
  rewrite (IH Hr). destruct r; [|reflexivity].
  rewrite (isHex_not_space c Hc). reflexivity.
Qed.

Lemma lower_isHex c : isHex c = true -> isLowerHex (lower_ascii c) = true.
Proof.
  unfold isHex, isLowerHex, lower_ascii. cbv zeta. intros H.
  assert (Hn : (nat_of_ascii c < 256)%nat) by apply nat_ascii_bounded.
  set (n := nat_of_ascii c) in *.
  assert (Hcases : (48 <= n <= 57 \/ 97 <= n <= 102 \/ 65 <= n <= 70)%nat).
  { repeat match type of H with
           | (_ || _)%bool = true => apply orb_true_iff in H; destruct H as [H | H]
           | (_ && _)%bool = true => apply andb_true_iff in H; destruct H as [H H']
           end; apply Nat.leb_le in H; apply Nat.leb_le in H'; lia. }
  destruct (Nat.leb 65 n && Nat.leb n 90)%bool eqn:Eu.
  - apply andb_true_iff in Eu. destruct Eu as [E1 E2].
    apply Nat.leb_le in E1. apply Nat.leb_le in E2.
    rewrite nat_ascii_embedding by lia.
    apply orb_true_iff. right. apply andb_true_iff. split; apply Nat.leb_le; lia.
  - fold n. apply andb_false_iff in Eu.
    destruct Eu as [E | E]; apply Nat.leb_gt in E;
      apply orb_true_iff; destruct Hcases as [Hc | [Hc | Hc]]; try lia;
      try (left; apply andb_true_iff; split; apply Nat.leb_le; lia);
      try (right; apply andb_true_iff; split; apply Nat.leb_le; lia).
Qed.

Lemma lower_allHex digits : allHex digits = true -> allLowerHex (toLowerCase digits) = true.
Proof.
  induction digits as [|c r IH]; cbn [allHex toLowerCase allLowerHex]; [reflexivity|].
  intros H. apply andb_true_iff in H. destruct H as [Hc Hr].
  rewrite (lower_isHex c Hc), (IH Hr). reflexivity.
Qed.

Lemma length_toLowerCase s : String.length (toLowerCase s) = String.length s.
Proof.
  induction s as [|c r IH]; cbn [toLowerCase String.length]; congruence.
Qed.

Lemma lower_fixed c : isLowerHex c = true -> lower_ascii c = c.
Proof.
  unfold isLowerHex, lower_ascii. cbv zeta. intros H.
  destruct (Nat.leb 65 (nat_of_ascii c) && Nat.leb (nat_of_ascii c) 90)%bool eqn:Eu;
    [|reflexivity].
  exfalso. apply andb_true_iff in Eu. destruct Eu as [E1 E2].
  apply Nat.leb_le in E1. apply Nat.leb_le in E2.
  repeat match type of H with
         | (_ || _)%bool = true => apply orb_true_iff in H; destruct H as [H | H]
         | (_ && _)%bool = true => apply andb_true_iff in H; destruct H as [H H']
         end; apply Nat.leb_le in H; apply Nat.leb_le in H'; lia.
Qed.

Lemma toLowerCase_fixed digits : allLowerHex digits = true -> toLowerCase digits = digits.
Proof.
  induction digits as [|c r IH]; cbn [allLowerHex toLowerCase]; [reflexivity|].
  intros H. apply andb_true_iff in H. destruct H as [Hc Hr].
  rewrite (lower_fixed c Hc), (IH Hr). reflexivity.
Qed.

Lemma lowerHex_isHex c : isLowerHex c = true -> isHex c = true.
Proof.
  unfold isLowerHex, isHex. cbv zeta. intros ->. reflexivity.
Qed.

Lemma allLowerHex_allHex digits : allLowerHex digits = true -> allHex digits = true.
Proof.
  induction digits as [|c r IH]; cbn [allLowerHex allHex]; [reflexivity|].
  intros H. apply andb_true_iff in H. destruct H as [Hc Hr].
  rewrite (lowerHex_isHex c Hc), (IH Hr). reflexivity.
Qed.

(** What a valid address is, once trimmed. *)
Lemma valid_shape address :
  isValidWalletAddress address = true ->
  exists digits, Str.trim address = String "0" (String "x" digits) /\
                 String.length digits = 40%nat /\ allHex digits = true.
Proof.
  unfold isValidWalletAddress.
  destruct (Str.trim address) as [|c0 [|c1 digits]]; try discriminate;
    try (destruct c0 as [[] [] [] [] [] [] [] []]; discriminate).
  destruct (Ascii.eqb_spec c0 "0"%char) as [-> | Hn0];
    [|destruct c0 as [[] [] [] [] [] [] [] []]; try discriminate; contradiction].
  destruct (Ascii.eqb_spec c1 "x"%char) as [-> | Hn1];
    [|destruct c1 as [[] [] [] [] [] [] [] []]; try discriminate; contradiction].
  intros H. apply andb_true_iff in H. destruct H as [Hl Hh].
  apply Nat.eqb_eq in Hl. exists digits. auto.
Qed.

Lemma shape_valid digits :
  String.length digits = 40%nat -> allHex digits = true ->
  Str.trim (String "0" (String "x" digits)) = String "0" (String "x" digits) /\
  isValidWalletAddress (String "0" (String "x" digits)) = true.
Proof.
  intros Hl Hh.
  assert (Ht : Str.trim (String "0" (String "x" digits)) = String "0" (String "x" digits)).
  { unfold Str.trim. cbn [Str.trimStart]. 
    change (Str.is_space "0") with false. cbv iota.
    apply (TrimFacts.trimEnd_app "0x" digits).
    - intros ->. discriminate.
    - apply allHex_trimEnd, Hh. }
  split; [exact Ht|]. unfold isValidWalletAddress. rewrite Ht.
  rewrite Hl, Hh. reflexivity.
Qed.

Lemma lowered_address x :
  isValidWalletAddress x = true -> Str.trim x = x ->
  isLowerAddress (toLowerCase x) /\
  isValidWalletAddress (toLowerCase x) = true /\
  extractWalletAddress (toLowerCase x) = Some (toLowerCase x).
Proof.
  intros Hv Ht. destruct (valid_shape x Hv) as (digits & E & Hl & Hh).
  rewrite Ht in E. subst x. cbn [toLowerCase].
  change (lower_ascii "0") with "0"%char. change (lower_ascii "x") with "x"%char.
  pose proof (lower_allHex digits Hh) as Hlow.
  pose proof (length_toLowerCase digits) as Hlen. rewrite Hl in Hlen.
  destruct (shape_valid (toLowerCase digits) Hlen (allLowerHex_allHex _ Hlow)) as [Htrim Hvalid].
  split; [|split].
  - exists (toLowerCase digits). auto.
  - exact Hvalid.
  - unfold extractWalletAddress. cbv zeta. rewrite Htrim, Hvalid.
    cbn [toLowerCase].
    change (lower_ascii "0") with "0"%char. change (lower_ascii "x") with "x"%char.
    rewrite (toLowerCase_fixed _ Hlow). reflexivity.
Qed.

End WalletFacts.

Module WalletMore.

Import Wallet WalletFacts LengthFacts.

#[local] Open Scope nat_scope.

Lemma trimStart_full s :
  String.length (Str.trimStart s) = String.length s -> Str.trimStart s = s.
Proof.
  destruct s as [|c r]; cbn [Str.trimStart]; [reflexivity|].
  destruct (Str.is_space c); [|reflexivity].
  pose proof (length_trimStart r). cbn [String.length]. lia.
Qed.

Lemma trimEnd_full s :
  String.length (Str.trimEnd s) = String.length s -> Str.trimEnd s = s.
Proof.
  induction s as [|c r IH]; [reflexivity|].
  rewrite TrimFacts.trimEnd_cons. pose proof (length_trimEnd r) as Hle.
  destruct (Str.trimEnd r) as [|c' r'] eqn:E.
  - destruct (Str.is_space c); cbn [String.length]; [lia|].
    intros H. destruct r; [reflexivity | cbn [String.length] in H; lia].
  - cbn [String.length] in *. intros H. rewrite <- IH by lia. reflexivity.
Qed.

Lemma trim_full s : String.length (Str.trim s) = String.length s -> Str.trim s = s.
Proof.
  unfold Str.trim. intros H.
  pose proof (length_trimEnd (Str.trimStart s)). pose proof (length_trimStart s).
  rewrite trimEnd_full by lia. apply trimStart_full. lia.
Qed.

Lemma length_substring_le n m s : String.length (substring n m s) <= m.
Proof.
  revert n m. induction s as [|c r IH]; intros n m.
  - destruct n, m; cbn [substring String.length]; lia.
  - destruct n as [|n], m as [|m]; cbn [substring String.length]; try lia.
    + specialize (IH 0 m). lia.
    + apply (IH n 0).
    + apply (IH n (S m)).
Qed.

Lemma matchProfile_group s group :
  matchProfile s = Some group -> String.length group <= 42.
Proof.
  induction s as [|c r IH]; cbn [matchProfile].
  - unfold profileAt. cbn. discriminate.
  - destruct (profileAt (String c r)) as [g|] eqn:E.
    + intros H. injection H as <-. unfold profileAt in E.
      destruct (afterLiteral _ _); [|discriminate].
      destruct (_ && _)%bool; [|discriminate].
      injection E as <-. apply length_substring_le.
    + exact IH.
Qed.

Lemma matchProfile_skip c r :
  profileAt (String c r) = None -> matchProfile (String c r) = matchProfile r.
Proof.
  intros H. cbn [matchProfile]. rewrite H. reflexivity.
Qed.

Lemma matchProfile_here s group :
  profileAt s = Some group -> matchProfile s = Some group.
Proof.
  intros H. destruct s; cbn [matchProfile]; rewrite H; reflexivity.
Qed.

(** The link with a lower-case or an upper-case x. *)
Lemma matchProfile_link (x : ascii) digits :
  Str.upper_ascii x = "X"%char ->
  String.length digits = 40 -> allHex digits = true ->
  matchProfile ("https://polymarket.com/profile/" ++ String "0" (String x digits))
  = Some (String "0" (String x digits)).
Proof.
  intros Hx Hl Hh.
  assert (Hsub : substring 0 40 digits = digits).
  { clear Hh. revert Hl. generalize 40. intros n. revert digits.
    induction n as [|n IH]; intros [|c r]; cbn [String.length substring]; try discriminate;
      try reflexivity.
    intros H. rewrite IH by lia. reflexivity. }
  cbn [append].
  do 8 (rewrite matchProfile_skip by (lazy; reflexivity)).
  apply matchProfile_here. unfold profileAt.
  change (afterLiteral "polymarket.com/profile/0x"
            (String "p" (String "o" (String "l" (String "y" (String "m" (String "a"
            (String "r" (String "k" (String "e" (String "t" (String "." (String "c"
            (String "o" (String "m" (String "/" (String "p" (String "r" (String "o"
            (String "f" (String "i" (String "l" (String "e" (String "/" (String "0"
            (String x digits))))))))))))))))))))))))))
    with (if Ascii.eqb (Str.upper_ascii "x") (Str.upper_ascii x) then Some digits else None).
  rewrite Hx. change (Ascii.eqb (Str.upper_ascii "x") "X") with true. cbv iota.
  rewrite Hsub, Hl, Hh. cbn [Nat.eqb andb].
  change (substring 23 42 ?s) with (substring 23 42 s).
  cbn [substring]. rewrite Hsub. reflexivity.
Qed.

End WalletMore.

(** X14.  Whatever [extractWalletAddress] returns is 0x followed by forty
    digits out of 0-9 and a-f; [isValidWalletAddress] accepts it, and
    extracting from it again returns it unchanged. *)
Theorem an_extracted_wallet_is_a_lower_case_address :
  forall input w,
    Wallet.extractWalletAddress input = Some w ->
    Wallet.isLowerAddress w /\
    Wallet.isValidWalletAddress w = true /\
    Wallet.extractWalletAddress w = Some w.
Proof.
  intros input w. unfold Wallet.extractWalletAddress at 1. cbv zeta.
  destruct (Wallet.isValidWalletAddress (Str.trim input)) eqn:Ev.
  - intros H. injection H as <-.
    apply WalletFacts.lowered_address; [exact Ev | apply TrimFacts.trim_idem].
  - destruct (Wallet.matchProfile (Str.trim input)) as [group|] eqn:Em; [|discriminate].
    destruct (Wallet.isValidWalletAddress group) eqn:Eg; [|discriminate].
    intros H. injection H as <-.
    apply WalletFacts.lowered_address; [exact Eg|].
    apply WalletMore.trim_full.
    destruct (WalletFacts.valid_shape group Eg) as (digits & E & Hl & _).
    pose proof (WalletMore.matchProfile_group _ _ Em) as Hle.
    pose proof (LengthFacts.length_trim group) as Ht.
    rewrite E in Ht |- *. cbn [String.length] in *. lia.
Qed.

(** X14 at work on a profile link inside a sentence. *)
Lemma an_extracted_wallet_witness :
  Wallet.isLowerAddress "0xabcdef0123456789abcdef0123456789abcdef01" /\
  Wallet.isValidWalletAddress "0xabcdef0123456789abcdef0123456789abcdef01" = true /\
  Wallet.extractWalletAddress "0xabcdef0123456789abcdef0123456789abcdef01"
  = Some "0xabcdef0123456789abcdef0123456789abcdef01"%string.
Proof.
  apply (an_extracted_wallet_is_a_lower_case_address
           "see https://polymarket.com/profile/0xABCDEF0123456789abcdef0123456789ABCDEF01?tab=activity").
  vm_compute. reflexivity.
Defined.

(** X15.  [extractWalletAddress] returns every input that
    [isValidWalletAddress] accepts, trimmed and in lower case; from a profile
    link that ends in polymarket.com/profile/0x and forty hexadecimal digits
    it returns 0x and the digits in lower case; the same link with 0X for 0x
    gives null: the pattern matches it without regard to case and the
    validation then refuses it. *)
Theorem addresses_and_profile_links_are_accepted :
  (forall input,
     Wallet.isValidWalletAddress input = true ->
     Wallet.extractWalletAddress input = Some (Wallet.toLowerCase (Str.trim input))) /\
  (forall digits,
     String.length digits = 40%nat -> Wallet.allHex digits = true ->
     Wallet.extractWalletAddress ("https://polymarket.com/profile/0x" ++ digits)
     = Some ("0x" ++ Wallet.toLowerCase digits)%string /\
     Wallet.extractWalletAddress ("https://polymarket.com/profile/0X" ++ digits) = None).
Proof.
  split.
  - intros input H. unfold Wallet.extractWalletAddress. cbv zeta.
    unfold Wallet.isValidWalletAddress in *. rewrite TrimFacts.trim_idem, H. reflexivity.
  - intros digits Hl Hh.
    assert (Htail : Str.trimEnd digits = digits) by apply WalletFacts.allHex_trimEnd, Hh.
    assert (Hne : digits <> ""%string) by (intros ->; discriminate).
    assert (Htrim : forall x,
               Str.trim ("https://polymarket.com/profile/" ++ String "0" (String x digits))
               = ("https://polymarket.com/profile/" ++ String "0" (String x digits))%string).
    { intros x. unfold Str.trim.
      change (Str.trimStart ("https://polymarket.com/profile/" ++ String "0" (String x digits)))
        with ("https://polymarket.com/profile/" ++ String "0" (String x digits))%string.
      apply (TrimFacts.trimEnd_app
               ("https://polymarket.com/profile/" ++ String "0" (String x EmptyString))
               digits Hne Htail). }
    assert (Hno : forall x,
               Wallet.isValidWalletAddress
                 ("https://polymarket.com/profile/" ++ String "0" (String x digits)) = false).
    { intros x. unfold Wallet.isValidWalletAddress. rewrite Htrim. reflexivity. }
    split.
    + change ("https://polymarket.com/profile/0x" ++ digits)%string
        with ("https://polymarket.com/profile/" ++ String "0" (String "x" digits))%string.
      unfold Wallet.extractWalletAddress. cbv zeta. rewrite Htrim, Hno.
      rewrite (WalletMore.matchProfile_link "x" digits eq_refl Hl Hh).
      destruct (WalletFacts.shape_valid digits Hl Hh) as [_ ->]. reflexivity.
    + change ("https://polymarket.com/profile/0X" ++ digits)%string
        with ("https://polymarket.com/profile/" ++ String "0" (String "X" digits))%string.
      unfold Wallet.extractWalletAddress. cbv zeta. rewrite Htrim, Hno.
      rewrite (WalletMore.matchProfile_link "X" digits eq_refl Hl Hh).
      replace (Wallet.isValidWalletAddress (String "0" (String "X" digits))) with false;
        [reflexivity|].
      symmetry. unfold Wallet.isValidWalletAddress, Str.trim. cbn [Str.trimStart].
      change (Str.is_space "0") with false. cbv iota.
      pose proof (TrimFacts.trimEnd_app "0X" digits Hne Htail) as H0X.
      cbn [append] in H0X. rewrite H0X. reflexivity.
Qed.

(** X15 at work on an address between spaces and on a profile link, with x and with X. *)
Lemma addresses_and_profile_links_witness :
  Wallet.extractWalletAddress "  0xABCDEF0123456789abcdef0123456789ABCDEF01 "
  = Some (Wallet.toLowerCase (Str.trim "  0xABCDEF0123456789abcdef0123456789ABCDEF01 ")) /\
  Wallet.extractWalletAddress
    "https://polymarket.com/profile/0xABCDEF0123456789abcdef0123456789ABCDEF01"
  = Some "0xabcdef0123456789abcdef0123456789abcdef01"%string /\
  Wallet.extractWalletAddress
    "https://polymarket.com/profile/0XABCDEF0123456789abcdef0123456789ABCDEF01" = None.
Proof.
  split.
  - apply (proj1 addresses_and_profile_links_are_accepted). reflexivity.
  - apply (proj2 addresses_and_profile_links_are_accepted
             "ABCDEF0123456789abcdef0123456789ABCDEF01"%string); reflexivity.
Defined.

(* --------------------------------------------------------------------- *)
(** ** Batches of market requests *)

Module UniqueFacts.

Import Api.

Lemma existsb_eqb id seen : existsb (String.eqb id) seen = true <-> In id seen.
Proof.
  rewrite existsb_exists. split.
  - intros (x & Hin & E). apply String.eqb_eq in E. subst x. exact Hin.
  - intros H. exists id. split; [exact H | apply String.eqb_refl].
Qed.

Lemma uniqueOf_In x ids : forall seen,
  In x (uniqueOf seen ids) <-> In x ids /\ ~ In x seen.
Proof.
  induction ids as [|id r IH]; intros seen; cbn [uniqueOf In]; [tauto|].
  destruct (existsb (String.eqb id) seen) eqn:E.
  - apply existsb_eqb in E. rewrite IH. split; [tauto|].
    intros [[<- | H] Hn]; [contradiction | tauto].
  - assert (Hn : ~ In id seen) by (intros H; apply existsb_eqb in H; congruence).
    cbn [In]. rewrite IH. cbn [In]. split.
    + intros [<- | [H1 H2]]; [tauto|]. split; [tauto|]. intros H. apply H2. tauto.
    + intros [[<- | H] Hs]; [tauto|].
      destruct (string_dec id x) as [<- | Hne]; [tauto|]. right. split; [exact H|].
      intros [Heq | H2]; [contradiction | contradiction].
Qed.

Lemma uniqueOf_NoDup ids : forall seen, NoDup (uniqueOf seen ids).
Proof.
  induction ids as [|id r IH]; intros seen; cbn [uniqueOf]; [constructor|].
  destruct (existsb (String.eqb id) seen); [apply IH|].
  constructor; [|apply IH]. rewrite uniqueOf_In. cbn [In]. tauto.
Qed.

Lemma unique_In x ids : In x (unique ids) <-> In x ids.
Proof.
  unfold unique. rewrite uniqueOf_In. cbn [In]. tauto.
Qed.

Lemma unique_NoDup ids : NoDup (unique ids).
Proof. apply uniqueOf_NoDup. Qed.

End UniqueFacts.

Module BatchFacts.

Import Api.

Section BatchFacts.

Context {num : Type}.
Variable fetchMarket : string -> option (MarketData num).

#[local] Open Scope nat_scope.

Lemma slice_batch i (u : list string) : slice i (i + batchSize) u = firstn 5 (skipn i u).
Proof.
  unfold slice, batchSize. replace (i + 5 - i) with 5 by lia. reflexivity.
Qed.

Lemma skipn_more i (u : list string) : skipn (i + 5) u = skipn 5 (skipn i u).
Proof.
  rewrite skipn_skipn. f_equal. lia.
Qed.

Lemma ltb_skipn i (u : list string) : Nat.ltb i (List.length u) = negb (match skipn i u with [] => true | _ => false end).
Proof.
  destruct (Nat.ltb_spec i (List.length u)) as [H | H].
  - destruct (skipn i u) eqn:E; [|reflexivity].
    apply (f_equal (@List.length string)) in E. rewrite length_skipn in E. cbn in E. lia.
  - rewrite skipn_all2 by lia. reflexivity.
Qed.

Lemma get_store id batch : forall (m : list (string * MarketData num)),
  Inv.get id (storeResults m batch (map fetchMarket batch))
  = if existsb (String.eqb id) batch
    then match fetchMarket id with Some market => Some market | None => Inv.get id m end
    else Inv.get id m.
Proof.
  unfold storeResults.
  induction batch as [|b r IH]; intros m; cbn [map combine fold_left existsb]; [reflexivity|].
  rewrite IH. cbn [fst snd]. clear IH.
  destruct (String.eqb id b) eqn:E; cbn [orb].
  - apply String.eqb_eq in E. subst b.
    destruct (fetchMarket id) as [market|] eqn:Ef.
    + rewrite Inv_get_set_same. destruct (existsb (String.eqb id) r); reflexivity.
    + destruct (existsb (String.eqb id) r); reflexivity.
  - apply String.eqb_neq in E.
    destruct (fetchMarket b) as [market|]; [|reflexivity].
    rewrite Inv_get_set_other by congruence. reflexivity.
Qed.

Lemma existsb_app_eqb id (a b : list string) :
  existsb (String.eqb id) (a ++ b)
  = (existsb (String.eqb id) a || existsb (String.eqb id) b)%bool.
Proof. apply existsb_app. Qed.

(** The map after the loop, from index [i] on. *)
Lemma batchLoop_get id (u : list string) : forall fuel i m log,
  List.length u - i < fuel ->
  Inv.get id (fst (batchLoop fetchMarket fuel i u m log))
  = if existsb (String.eqb id) (skipn i u)
    then match fetchMarket id with Some market => Some market | None => Inv.get id m end
    else Inv.get id m.
Proof.
  induction fuel as [|fuel IH]; intros i m log Hf; [lia|].
  cbn [batchLoop]. destruct (Nat.ltb_spec i (List.length u)) as [Hi | Hi].
  - cbv zeta. rewrite IH by (unfold batchSize; lia).
    rewrite get_store, slice_batch. unfold batchSize. rewrite skipn_more.
    rewrite <- (firstn_skipn 5 (skipn i u)) at 3. rewrite existsb_app_eqb.
    destruct (existsb (String.eqb id) (skipn 5 (skipn i u)));
      destruct (existsb (String.eqb id) (firstn 5 (skipn i u)));
      destruct (fetchMarket id); reflexivity.
  - cbn [fst]. rewrite skipn_all2 by lia. reflexivity.
Qed.

(** The log after the loop, from index [i] on: batches of five, the last one
    of what is left, and a sleep between two batches. *)
Lemma batchLoop_log (u : list string) : forall fuel i m log,
  List.length u - i < fuel ->
  exists batches,
    snd (batchLoop fetchMarket fuel i u m log) = log ++ sleepBetween batches /\
    List.concat batches = skipn i u /\
    Forall (fun b => 1 <= List.length b <= 5) batches /\
    Forall (fun b => List.length b = 5) (removelast batches) /\
    (batches = [] <-> skipn i u = []).
Proof.
  induction fuel as [|fuel IH]; intros i m log Hf; [lia|].
  cbn [batchLoop]. destruct (Nat.ltb_spec i (List.length u)) as [Hi | Hi].
  - cbv zeta. rewrite slice_batch.
    set (rest := skipn i u).
    assert (Hrest : List.length rest = List.length u - i) by (unfold rest; apply length_skipn).
    match goal with |- context [batchLoop fetchMarket fuel (i + batchSize) u ?m' ?l'] =>
      destruct (IH (i + batchSize) m' l') as (bs & Hlog & Hcat & Hlen & Hfull & Hnil);
        [unfold batchSize; lia|]
    end.
    unfold batchSize in *. rewrite skipn_more in Hcat, Hnil. fold rest in Hcat, Hnil.
    exists (firstn 5 rest :: bs). split; [|split; [|split; [|split]]].
    + rewrite Hlog.
      destruct (Nat.ltb_spec (i + 5) (List.length u)) as [Hmore | Hlast].
      * destruct bs as [|b bs'].
        -- exfalso. assert (E : skipn 5 rest = []) by (apply Hnil; reflexivity).
           apply (f_equal (@List.length string)) in E. rewrite length_skipn in E.
           cbn in E. lia.
        -- cbn [sleepBetween]. rewrite <- !app_assoc. reflexivity.
      * assert (E : bs = []).
        { apply Hnil. apply length_zero_iff_nil. rewrite length_skipn. lia. }
        subst bs. cbn [sleepBetween]. rewrite app_nil_r. reflexivity.
    + cbn [List.concat]. rewrite Hcat. apply firstn_skipn.
    + constructor; [|exact Hlen]. rewrite length_firstn. lia.
    + destruct bs as [|b bs']; [constructor|].
      change (removelast (firstn 5 rest :: b :: bs'))
        with (firstn 5 rest :: removelast (b :: bs')).
      constructor; [|exact Hfull].
      rewrite length_firstn.
      assert (Hne : skipn 5 rest <> []) by (intros E; apply Hnil in E; discriminate).
      assert (5 < List.length rest).
      { destruct (Nat.le_gt_cases (List.length rest) 5) as [Hle | Hgt]; [|exact Hgt].
        exfalso. apply Hne. apply skipn_all2. exact Hle. }
      lia.
    + split; [discriminate|]. intros E. exfalso.
      apply (f_equal (@List.length string)) in E. cbn in E. lia.
  - exists []. cbn [snd sleepBetween List.concat removelast]. rewrite app_nil_r.
    rewrite skipn_all2 by lia. repeat split; constructor.
Qed.

Lemma batchesOf_sleepBetween batches : batchesOf (sleepBetween batches) = batches.
Proof.
  induction batches as [|b [|b' r] IH]; [reflexivity | reflexivity|].
  change (sleepBetween (b :: b' :: r)) with (Fetched b :: Slept 500 :: sleepBetween (b' :: r)).
  unfold batchesOf in *. cbn [flat_map app]. rewrite IH. reflexivity.
Qed.

End BatchFacts.

End BatchFacts.

Lemma flat_map_same {A B : Type} (f g : A -> list B) (l : list A) :
  (forall a, In a l -> f a = g a) -> flat_map f l = flat_map g l.
Proof.
  induction l as [|a l IH]; intros H; cbn [flat_map]; [reflexivity|].
  rewrite (H a) by (left; reflexivity). rewrite IH; [reflexivity|].
  intros b Hb. apply H. right. exact Hb.
Qed.

Section MarketLookups.

Context {num : Type}.
Variable fetchMarket : string -> option (MarketData num).

Lemma existsb_unique id ids :
  existsb (String.eqb id) (Api.unique ids) = existsb (String.eqb id) ids.
Proof.
  apply eq_true_iff_eq. rewrite !UniqueFacts.existsb_eqb. apply UniqueFacts.unique_In.
Qed.

Lemma marketsOf_requested conditionIds id :
  Api.marketsOf fetchMarket conditionIds id
  = if existsb (String.eqb id) conditionIds then fetchMarket id else None.
Proof.
  unfold Api.marketsOf, Api.fetchMarketsBatch. cbv zeta.
  rewrite BatchFacts.batchLoop_get by lia. cbn [skipn Inv.get].
  rewrite existsb_unique.
  destruct (existsb (String.eqb id) conditionIds); [|reflexivity].
  destruct (fetchMarket id); reflexivity.
Qed.

End MarketLookups.

(** X16.  With [fetchMarket] resolving an id to a market or to null, the map
    of [fetchMarketsBatch] holds for each id asked for what [fetchMarket]
    resolves it to, and nothing for any other id; so
    [processWorthlessPositions] writes off the lots of exactly the positions
    that are worthless by [fetchMarket], and the report made with the batch
    map is the report made with [fetchMarket] itself. *)
Theorem fetched_markets_answer_for_the_requested_ids {num : Type} {N : Number num} :
  forall (fetchMarket : string -> option (MarketData num)),
    (forall conditionIds id,
       (In id conditionIds -> Api.marketsOf fetchMarket conditionIds id = fetchMarket id) /\
       (~ In id conditionIds -> Api.marketsOf fetchMarket conditionIds id = None)) /\
    (forall tz positions taxYearEnd,
       processWorthlessPositions tz (Api.marketsOf fetchMarket) positions taxYearEnd
       = flat_map (fun p => if isWorthless fetchMarket p
                            then map (worthlessEntry tz p taxYearEnd) (Position.lots p)
                            else [])
                  positions) /\
    (forall tz trades taxYear,
       generateTaxReport tz (Api.marketsOf fetchMarket) trades taxYear
       = generateTaxReport tz (fun _ => fetchMarket) trades taxYear).
Proof.
  intros fetchMarket.
  assert (Hget : forall conditionIds id,
             (In id conditionIds -> Api.marketsOf fetchMarket conditionIds id = fetchMarket id) /\
             (~ In id conditionIds -> Api.marketsOf fetchMarket conditionIds id = None)).
  { intros ids id. rewrite marketsOf_requested. split; intros H.
    - apply UniqueFacts.existsb_eqb in H. rewrite H. reflexivity.
    - replace (existsb (String.eqb id) ids) with false; [reflexivity|].
      symmetry. apply not_true_iff_false. intros E. apply H, UniqueFacts.existsb_eqb, E. }
  assert (Hw : forall tz positions taxYearEnd,
             processWorthlessPositions tz (Api.marketsOf fetchMarket) positions taxYearEnd
             = processWorthlessPositions tz (fun _ => fetchMarket) positions taxYearEnd).
  { intros tz positions taxYearEnd. unfold processWorthlessPositions.
    apply flat_map_same. intros p Hp.
    replace (isWorthless (Api.marketsOf fetchMarket (map Position.conditionId positions)) p)
      with (isWorthless fetchMarket p); [reflexivity|].
    unfold isWorthless.
    rewrite (proj1 (Hget (map Position.conditionId positions) (Position.conditionId p)));
      [reflexivity|].
    apply in_map, Hp. }
  split; [exact Hget|]. split.
  - intros tz positions taxYearEnd. rewrite Hw. reflexivity.
  - intros tz trades taxYear. unfold generateTaxReport. rewrite Hw. reflexivity.
Qed.

(** X16 at work on an id asked for between two others. *)
Lemma fetched_markets_witness :
  Api.marketsOf (Examples.resolved []) ["0xc2"; "0xc1"; "0xc2"]%string "0xc1"
  = Examples.resolved [] "0xc1".
Proof.
  apply (proj1 (proj1 (fetched_markets_answer_for_the_requested_ids (N := binary64)
                         (Examples.resolved []))
                 ["0xc2"; "0xc1"; "0xc2"]%string "0xc1"%string)).
  right. left. reflexivity.
Defined.

(** X17.  [fetchMarketsBatch] asks for the distinct ids in the order of their
    first occurrence, each of them once, in batches of five, the last batch
    holding from one to five; it sleeps 500 ms between two batches and not
    after the last. *)
Theorem markets_are_fetched_once_in_batches_of_five {num : Type} :
  forall (fetchMarket : string -> option (MarketData num)) conditionIds,
    let log := snd (Api.fetchMarketsBatch fetchMarket conditionIds) in
    let batches := Api.batchesOf log in
    log = Api.sleepBetween batches /\
    List.concat batches = Api.unique conditionIds /\
    NoDup (List.concat batches) /\
    (forall id, In id (List.concat batches) <-> In id conditionIds) /\
    Forall (fun b => (1 <= List.length b <= 5)%nat) batches /\
    Forall (fun b => List.length b = 5%nat) (removelast batches).
Proof.
  intros fetchMarket ids log batches.
  destruct (BatchFacts.batchLoop_log fetchMarket (Api.unique ids)
              (S (List.length (Api.unique ids))) 0 [] [])
    as (bs & Hlog & Hcat & Hlen & Hfull & _); [lia|].
  cbn [app skipn] in Hlog, Hcat.
  assert (Hb : batches = bs).
  { unfold batches, log, Api.fetchMarketsBatch. cbv zeta. rewrite Hlog.
    apply BatchFacts.batchesOf_sleepBetween. }
  rewrite Hb. split; [exact Hlog|]. split; [exact Hcat|]. rewrite Hcat.
  split; [apply UniqueFacts.unique_NoDup|].
  split; [intros id; apply UniqueFacts.unique_In|].
  split; assumption.
Qed.

Section Enrich.

Context {num : Type} {N : Number num}.
Variable fetchMarket : string -> option (MarketData num).

Lemma enrichTrade_kept lookup (t : PolymarketTrade num) :
  Api.lacksOutcome t = false -> Api.enrichTrade lookup t = t.
Proof.
  intros H. unfold Api.enrichTrade. rewrite H. reflexivity.
Qed.

Lemma enrich_per_trade (trades : list (PolymarketTrade num)) :
  Api.enrichRedeemOutcomes fetchMarket trades = map (Api.enrichTrade fetchMarket) trades.
Proof.
  unfold Api.enrichRedeemOutcomes. cbv zeta.
  destruct (filter Api.lacksOutcome trades) as [|t0 r0] eqn:Ef.
  - symmetry. rewrite <- (map_id trades) at 2. apply map_ext_in. intros t Ht.
    apply enrichTrade_kept. destruct (Api.lacksOutcome t) eqn:E; [|reflexivity].
    assert (Hin : In t (filter Api.lacksOutcome trades)) by (apply filter_In; auto).
    rewrite Ef in Hin. destruct Hin.
  - rewrite <- Ef. apply map_ext_in. intros t Ht. unfold Api.enrichTrade.
    destruct (Api.lacksOutcome t) eqn:E; [|reflexivity].
    change (Inv.get (Trade.conditionId t)
              (fst (Api.fetchMarketsBatch fetchMarket
                      (Api.unique (map Trade.conditionId (filter Api.lacksOutcome trades))))))
      with (Api.marketsOf fetchMarket
              (Api.unique (map Trade.conditionId (filter Api.lacksOutcome trades)))
              (Trade.conditionId t)).
    rewrite marketsOf_requested.
    rewrite existsb_unique.
    replace (existsb (String.eqb (Trade.conditionId t))
               (map Trade.conditionId (filter Api.lacksOutcome trades)))
      with true; [reflexivity|].
    symmetry. apply UniqueFacts.existsb_eqb, in_map, filter_In. auto.
Qed.

End Enrich.

(** X18.  [enrichRedeemOutcomes] changes a trade only if it is a REDEEM
    without an outcome, and gives it the outcome of the first token of its
    market that is flagged winner.  Normalized, such a REDEEM is a SELL of its
    size at price 1 on that outcome; it is dropped when its market was not
    fetched or has no winner, or when the outcome of the winner or the
    conditionId is empty. *)
Theorem a_redeem_takes_the_outcome_of_the_winner {num : Type} {N : Number num} :
  forall (fetchMarket : string -> option (MarketData num))
         (trades : list (PolymarketTrade num)),
    Api.enrichRedeemOutcomes fetchMarket trades = map (Api.enrichTrade fetchMarket) trades /\
    (forall t, Api.lacksOutcome t = false -> Api.enrichTrade fetchMarket t = t) /\
    (forall t,
       Api.lacksOutcome t = true ->
       normalizeTrade (Api.enrichTrade fetchMarket t)
       = match fetchMarket (Trade.conditionId t) with
         | Some market =>
             match find (fun token => Token.winner token) (Market.tokens market) with
             | Some winner =>
                 if (String.eqb (Trade.conditionId t) ""
                     || String.eqb (Token.outcome winner) "")%bool
                 then None
                 else Some (Trade.mk (Trade.timestamp t) REDEEM SELL (Trade.conditionId t)
                                     (Token.outcome winner) (Trade.size t)
                                     (Trade.size t * none)%num none
                                     (Trade.transactionHash t) (Trade.title t))
             | None => None
             end
         | None => None
         end).
Proof.
  intros fetchMarket trades. split; [apply enrich_per_trade|].
  split; [apply enrichTrade_kept|].
  intros t H. unfold Api.enrichTrade. rewrite H.
  unfold Api.lacksOutcome in H. destruct (Trade.type t) eqn:Ety; [discriminate|].
  assert (Hdrop : normalizeTrade t = None).
  { unfold normalizeTrade. rewrite H, orb_true_r. reflexivity. }
  destruct (fetchMarket (Trade.conditionId t)) as [market|]; [|exact Hdrop].
  destruct (find (fun token => Token.winner token) (Market.tokens market)) as [winner|];
    [|exact Hdrop].
  unfold normalizeTrade, Api.set_outcome. cbn [Trade.conditionId Trade.outcome Trade.type].
  destruct (_ || _)%bool; [reflexivity|]. rewrite Ety. reflexivity.
Qed.

(** X18 at work on a REDEEM in a market that No has won. *)
Lemma a_redeem_takes_the_outcome_witness :
  normalizeTrade
    (Api.enrichTrade (Examples.resolved [])
       (Trade.mk 1700000000 REDEEM BUY "0xc1" "" 4%float 0%float 0%float "0xr" "Rain?"))
  = Some (Trade.mk 1700000000 REDEEM SELL "0xc1" "No" 4%float 4%float 1%float "0xr" "Rain?").
Proof.
  apply (proj2 (proj2 (a_redeem_takes_the_outcome_of_the_winner (N := binary64)
                         (Examples.resolved []) []))
           (Trade.mk 1700000000 REDEEM BUY "0xc1" "" 4%float 0%float 0%float "0xr" "Rain?")).
  reflexivity.
Defined.

(* --------------------------------------------------------------------- *)
(** ** Pages of the trading history *)

Module HistoryFacts.

Import History.

Section Pages.

Context {A : Type}.
Variable typeOf : A -> string.
Variable fetch : Z -> Response A.

Lemma pageLoop_spec :
  forall fuel k allTrades asked,
    (k + fuel = 101)%nat -> (1 <= fuel)%nat ->
    exists n : nat,
      (1 <= n <= fuel)%nat /\
      snd (pageLoop typeOf fetch fuel (offsetOf k) allTrades asked)
      = (asked ++ map offsetOf (seq k n))%list /\
      (forall j, (k <= j < k + n - 1)%nat -> isFull (fetch (offsetOf j))) /\
      match fetch (offsetOf (k + n - 1)) with
      | NotOk status =>
          fst (pageLoop typeOf fetch fuel (offsetOf k) allTrades asked) = Threw status
      | Json batch =>
          (Z.of_nat (List.length batch) < limit \/ (k + n = 101)%nat) /\
          fst (pageLoop typeOf fetch fuel (offsetOf k) allTrades asked)
          = Collected (allTrades
                       ++ filter (isTradeOrRedeem typeOf)
                            (List.concat (map (fun j => batchOf (fetch (offsetOf j)))
                                            (seq k n))))%list
      end.
Proof.
  induction fuel as [|fuel IH]; intros k allTrades asked Hk Hf; [lia|].
  cbn [pageLoop].
  destruct (fetch (offsetOf k)) as [status | batch] eqn:Hr.
  - exists 1%nat. replace (k + 1 - 1)%nat with k by lia. rewrite Hr.
    cbn [fst snd seq map]. repeat split; try lia; try (intros j Hj; lia).
  - destruct (Z.of_nat (List.length batch) <? limit) eqn:Hshort.
    + exists 1%nat. replace (k + 1 - 1)%nat with k by lia. rewrite Hr.
      cbn [fst snd seq map List.concat batchOf]. rewrite Hr, app_nil_r.
      apply Z.ltb_lt in Hshort.
      repeat split; try lia; auto; try (intros j Hj; lia).
    + apply Z.ltb_ge in Hshort.
      destruct (50000 <? offsetOf k + limit) eqn:Hcap.
      * apply Z.ltb_lt in Hcap. unfold offsetOf, limit in Hcap.
        exists 1%nat. replace (k + 1 - 1)%nat with k by lia. rewrite Hr.
        cbn [fst snd seq map List.concat batchOf]. rewrite Hr, app_nil_r.
        split; [lia|]. split; [reflexivity|]. split; [intros j Hj; lia|].
        split; [right; lia | reflexivity].
      * apply Z.ltb_ge in Hcap. unfold offsetOf, limit in Hcap.
        replace (offsetOf k + limit) with (offsetOf (S k))
          by (unfold offsetOf, limit; lia).
        destruct (IH (S k) (allTrades ++ filter (isTradeOrRedeem typeOf) batch)%list
                    (asked ++ [offsetOf k])%list) as (n & Hn & Hlog & Hfull & Hend);
          [lia | lia |].
        exists (S n). replace (k + S n - 1)%nat with (S k + n - 1)%nat by lia.
        split; [lia|]. split; [|split].
        -- rewrite Hlog, <- app_assoc. reflexivity.
        -- intros j Hj. destruct (Nat.eq_dec j k) as [-> | Hne].
           ++ rewrite Hr. exact Hshort.
           ++ apply Hfull. lia.
        -- destruct (fetch (offsetOf (S k + n - 1))) as [status | last].
           ++ exact Hend.
           ++ destruct Hend as [Hstop Hres]. split; [destruct Hstop; [left | right]; lia|].
              rewrite Hres. cbn [seq map List.concat]. rewrite Hr. cbn [batchOf].
              rewrite filter_app, app_assoc. reflexivity.
Qed.

End Pages.

End HistoryFacts.

(** X19.  [fetchTradingHistory] asks for pages at the offsets 0, 500, 1000,
    ... in order, 101 of them at most, the last at offset 50000; every page
    before the last one asked for was ok and held 500 items at least.  It
    throws at the first response that is not ok; otherwise it stops at the
    first page of fewer than 500 items or after the 101st page, having kept,
    in order, the items of type TRADE or REDEEM of all the pages read.  The
    loop ends in every case. *)
Theorem the_history_is_read_in_pages_of_500 {A : Type} :
  forall (typeOf : A -> string) (fetch : Z -> History.Response A),
  exists n : nat,
    (1 <= n <= 101)%nat /\
    snd (History.collectTrades typeOf fetch) = map (fun k => 500 * Z.of_nat k) (seq 0 n) /\
    (forall j, (j < n - 1)%nat -> History.isFull (fetch (500 * Z.of_nat j))) /\
    match fetch (500 * Z.of_nat (n - 1)) with
    | History.NotOk status => fst (History.collectTrades typeOf fetch) = History.Threw status
    | History.Json batch =>
        (Z.of_nat (List.length batch) < 500 \/ n = 101%nat) /\
        fst (History.collectTrades typeOf fetch)
        = History.Collected
            (filter (History.isTradeOrRedeem typeOf)
               (List.concat (map (fun j => History.batchOf (fetch (500 * Z.of_nat j)))
                               (seq 0 n))))
    end.
Proof.
  intros typeOf fetch.
  destruct (HistoryFacts.pageLoop_spec typeOf fetch 101 0 [] []) as (n & Hn & Hlog & Hfull & Hend);
    [reflexivity | lia |].
  exists n. split; [exact Hn|]. split; [exact Hlog|]. split.
  - intros j Hj. apply (Hfull j). lia.
  - exact Hend.
Qed.

(* --------------------------------------------------------------------- *)
(** ** Pages of the detailed form *)

Module PageFacts.

Import Pdf.

#[local] Open Scope nat_scope.

Lemma firstn_plus {A : Type} a b (l : list A) :
  firstn (a + b) l = firstn a l ++ firstn b (skipn a l).
Proof.
  revert l. induction a as [|a IH]; intros l; [reflexivity|].
  destruct l as [|x l]; cbn [Nat.add firstn skipn app].
  - rewrite firstn_nil. reflexivity.
  - rewrite IH. reflexivity.
Qed.

(** A page is the next fourteen entries, or what is left of them. *)
Lemma pageEntries_chunk {A : Type} (entries : list A) i :
  pageEntries entries i = firstn 14 (skipn (i * 14) entries).
Proof.
  unfold pageEntries, Api.slice, TRANSACTIONS_PER_PAGE. cbv zeta.
  destruct (Nat.le_gt_cases (i * 14 + 14) (List.length entries)) as [H | H].
  - rewrite Nat.min_l by lia. f_equal. lia.
  - rewrite Nat.min_r by lia.
    rewrite !firstn_all2; try reflexivity; rewrite length_skipn; lia.
Qed.

Lemma pages_prefix {A : Type} (entries : list A) m :
  List.concat (map (pageEntries entries) (seq 0 m)) = firstn (m * 14) entries.
Proof.
  induction m as [|m IH]; [reflexivity|].
  rewrite seq_S, map_app, concat_app, IH. cbn [map List.concat Nat.add].
  rewrite app_nil_r, pageEntries_chunk.
  replace (S m * 14) with (m * 14 + 14) by lia. symmetry. apply firstn_plus.
Qed.

Lemma pageCount_spec n :
  n <= pageCount n * 14 /\ (0 < n -> (pageCount n - 1) * 14 < n) /\ (n = 0 -> pageCount n = 0).
Proof.
  unfold pageCount, TRANSACTIONS_PER_PAGE. cbn [Nat.sub].
  pose proof (Nat.div_mod_eq (n + 13) 14) as H.
  pose proof (Nat.mod_upper_bound (n + 13) 14) as Hm.
  split; [lia|]. split; [lia|]. intros ->. reflexivity.
Qed.

Lemma length_pageEntries {A : Type} (entries : list A) i :
  List.length (pageEntries entries i) = Nat.min 14 (List.length entries - i * 14).
Proof.
  rewrite pageEntries_chunk, length_firstn, length_skipn. reflexivity.
Qed.

End PageFacts.

Section CallFacts.

Context {num : Type}.
Variable toFixed2 : num -> string.

#[local] Open Scope nat_scope.

Lemma rowsFrom_calls pageNum partName fieldPrefix (l : list (Form8949Entry num)) : forall i,
  existsb Pdf.isCheck (Pdf.rowsFrom toFixed2 pageNum partName fieldPrefix i l) = false /\
  existsb Pdf.isCopyPage (Pdf.rowsFrom toFixed2 pageNum partName fieldPrefix i l) = false /\
  List.length (filter Pdf.isSetText (Pdf.rowsFrom toFixed2 pageNum partName fieldPrefix i l))
  = 6 * List.length l.
Proof.
  induction l as [|e l IH]; intros i; cbn [Pdf.rowsFrom]; [repeat split|].
  destruct (IH (S i)) as (H1 & H2 & H3).
  unfold Pdf.rowCalls. cbv zeta. cbn [app existsb Pdf.isCheck Pdf.isCopyPage filter Pdf.isSetText orb].
  rewrite H1, H2. cbn [List.length]. rewrite H3. repeat split. lia.
Qed.

Lemma Forall2_map_seq {B : Type} (P : nat -> B -> Prop) (g : nat -> B) n :
  Forall (fun i => P i (g i)) (seq 0 n) -> Forall2 P (seq 0 n) (map g (seq 0 n)).
Proof.
  generalize (seq 0 n). intros l H. induction H; cbn [map]; constructor; assumption.
Qed.

End CallFacts.

Section FieldFacts.

Context {num : Type}.
Variable toFixed2 : num -> string.

(** The names of the fields of rows depend on how many rows there are, not on
    the entries written to them. *)
Lemma rowsFrom_fields pageNum partName fieldPrefix (l : list (Form8949Entry num)) :
  forall (l' : list (Form8949Entry num)) i,
    List.length l = List.length l' ->
    Pdf.setFields (Pdf.rowsFrom toFixed2 pageNum partName fieldPrefix i l)
    = Pdf.setFields (Pdf.rowsFrom toFixed2 pageNum partName fieldPrefix i l').
Proof.
  induction l as [|e l IH]; intros [|e' l'] i Hlen; try discriminate; [reflexivity|].
  cbn [Pdf.rowsFrom]. unfold Pdf.setFields in *. rewrite !flat_map_app.
  rewrite (IH l' (S i)) by (cbn [List.length] in Hlen; congruence).
  reflexivity.
Qed.

End FieldFacts.

(** X20.  [fillDetailedPart] takes the entries fourteen at a time, in order:
    the groups, one after the other, are the entries, the last group holds
    from 1 to 14 of them and every other group 14, and no entries give no
    group.  On a template that has every field, it checks the box of the part
    with the first group only, sets six text fields for each entry of a group,
    sets the three totals with the last group only, and after every group but
    the last appends a copy of the page of the part.  The fields of a row are
    named after the page of the part and the row within the group, and not
    after the group: each group is written to the fields that the first rows
    of the first group were written to. *)
Theorem detailed_groups_are_written_to_the_same_fields {num : Type} :
  forall (toFixed2 : num -> string) (entries : list (Form8949Entry num)) summary
         partName fieldPrefix checkboxName,
    let pageNum := if String.eqb partName "Part1" then 0%nat else 1%nat in
    let pages := Pdf.pageCount (List.length entries) in
    let calls := Pdf.fillDetailedPart toFixed2 entries summary partName fieldPrefix
                                      checkboxName in
    List.concat (map (Pdf.pageEntries entries) (seq 0 pages)) = entries /\
    (pages = 0%nat <-> entries = []) /\
    Forall2 (fun pageIdx page =>
               let rows := List.length (Pdf.pageEntries entries pageIdx) in
               (1 <= rows <= 14)%nat /\
               (if Nat.ltb pageIdx (pages - 1) then rows = 14%nat else True) /\
               existsb Pdf.isCheck page = Nat.eqb pageIdx 0 /\
               filter Pdf.isCopyPage page
               = (if Nat.ltb pageIdx (pages - 1) then [Pdf.CopyPage pageNum] else []) /\
               List.length (filter Pdf.isSetText page)
               = (6 * rows + (if Nat.eqb pageIdx (pages - 1) then 3 else 0))%nat /\
               Pdf.setFields page
               = (Pdf.setFields
                    (Pdf.rowsFrom toFixed2 pageNum partName fieldPrefix 0
                       (firstn rows (Pdf.pageEntries entries 0)))
                  ++ (if Nat.eqb pageIdx (pages - 1)
                      then Pdf.setFields (Pdf.totalCalls toFixed2 pageNum fieldPrefix summary)
                      else []))%list)
            (seq 0 pages) calls.
Proof.
  intros toFixed2 entries summary partName fieldPrefix checkboxName pageNum pages calls.
  destruct (PageFacts.pageCount_spec (List.length entries)) as (Hup & Hlow & Hzero).
  fold pages in Hup, Hlow, Hzero.
  split; [|split].
  - rewrite PageFacts.pages_prefix. apply firstn_all2. exact Hup.
  - split.
    + intros Hp. apply length_zero_iff_nil. rewrite Hp in Hup. lia.
    + intros ->. reflexivity.
  - unfold calls, Pdf.fillDetailedPart. cbv zeta. fold pageNum. fold pages.
    apply Forall2_map_seq. apply Forall_forall. intros i Hi. apply in_seq in Hi.
    assert (Hpos : (0 < List.length entries)%nat).
    { destruct entries; [|cbn; lia]. rewrite Hzero in Hi by reflexivity. lia. }
    specialize (Hlow Hpos).
    rewrite PageFacts.length_pageEntries.
    split; [lia|]. split.
    { destruct (Nat.ltb_spec i (pages - 1)); [lia | exact I]. }
    unfold Pdf.pageCalls.
    destruct (rowsFrom_calls toFixed2 pageNum partName fieldPrefix
                (Pdf.pageEntries entries i) 0) as (H1 & H2 & H3).
    rewrite PageFacts.length_pageEntries in H3.
    assert (H2' : filter Pdf.isCopyPage
                    (Pdf.rowsFrom toFixed2 pageNum partName fieldPrefix 0
                       (Pdf.pageEntries entries i)) = []).
    { destruct (filter Pdf.isCopyPage _) as [|c l] eqn:E; [reflexivity|].
      assert (Hin : In c (c :: l)) by (left; reflexivity).
      rewrite <- E in Hin. apply filter_In in Hin. destruct Hin as [Hin Hc].
      assert (Hex : existsb Pdf.isCopyPage
                      (Pdf.rowsFrom toFixed2 pageNum partName fieldPrefix 0
                         (Pdf.pageEntries entries i)) = true)
        by (apply existsb_exists; exists c; auto).
      congruence. }
    rewrite (rowsFrom_fields toFixed2 pageNum partName fieldPrefix
               (firstn (Nat.min 14 (List.length entries - i * 14)) (Pdf.pageEntries entries 0))
               (Pdf.pageEntries entries i) 0)
      by (rewrite length_firstn, !PageFacts.length_pageEntries; lia).
    unfold Pdf.setFields.
    rewrite !existsb_app, !filter_app, !length_app, !flat_map_app, H1, H2', H3.
    split; [|split; [|split]].
    + destruct (Nat.eqb i 0); destruct (Nat.eqb i (pages - 1));
        destruct (Nat.ltb i (pages - 1)); reflexivity.
    + destruct (Nat.eqb i 0); destruct (Nat.eqb i (pages - 1));
        destruct (Nat.ltb i (pages - 1)); reflexivity.
    + destruct (Nat.eqb i 0); destruct (Nat.eqb i (pages - 1));
        destruct (Nat.ltb i (pages - 1)); cbn [filter Pdf.isSetText List.length Pdf.totalCalls];
        lia.
    + destruct (Nat.eqb i 0); destruct (Nat.eqb i (pages - 1));
        destruct (Nat.ltb i (pages - 1)); cbn [flat_map app]; rewrite ?app_nil_r;
        reflexivity.
Qed.



(* --------------------------------------------------------------------- *)
(** ** Lines of the statement *)

Section StatementFacts.

Context {num : Type}.
Variable toFixed2 : num -> string.

Import Pdf.

Lemma inSequence_snoc before final d :
  inSequence (before ++ [final]) -> follows final d ->
  inSequence ((before ++ [final]) ++ [d]).
Proof.
  induction before as [|a r IH]; intros Hs Hf.
  - cbn. auto.
  - destruct r as [|b r'].
    + cbn in *. tauto.
    + change (inSequence (a :: (b :: r') ++ [final])) in Hs.
      change (inSequence (a :: ((b :: r') ++ [final]) ++ [d])).
      cbn [inSequence app] in Hs |- *. destruct Hs as [Hab Hs].
      split; [exact Hab|]. apply IH; assumption.
Qed.

(** Drawing at [y], or at the top of a new page when [y] is below [floor]. *)
Lemma laidOut_draw page y draws final floor text size :
  50 <= floor ->
  Pdf.laidOut (page, y, draws) final ->
  let '(page', y') := if y <? floor then (S page, 750) else (page, y) in
  Pdf.laidOut (page', y' - 15, draws ++ [mkDraw page' text margin y' size])
          (mkDraw page' text margin y' size).
Proof.
  intros Hfloor (Hin & Hseq & (before & ->) & Hpage & Hy).
  assert (Hfinal : 50 <= Pdf.y final <= 750).
  { rewrite Forall_app in Hin. destruct Hin as [_ Hf]. inversion Hf; subst. tauto. }
  destruct (y <? floor) eqn:E; [apply Z.ltb_lt in E | apply Z.ltb_ge in E].
  - split; [|split; [|split; [|split]]].
    + apply Forall_app. split; [exact Hin|]. constructor; [|constructor].
      cbn. unfold margin. lia.
    + apply inSequence_snoc; [exact Hseq|]. right. cbn. auto.
    + eexists. reflexivity.
    + reflexivity.
    + cbn. lia.
  - split; [|split; [|split; [|split]]].
    + apply Forall_app. split; [exact Hin|]. constructor; [|constructor].
      cbn. unfold margin. lia.
    + apply inSequence_snoc; [exact Hseq|]. left. cbn. auto.
    + eexists. reflexivity.
    + reflexivity.
    + cbn. lia.
Qed.

Lemma laidOut_lower page y y' draws final :
  y' <= y -> Pdf.laidOut (page, y, draws) final -> Pdf.laidOut (page, y', draws) final.
Proof.
  intros H (Hin & Hseq & Hlast & Hpage & Hy). repeat split; try assumption. lia.
Qed.

Lemma drawLine_laidOut st final (entry : Form8949Entry num) :
  Pdf.laidOut st final -> exists final', Pdf.laidOut (drawLine toFixed2 st entry) final'.
Proof.
  destruct st as [[page y] draws]. intros H.
  pose proof (laidOut_draw page y draws final 50 (lineOf toFixed2 entry) 8
                (Z.le_refl 50) H) as Hd.
  unfold drawLine. destruct (y <? 50); eexists; exact Hd.
Qed.

Lemma drawLines_laidOut (entries : list (Form8949Entry num)) : forall st final,
  Pdf.laidOut st final -> exists final', Pdf.laidOut (fold_left (drawLine toFixed2) entries st) final'.
Proof.
  induction entries as [|e r IH]; intros st final H; cbn [fold_left]; [eauto|].
  destruct (drawLine_laidOut st final e H) as [final' H']. eapply IH, H'.
Qed.

Lemma drawLines_text (entries : list (Form8949Entry num)) : forall page y draws,
  map Pdf.text (snd (fold_left (drawLine toFixed2) entries (page, y, draws)))
  = map Pdf.text draws ++ map (lineOf toFixed2) entries.
Proof.
  induction entries as [|e r IH]; intros page y draws; cbn [fold_left map].
  - rewrite app_nil_r. reflexivity.
  - unfold drawLine at 2. destruct (y <? 50); rewrite IH, map_app, <- app_assoc; reflexivity.
Qed.

End StatementFacts.

(** X22.  Every line that [generateStatement] draws is at the left margin 50
    and at a height from 50 to 750; the lines are drawn in sequence, each one
    lower on the same page than the one before it, or at the top of the next
    page; and the texts drawn are the title, the tax year and, for each part
    that is not empty, its heading followed by one line per entry, in order. *)
Theorem statement_lines_stay_on_the_page {num : Type} :
  forall (toFixed2 : num -> string) (report : TaxReport num) taxYear,
    let draws := Pdf.generateStatement toFixed2 report taxYear in
    Forall (fun d => 50 <= Pdf.y d <= 750 /\ Pdf.x d = 50) draws /\
    Pdf.inSequence draws /\
    map Pdf.text draws
    = ["Polymarket Tax Statement"; "Tax Year: " ++ Str.ofZ taxYear]%string
      ++ match Report.shortTerm report with
         | [] => []
         | _ :: _ => "Part I - Short-Term Capital Gains"%string
                     :: map (Pdf.lineOf toFixed2) (Report.shortTerm report)
         end
      ++ match Report.longTerm report with
         | [] => []
         | _ :: _ => "Part II - Long-Term Capital Gains"%string
                     :: map (Pdf.lineOf toFixed2) (Report.longTerm report)
         end.
Proof.
  intros toFixed2 report taxYear draws. unfold draws, Pdf.generateStatement. cbv zeta.
  set (title := Pdf.mkDraw 0 "Polymarket Tax Statement" Pdf.margin 750 16).
  set (year := Pdf.mkDraw 0 ("Tax Year: " ++ Str.ofZ taxYear) Pdf.margin (750 - 30) 12).
  assert (H0 : Pdf.laidOut (0%nat, 750 - 30 - 40, [title] ++ [year]) year).
  { split; [|split; [|split; [|split]]].
    - repeat constructor; cbn; unfold Pdf.margin; lia.
    - cbn. split; [|exact I]. left. cbn. split; [reflexivity | lia].
    - exists [title]. reflexivity.
    - reflexivity.
    - cbn. lia. }
  assert (Hshort : exists st final,
             match Report.shortTerm report with
             | [] => (0%nat, 750 - 30 - 40, [title] ++ [year])
             | _ :: _ =>
                 let '(page, y, draws) :=
                   fold_left (Pdf.drawLine toFixed2) (Report.shortTerm report)
                     (0%nat, 750 - 30 - 40 - 20,
                      ([title] ++ [year])
                      ++ [Pdf.mkDraw 0 "Part I - Short-Term Capital Gains" Pdf.margin
                                     (750 - 30 - 40) 14]) in
                 (page, y - 20, draws)
             end = st /\
             Pdf.laidOut st final /\
             map Pdf.text (snd st)
             = ["Polymarket Tax Statement"; "Tax Year: " ++ Str.ofZ taxYear]%string
               ++ match Report.shortTerm report with
                  | [] => []
                  | _ :: _ => "Part I - Short-Term Capital Gains"%string
                              :: map (Pdf.lineOf toFixed2) (Report.shortTerm report)
                  end).
  { destruct (Report.shortTerm report) as [|e r] eqn:Es.
    - eexists. exists year. split; [reflexivity|]. split; [exact H0 | reflexivity].
    - pose proof (laidOut_draw 0%nat (750 - 30 - 40) ([title] ++ [year]) year 50
                    "Part I - Short-Term Capital Gains" 14 (Z.le_refl 50) H0) as Hh.
      change (750 - 30 - 40 <? 50) with false in Hh. cbv iota in Hh.
      apply (laidOut_lower _ _ (750 - 30 - 40 - 20)) in Hh; [|lia].
      destruct (drawLines_laidOut toFixed2 (e :: r) _ _ Hh) as [final Hf].
      pose proof (drawLines_text toFixed2 (e :: r) 0%nat (750 - 30 - 40 - 20)
                    (([title] ++ [year])
                     ++ [Pdf.mkDraw 0 "Part I - Short-Term Capital Gains" Pdf.margin
                                    (750 - 30 - 40) 14])) as Ht.
      destruct (fold_left (Pdf.drawLine toFixed2) (e :: r) _) as [[page y] ds].
      eexists. exists final. split; [reflexivity|]. split.
      + apply (laidOut_lower _ y); [lia | exact Hf].
      + cbn [snd] in *. rewrite Ht. reflexivity. }
  destruct Hshort as (st & final & -> & Hst & Htext).
  destruct st as [[page y] ds]. cbn [snd] in Htext.
  destruct (Report.longTerm report) as [|e r] eqn:El.
  - destruct Hst as (Hin & Hseq & _). rewrite app_nil_r. auto.
  - pose proof (laidOut_draw page y ds final 200 "Part II - Long-Term Capital Gains" 14
                  ltac:(lia) Hst) as Hh.
    destruct (y <? 200).
    + apply (laidOut_lower _ _ (750 - 20)) in Hh; [|lia].
      destruct (drawLines_laidOut toFixed2 (e :: r) _ _ Hh) as [final' Hf].
      pose proof (drawLines_text toFixed2 (e :: r) (S page) (750 - 20)
                    (ds ++ [Pdf.mkDraw (S page) "Part II - Long-Term Capital Gains"
                                       Pdf.margin 750 14])) as Ht.
      destruct (fold_left (Pdf.drawLine toFixed2) (e :: r) _) as [[page' y'] ds'].
      destruct Hf as (Hin & Hseq & _). cbn [snd] in Ht.
      split; [exact Hin|]. split; [exact Hseq|].
      rewrite Ht, map_app, Htext, <- !app_assoc. reflexivity.
    + apply (laidOut_lower _ _ (y - 20)) in Hh; [|lia].
      destruct (drawLines_laidOut toFixed2 (e :: r) _ _ Hh) as [final' Hf].
      pose proof (drawLines_text toFixed2 (e :: r) page (y - 20)
                    (ds ++ [Pdf.mkDraw page "Part II - Long-Term Capital Gains"
                                       Pdf.margin y 14])) as Ht.
      destruct (fold_left (Pdf.drawLine toFixed2) (e :: r) _) as [[page' y'] ds'].
      destruct Hf as (Hin & Hseq & _). cbn [snd] in Ht.
      split; [exact Hin|]. split; [exact Hseq|].
      rewrite Ht, map_app, Htext, <- !app_assoc. reflexivity.
Qed.

(* --------------------------------------------------------------------- *)
(** ** Reading the CSV statement back *)

Module CsvFacts.

Import Csv LengthFacts.

#[local] Open Scope string_scope.

Lemma app_assoc_s (a b c : string) : (a ++ b) ++ c = a ++ b ++ c.
Proof. induction a as [|x a IH]; cbn [append]; [reflexivity|]. rewrite IH. reflexivity. Qed.

Lemma app_empty_r (a : string) : a ++ "" = a.
Proof. induction a as [|x a IH]; cbn [append]; [reflexivity|]. rewrite IH. reflexivity. Qed.

Lemma quoted_read field rest :
  endsField rest ->
  quotedField (doubleQuotes field ++ String quote rest) = (field, rest).
Proof.
  intros Hrest. induction field as [|c r IH].
  - cbn [doubleQuotes append quotedField]. rewrite Ascii.eqb_refl.
    destruct Hrest as [-> | (c & r & -> & Hc)]; [reflexivity|].
    replace (Ascii.eqb c quote) with false; [reflexivity|].
    destruct Hc as [-> | ->]; reflexivity.
  - cbn [doubleQuotes]. destruct (Ascii.eqb c quote) eqn:E.
    + apply Ascii.eqb_eq in E. subst c. cbn [append quotedField].
      rewrite Ascii.eqb_refl. rewrite IH. reflexivity.
    + cbn [append quotedField]. rewrite E, IH. reflexivity.
Qed.

Lemma plain_read field rest :
  Str.includes comma field = false -> Str.includes newline field = false ->
  endsField rest ->
  plainField (field ++ rest) = (field, rest).
Proof.
  intros Hc Hn Hrest. induction field as [|c r IH].
  - cbn [append]. destruct Hrest as [-> | (c & r & -> & Hsep)]; [reflexivity|].
    cbn [plainField]. destruct Hsep as [-> | ->]; reflexivity.
  - cbn [Str.includes] in Hc, Hn. apply orb_false_iff in Hc, Hn.
    destruct Hc as [Hc1 Hc2]. destruct Hn as [Hn1 Hn2].
    cbn [append plainField]. rewrite Hc1, Hn1. cbn [orb]. rewrite IH by assumption.
    reflexivity.
Qed.

Lemma isPlain_parts s :
  isPlain s = true ->
  Str.includes comma s = false /\ Str.includes quote s = false /\
  Str.includes newline s = false.
Proof.
  unfold isPlain. intros H. apply negb_true_iff in H.
  apply orb_false_iff in H. destruct H as [H H3].
  apply orb_false_iff in H. tauto.
Qed.

Lemma escape_plain s : isPlain s = true -> escapeCsvField s = s.
Proof.
  unfold isPlain, escapeCsvField. intros H. apply negb_true_iff in H. rewrite H. reflexivity.
Qed.

(** A field as written is read back, whatever it holds. *)
Lemma readField_escaped field rest :
  endsField rest -> readField (escapeCsvField field ++ rest) = (field, rest).
Proof.
  intros Hrest. unfold escapeCsvField.
  destruct (Str.includes comma field || Str.includes quote field
            || Str.includes newline field)%bool eqn:E.
  - cbn [append readField]. rewrite Ascii.eqb_refl.
    rewrite app_assoc_s. cbn [append]. apply quoted_read, Hrest.
  - apply orb_false_iff in E. destruct E as [E En].
    apply orb_false_iff in E. destruct E as [Ec Eq].
    destruct field as [|c r].
    + cbn [append]. destruct Hrest as [-> | (c & r & -> & Hsep)]; [reflexivity|].
      cbn [readField]. replace (Ascii.eqb c quote) with false
        by (destruct Hsep as [-> | ->]; reflexivity).
      cbn [plainField]. destruct Hsep as [-> | ->]; reflexivity.
    + cbn [append readField].
      cbn [Str.includes] in Eq. apply orb_false_iff in Eq. destruct Eq as [Eq1 _].
      rewrite Eq1. apply (plain_read (String c r) rest Ec En Hrest).
Qed.

Lemma join_cons sep (a b : string) l :
  Str.join sep (a :: b :: l) = a ++ sep ++ Str.join sep (b :: l).
Proof. reflexivity. Qed.

(** One row, followed by nothing or by a line feed and more text. *)
Lemma read_row (fields : list string) : forall record tail fuel,
  fields <> [] ->
  (tail = "" \/ exists t, tail = String newline t) ->
  (String.length (Str.join (String comma "") (map escapeCsvField fields) ++ tail) < fuel)%nat ->
  exists fuel',
    (String.length tail <= fuel')%nat /\
    readRecords fuel (Str.join (String comma "") (map escapeCsvField fields) ++ tail) record
    = match tail with
      | EmptyString => [(record ++ fields)%list]
      | String _ t => (record ++ fields)%list :: readRecords fuel' t []
      end.
Proof.
  induction fields as [|x l IH]; intros record tail fuel Hne Htail Hfuel; [contradiction|].
  destruct fuel as [|fuel]; [lia|].
  destruct l as [|y l'].
  - cbn [map Str.join String.concat] in *.
    change (Str.join (String comma "") [escapeCsvField x]) with (escapeCsvField x) in *.
    cbn [readRecords]. rewrite readField_escaped.
    + rewrite length_app in Hfuel.
      destruct Htail as [-> | (t & ->)].
      * exists 0%nat. split; [cbn; lia | reflexivity].
      * exists fuel. split; [cbn [String.length] in *; lia|].
        replace (Ascii.eqb newline comma) with false by reflexivity. reflexivity.
    + destruct Htail as [-> | (t & ->)]; [left; reflexivity|].
      right. exists newline, t. auto.
  - change (map escapeCsvField (x :: y :: l'))
      with (escapeCsvField x :: map escapeCsvField (y :: l')) in *.
    change (map escapeCsvField (y :: l'))
      with (escapeCsvField y :: map escapeCsvField l') in *.
    rewrite join_cons in *. rewrite !app_assoc_s in *.
    cbn [readRecords]. rewrite readField_escaped.
    + cbn [append]. rewrite Ascii.eqb_refl.
      rewrite length_app in Hfuel. cbn [append String.length] in Hfuel.
      destruct (IH (record ++ [x])%list tail fuel ltac:(discriminate) Htail ltac:(lia))
        as (fuel' & Hf & Hr).
      exists fuel'. split; [exact Hf|]. rewrite Hr, <- app_assoc. reflexivity.
    + right. eexists _, _. split; [reflexivity | left; reflexivity].
Qed.

Lemma render_cons row rows :
  rows <> [] ->
  render (row :: rows)
  = Str.join (String comma "") row ++ String newline (render rows).
Proof.
  intros H. unfold render. destruct rows as [|r rs]; [contradiction|]. reflexivity.
Qed.

(** The text of rows of escaped fields reads as the rows. *)
Lemma read_rows (rows : list (list string)) : forall fuel,
  rows <> [] ->
  (String.length (render (map (map escapeCsvField) rows)) < fuel)%nat ->
  readRecords fuel (render (map (map escapeCsvField) rows)) [] = map asRead rows.
Proof.
  induction rows as [|row rows IH]; intros fuel Hne Hfuel; [contradiction|].
  destruct rows as [|row' rows'].
  - cbn [map]. unfold render in *. cbn [map Str.join String.concat] in *.
    destruct row as [|x l].
    + destruct fuel; [lia|]. reflexivity.
    + destruct (read_row (x :: l) [] "" fuel ltac:(discriminate) ltac:(left; reflexivity))
        as (fuel' & _ & Hr).
      * rewrite app_empty_r. exact Hfuel.
      * rewrite app_empty_r in Hr. exact Hr.
  - change (map (map escapeCsvField) (row :: row' :: rows'))
      with (map escapeCsvField row :: map (map escapeCsvField) (row' :: rows')) in *.
    rewrite render_cons in * by discriminate.
    set (t := render (map (map escapeCsvField) (row' :: rows'))) in *.
    rewrite length_app in Hfuel. cbn [String.length] in Hfuel.
    destruct row as [|x l].
    + cbn [map Str.join String.concat append] in *.
      destruct fuel as [|fuel]; [lia|]. cbn [readRecords readField].
      replace (Ascii.eqb newline quote) with false by reflexivity.
      cbn [plainField]. replace (Ascii.eqb newline comma || Ascii.eqb newline newline)%bool
        with true by reflexivity.
      replace (Ascii.eqb newline comma) with false by reflexivity.
      cbn [map asRead app]. f_equal.
      apply IH; [discriminate | lia].
    + destruct (read_row (x :: l) [] (String newline t) fuel ltac:(discriminate)
                  ltac:(right; eexists; reflexivity))
        as (fuel' & Hf & Hr).
      * rewrite length_app. cbn [String.length]. lia.
      * rewrite Hr. cbn [app]. change (map asRead ((x :: l) :: row' :: rows'))
          with ((x :: l) :: map asRead (row' :: rows')).
        f_equal. apply IH; [discriminate|]. cbn [String.length] in Hf. lia.
Qed.

End CsvFacts.

(** X23.  Rows whose fields all went through [escapeCsvField] and that were
    joined by commas and line feeds can be told from their text, whatever
    commas, quotes and line feeds the fields hold: two tables written as the
    same text have the same rows with the same fields, but for a row without
    fields, which is written as a row of one empty field is.  This is about
    the text alone and not about a reader of it: a carriage return is not
    quoted, nor does a record end in one. *)
Theorem escaped_rows_are_told_by_their_text :
  forall rows1 rows2 : list (list string),
    rows1 <> [] -> rows2 <> [] ->
    Csv.render (map (map Csv.escapeCsvField) rows1)
    = Csv.render (map (map Csv.escapeCsvField) rows2) ->
    map Csv.asRead rows1 = map Csv.asRead rows2.
Proof.
  intros rows1 rows2 H1 H2 Htext.
  rewrite <- (CsvFacts.read_rows rows1
                (S (String.length (Csv.render (map (map Csv.escapeCsvField) rows1)))) H1)
    by lia.
  rewrite <- (CsvFacts.read_rows rows2
                (S (String.length (Csv.render (map (map Csv.escapeCsvField) rows2)))) H2)
    by lia.
  rewrite Htext. reflexivity.
Qed.

(** X23 at work on a row without fields and a row of one empty field, before
    a field with a comma. *)
Lemma escaped_rows_are_told_by_their_text_witness :
  map Csv.asRead [[]; ["Rain, or snow?"; "12.50"]]%string
  = map Csv.asRead [[""]; ["Rain, or snow?"; "12.50"]]%string.
Proof.
  apply (escaped_rows_are_told_by_their_text
           [[]; ["Rain, or snow?"; "12.50"]]%string
           [[""]; ["Rain, or snow?"; "12.50"]]%string);
    [discriminate | discriminate | reflexivity].
Defined.

Module PlainFacts.

Import Csv.

Lemma isPlain_cons c s :
  isPlain (String c s)
  = (negb (Ascii.eqb c comma) && negb (Ascii.eqb c quote) && negb (Ascii.eqb c newline)
     && isPlain s)%bool.
Proof.
  unfold isPlain. cbn [Str.includes].
  destruct (Ascii.eqb c comma), (Ascii.eqb c quote), (Ascii.eqb c newline),
    (Str.includes comma s), (Str.includes quote s), (Str.includes newline s); reflexivity.
Qed.

Lemma isPlain_app a b : isPlain (a ++ b) = (isPlain a && isPlain b)%bool.
Proof.
  induction a as [|c a IH]; cbn [append]; [reflexivity|].
  rewrite !isPlain_cons, IH, !andb_assoc. reflexivity.
Qed.

Lemma isPlain_uint d : isPlain (NilEmpty.string_of_uint d) = true.
Proof.
  induction d; cbn [NilEmpty.string_of_uint]; [reflexivity| | | | | | | | | |];
    rewrite isPlain_cons, IHd; reflexivity.
Qed.

Lemma isPlain_ofZ z : isPlain (Str.ofZ z) = true.
Proof.
  unfold Str.ofZ, NilZero.string_of_int, NilZero.string_of_uint.
  destruct (Z.to_int z) as [d | d].
  - destruct d; try reflexivity; apply (isPlain_uint (_ d)).
  - rewrite isPlain_cons. cbn [andb negb].
    replace (Ascii.eqb "-" comma) with false by reflexivity.
    replace (Ascii.eqb "-" quote) with false by reflexivity.
    replace (Ascii.eqb "-" newline) with false by reflexivity. cbn [negb andb].
    destruct d; try reflexivity; apply (isPlain_uint (_ d)).
Qed.

Lemma isPlain_padStart2 s : isPlain s = true -> isPlain (Str.padStart2 s) = true.
Proof.
  intros H. unfold Str.padStart2. destruct (String.length s) as [|[|n]]; try exact H;
    rewrite isPlain_app, H; reflexivity.
Qed.

Lemma isPlain_formatDate tz t : isPlain (formatDate tz t) = true.
Proof.
  unfold formatDate. destruct (JsDate.localFields tz t) as [[y m] d].
  rewrite !isPlain_app, !isPlain_padStart2, isPlain_ofZ by apply isPlain_ofZ. reflexivity.
Qed.

End PlainFacts.

Section CsvStatementFacts.

Context {num : Type} {N : Number num}.
Variable toFixed2 : num -> string.
Hypothesis toFixed2_plain : forall v, Csv.isPlain (toFixed2 v) = true.

Lemma entryRow_escaped kind (e : Form8949Entry num) :
  Csv.isPlain kind = true ->
  Csv.isPlain (Entry.dateAcquired e) = true -> Csv.isPlain (Entry.dateSold e) = true ->
  Csv.entryRow toFixed2 kind e = map Csv.escapeCsvField (Csv.rawRow toFixed2 kind e).
Proof.
  intros Hk Ha Hs. unfold Csv.entryRow, Csv.rawRow. cbn [map].
  rewrite !(CsvFacts.escape_plain (toFixed2 _)) by apply toFixed2_plain.
  rewrite (CsvFacts.escape_plain _ Hk), (CsvFacts.escape_plain _ Ha),
    (CsvFacts.escape_plain _ Hs), (CsvFacts.escape_plain _ (PlainFacts.isPlain_ofZ _)).
  destruct (Entry.isLongTerm e); reflexivity.
Qed.

Lemma totalRow_escaped label count (p c g : num) :
  Csv.isPlain label = true ->
  Csv.totalRow toFixed2 label count p c g
  = map Csv.escapeCsvField (Csv.totalRow toFixed2 label count p c g).
Proof.
  intros Hl. unfold Csv.totalRow. cbn [map].
  rewrite !(CsvFacts.escape_plain (toFixed2 _)) by apply toFixed2_plain.
  rewrite (CsvFacts.escape_plain _ Hl).
  rewrite (CsvFacts.escape_plain (Str.ofZ _ ++ " transactions"))
    by (rewrite PlainFacts.isPlain_app, PlainFacts.isPlain_ofZ; reflexivity).
  reflexivity.
Qed.

Lemma rows_escaped (report : TaxReport num) :
  Forall (fun e => Csv.isPlain (Entry.dateAcquired e) = true /\
                   Csv.isPlain (Entry.dateSold e) = true)
         (Report.shortTerm report ++ Report.longTerm report) ->
  Csv.rowsOf toFixed2 report = map (map Csv.escapeCsvField) (Csv.rawRows toFixed2 report).
Proof.
  intros H. apply Forall_app in H. destruct H as [Hs Hl].
  unfold Csv.rawRows, Csv.rowsOf, Csv.summaryRows.
  rewrite !map_app, !map_map.
  change (map (map Csv.escapeCsvField) [Csv.headers]) with [Csv.headers].
  apply f_equal. apply f_equal2; [|apply f_equal2].
  - apply map_ext_in. intros e He. rewrite Forall_forall in Hs.
    destruct (Hs e He). apply entryRow_escaped; auto.
  - apply map_ext_in. intros e He. rewrite Forall_forall in Hl.
    destruct (Hl e He). apply entryRow_escaped; auto.
  - cbn [map]. rewrite <- !totalRow_escaped by reflexivity. reflexivity.
Qed.

End CsvStatementFacts.

Section RowFacts.

Context {num : Type} {N : Number num}.
Variable toFixed2 : num -> string.

(** Rows of no field or of more than one are told apart as they are read. *)
Lemma asRead_inj (l1 : list (list string)) : forall l2,
  Forall (fun row => List.length row <> 1%nat) l1 ->
  Forall (fun row => List.length row <> 1%nat) l2 ->
  map Csv.asRead l1 = map Csv.asRead l2 -> l1 = l2.
Proof.
  induction l1 as [|r1 l1 IH]; intros [|r2 l2] F1 F2 H; try discriminate; [reflexivity|].
  inversion F1 as [|? ? Hr1 F1']; subst. inversion F2 as [|? ? Hr2 F2']; subst.
  cbn [map] in H. injection H as Hr H. f_equal; [|apply IH; assumption].
  destruct r1 as [|x1 [|y1 t1]], r2 as [|x2 [|y2 t2]]; cbn [Csv.asRead] in Hr;
    cbn [List.length] in Hr1, Hr2; try congruence; discriminate.
Qed.

Lemma rawRows_lengths (report : TaxReport num) :
  Forall (fun row => List.length row <> 1%nat) (Csv.rawRows toFixed2 report).
Proof.
  unfold Csv.rawRows. repeat (apply Forall_app; split).
  - repeat constructor. discriminate.
  - apply Forall_forall. intros row H. apply in_map_iff in H.
    destruct H as (e & <- & _). discriminate.
  - apply Forall_forall. intros row H. apply in_map_iff in H.
    destruct H as (e & <- & _). discriminate.
  - unfold Csv.summaryRows, Csv.totalRow. repeat constructor; discriminate.
Qed.

End RowFacts.

(** X24.  When [toFixed] yields no comma, quote or line feed, the CSV
    statement of a report of the calculator tells its rows: two reports with
    the same text have the same rows, field by field (the header, a row per
    entry and the summary rows).  The row of an entry has nine fields, of
    which the first, Type, equals the last, Term; and its dates and day count
    hold no comma, quote or line feed, so that escaping the description alone
    leaves every field as [escapeCsvField] would write it. *)
Theorem the_statement_tells_the_rows_of_a_report {num : Type} {N : Number num} :
  forall (toFixed2 : num -> string) tz1 tz2 fetch1 fetch2
         (trades1 trades2 : list (PolymarketTrade num)) taxYear1 taxYear2,
    (forall v, Csv.isPlain (toFixed2 v) = true) ->
    let report1 := generateTaxReport tz1 fetch1 trades1 taxYear1 in
    let report2 := generateTaxReport tz2 fetch2 trades2 taxYear2 in
    (Csv.generateStatementCSV toFixed2 report1 = Csv.generateStatementCSV toFixed2 report2 ->
     Csv.rowsOf toFixed2 report1 = Csv.rowsOf toFixed2 report2) /\
    Forall (fun row =>
              List.length row = 9%nat /\ hd ""%string row = last row ""%string /\
              Forall (fun field => Csv.isPlain field = true)
                     (hd ""%string row :: skipn 2 row))
           (map (Csv.entryRow toFixed2 "Short-Term") (Report.shortTerm report1)
            ++ map (Csv.entryRow toFixed2 "Long-Term") (Report.longTerm report1)).
Proof.
  intros toFixed2 tz1 tz2 fetch1 fetch2 trades1 trades2 taxYear1 taxYear2 Hplain
         report1 report2.
  assert (Hall : forall tz fetch trades taxYear,
            Forall (fun e : Form8949Entry num =>
                      Csv.isPlain (Entry.dateAcquired e) = true /\
                      Csv.isPlain (Entry.dateSold e) = true)
                   (Report.shortTerm (generateTaxReport tz fetch trades taxYear)
                    ++ Report.longTerm (generateTaxReport tz fetch trades taxYear))).
  { intros tz fetch trades taxYear.
    destruct (generateTaxReport_entries tz fetch trades taxYear) as (Hs & Hl & _).
    rewrite Hs, Hl. apply Forall_app.
    assert (H : Forall (fun e : Form8949Entry num =>
                          Csv.isPlain (Entry.dateAcquired e) = true /\
                          Csv.isPlain (Entry.dateSold e) = true)
                       (allEntries tz fetch trades taxYear)).
    { apply allEntries_all; intros; cbn [matchEntry oversellEntry worthlessEntry
                                         Entry.dateAcquired Entry.dateSold];
        rewrite ?PlainFacts.isPlain_formatDate; split; reflexivity. }
    split; apply Forall_filter_of, H. }
  split.
  - unfold Csv.generateStatementCSV.
    rewrite (rows_escaped toFixed2 Hplain report1) by apply Hall.
    rewrite (rows_escaped toFixed2 Hplain report2) by apply Hall.
    intros Htext. f_equal.
    apply asRead_inj; try apply rawRows_lengths.
    rewrite <- (CsvFacts.read_rows (Csv.rawRows toFixed2 report1)
                  (S (String.length
                        (Csv.render (map (map Csv.escapeCsvField)
                                       (Csv.rawRows toFixed2 report1))))))
      by (unfold Csv.rawRows; first [discriminate | lia]).
    rewrite <- (CsvFacts.read_rows (Csv.rawRows toFixed2 report2)
                  (S (String.length
                        (Csv.render (map (map Csv.escapeCsvField)
                                       (Csv.rawRows toFixed2 report2))))))
      by (unfold Csv.rawRows; first [discriminate | lia]).
    rewrite Htext. reflexivity.
  - pose proof (Hall tz1 fetch1 trades1 taxYear1) as H. fold report1 in H.
    apply Forall_app in H. destruct H as [H1 H2].
    destruct (generateTaxReport_entries tz1 fetch1 trades1 taxYear1) as (Hs & Hl & _).
    fold report1 in Hs, Hl.
    apply Forall_app. split; apply Forall_forall; intros row Hrow;
      apply in_map_iff in Hrow; destruct Hrow as (e & <- & He).
    + rewrite Forall_forall in H1. destruct (H1 e He) as [Ha Hd].
      rewrite Hs in He. apply filter_In in He. destruct He as [_ Hterm].
      apply negb_true_iff in Hterm. unfold Csv.entryRow. rewrite Hterm.
      split; [reflexivity|]. split; [reflexivity|]. cbn [hd skipn].
      repeat constructor; auto using PlainFacts.isPlain_ofZ.
    + rewrite Forall_forall in H2. destruct (H2 e He) as [Ha Hd].
      rewrite Hl in He. apply filter_In in He. destruct He as [_ Hterm].
      unfold Csv.entryRow. rewrite Hterm.
      split; [reflexivity|]. split; [reflexivity|]. cbn [hd skipn].
      repeat constructor; auto using PlainFacts.isPlain_ofZ.
Qed.

(** X24 at work on the reports of the FIFO example for two tax years. *)
Lemma the_statement_tells_the_rows_witness :
  let toFixed2 := fun _ : float => "0.00"%string in
  let report1 := generateTaxReport 0 Examples.noMarkets Examples.fifoTrades 2023 in
  let report2 := generateTaxReport 0 Examples.noMarkets Examples.fifoTrades 2024 in
  Csv.rowsOf toFixed2 report1 = Csv.rowsOf toFixed2 report2 /\
  Forall (fun row =>
            List.length row = 9%nat /\ hd ""%string row = last row ""%string /\
            Forall (fun field => Csv.isPlain field = true)
                   (hd ""%string row :: skipn 2 row))
         (map (Csv.entryRow toFixed2 "Short-Term") (Report.shortTerm report1)
          ++ map (Csv.entryRow toFixed2 "Long-Term") (Report.longTerm report1)).
Proof.
  destruct (the_statement_tells_the_rows_of_a_report (N := binary64)
              (fun _ : float => "0.00"%string) 0 0 Examples.noMarkets Examples.noMarkets
              Examples.fifoTrades Examples.fifoTrades 2023 2024 (fun _ => eq_refl))
    as [Htext Hrows].
  split; [apply Htext; vm_compute; reflexivity | exact Hrows].
Defined.
